(** * jellyfin_recap.py: the recap aggregation and report generation

    A shallow embedding of [generate_jellyfin_recap] (src/jellyfin_recap.py)
    and of the four HTTP helpers it calls, followed by the properties of
    the aggregation (top songs, top artists, minutes listened), of the
    image lookup and of the HTML report.

    Python values are modelled as follows.
    - [int] is [Z]; [float] is an IEEE 754 binary64 value of
      [SpecFloat] (precision 53, [emax] 1024, round to nearest even).
    - A [dict] is an insertion-ordered association list with unique keys
      ([pydict]); [d[k]] on a missing key raises [KeyError].
    - A JSON object of the server is a record with the fields the code
      reads ([Item], [User], [UserData]).  An item need not have its
      [AlbumArtist] and its [RunTimeTicks]: these two fields are options,
      and reading a missing one raises [KeyError].  The other fields that
      are read ([Id], [Name] and [Artists] of an item, [Id] and [Name] of a
      user, [PlayCount] of a user data) are taken to be there, and every
      field to have a value of its JSON type.
    - An exception is a value of [exn]; code that may raise returns a
      [result].
    - The calls of [print], the requests to the server and the writes to
      files are the events of a run, in their order.  A file whose name
      comes from the server (the image of an item, the report of a user)
      may fail to open, which raises [OSError]; the two directories and
      the two JSON files of the output directory are taken to be made and
      written, every request to get a response, and the progress bar of
      [tqdm] is left out. *)

From Stdlib Require Import List ZArith String Bool Lia Permutation Sorted.
From Stdlib Require Import SpecFloat.
Import ListNotations.

Local Open Scope Z_scope.

(** ** Exceptions and results *)

(** The requests of the four HTTP helpers. *)
Inductive request :=
| ReqItems
| ReqUsers
| ReqUserData (item_id user_id : string)
| ReqImage (item_id : string).

(** The directories and the files of a run. *)
Inductive path :=
| OutputDir
| AssetsDir
| UsersJson
| AllItemsJson
| AssetFile (item_id : string)
| HtmlFile (user : string).

(** [OSError] stands for the error of an [open] that fails
    ([FileNotFoundError], [PermissionError] and the like), [HttpError] for
    the [Exception] that a helper raises on a response that is not [ok]. *)
Inductive exn :=
| KeyError (key : string)
| IndexError
| OverflowError
| ZeroDivisionError
| TypeError
| OSError (p : path)
| HttpError (r : request).

Inductive result (A : Type) :=
| OK (a : A)
| Raise (e : exn).
Arguments OK {A} a.
Arguments Raise {A} e.

Definition bind {A B} (c : result A) (k : A -> result B) : result B :=
  match c with
  | OK a => k a
  | Raise e => Raise e
  end.

Notation "x <- c ;; k" := (bind c (fun x => k))
  (at level 61, c at next level, right associativity).

(** [for x in xs: s = body x s], stopping at the first exception. *)
Fixpoint for_each {A S} (xs : list A) (body : A -> S -> result S) (s : S)
  : result S :=
  match xs with
  | [] => OK s
  | x :: xs' => s' <- body x s ;; for_each xs' body s'
  end.

(** [[f(x) for x in xs]], stopping at the first exception. *)
Fixpoint map_result {A B} (f : A -> result B) (xs : list A)
  : result (list B) :=
  match xs with
  | [] => OK []
  | x :: xs' => y <- f x ;; ys <- map_result f xs' ;; OK (y :: ys)
  end.

(** ** Python dictionaries *)

Definition pydict (V : Type) := list (string * V).

Fixpoint dict_get {V} (d : pydict V) (k : string) : option V :=
  match d with
  | [] => None
  | (k', v) :: d' => if String.eqb k' k then Some v else dict_get d' k
  end.

(** [d[k] = v]: an existing key keeps its position, a new key goes last. *)
Fixpoint dict_set {V} (d : pydict V) (k : string) (v : V) : pydict V :=
  match d with
  | [] => [(k, v)]
  | (k', v') :: d' =>
      if String.eqb k' k then (k', v) :: d' else (k', v') :: dict_set d' k v
  end.

(** [d[k]] as an expression. *)
Definition dict_getitem {V} (d : pydict V) (k : string) : result V :=
  match dict_get d k with
  | Some v => OK v
  | None => Raise (KeyError k)
  end.

Definition dict_keys {V} (d : pydict V) : list string := map fst d.
Definition dict_items {V} (d : pydict V) : list (string * V) := d.

(** [{key(x): value(x) for x in xs}]. *)
Definition dict_comp {A V} (key : A -> string) (value : A -> V)
  (xs : list A) : pydict V :=
  fold_left (fun d x => dict_set d (key x) (value x)) xs [].

(** ** Lists: indexing, slicing, sorting *)

(** [l[i]] for an index [i >= 0]. *)
Definition list_getitem {A} (l : list A) (i : nat) : result A :=
  match nth_error l i with
  | Some x => OK x
  | None => Raise IndexError
  end.

(** [l[:n]]: the first [n] elements, and for a negative [n] all but the
    last [-n]. *)
Definition slice_to {A} (l : list A) (n : Z) : list A :=
  if n <? 0
  then firstn (Z.to_nat (Z.of_nat (List.length l) + n)) l
  else firstn (Z.to_nat n) l.

(** [range(n)]. *)
Definition range (n : Z) : list nat := seq 0 (Z.to_nat n).

Section PySorted.
Context {A : Type}.

(** [x] stood to the left of every element of [l] in the input: it goes
    before the first element whose key is not greater than its own. *)
Fixpoint insert_desc (kx : Z) (x : A) (l : list (Z * A)) : list (Z * A) :=
  match l with
  | [] => [(kx, x)]
  | (ky, y) :: l' =>
      if ky <=? kx then (kx, x) :: (ky, y) :: l'
      else (ky, y) :: insert_desc kx x l'
  end.

Definition sort_desc (l : list (Z * A)) : list (Z * A) :=
  fold_right (fun p acc => insert_desc (fst p) (snd p) acc) [] l.

(** [sorted(xs, key=key, reverse=True)]: the keys of all elements are
    computed first, left to right; the sort is stable, and with
    [reverse=True] elements of equal key keep their input order. *)
Definition sorted_reverse (key : A -> result Z) (xs : list A)
  : result (list A) :=
  ks <- map_result key xs ;;
  OK (map snd (sort_desc (combine ks xs))).
End PySorted.

(** ** Numbers *)

(** binary64. *)
Definition prec : Z := 53.
Definition emax : Z := 1024.
Definition float := spec_float.

Definition fdiv : float -> float -> float := SFdiv prec emax.
Definition fmul : float -> float -> float := SFmul prec emax.
Definition fadd : float -> float -> float := SFadd prec emax.

(** The conversion of an [int] operand of a float operation: the nearest
    float, ties to even; an [int] beyond the largest float raises
    [OverflowError]. *)
Definition float_of_int (z : Z) : result float :=
  match binary_normalize prec emax z 0 false with
  | S754_infinity _ => Raise OverflowError
  | f => OK f
  end.

(** The literal [6e7]. *)
Definition float_6e7 : float :=
  Eval vm_compute in binary_normalize prec emax 60000000 0 false.

Definition is_zero (f : float) : bool :=
  match f with
  | S754_zero _ => true
  | _ => false
  end.

(** A value that is an [int] or a [float]. *)
Inductive pynum :=
| PInt (z : Z)
| PFloat (f : float).

(** [a / b] for an [int] [a] and a [float] [b]. *)
Definition truediv_int_float (a : Z) (b : float) : result float :=
  fa <- float_of_int a ;;
  if is_zero b then Raise ZeroDivisionError else OK (fdiv fa b).

(** [a * b] for a [float] [a] and an [int] [b]. *)
Definition mul_float_int (a : float) (b : Z) : result float :=
  fb <- float_of_int b ;;
  OK (fmul a fb).

(** [a + b] for a number [a] and a [float] [b]. *)
Definition add_num_float (a : pynum) (b : float) : result pynum :=
  match a with
  | PInt z => fa <- float_of_int z ;; OK (PFloat (fadd fa b))
  | PFloat fa => OK (PFloat (fadd fa b))
  end.

(** ** The data of the server *)

(** The user data of one item for one user. *)
Record UserData := { PlayCount : Z }.

(** An audio item, with the [UserData] dictionary that
    [generate_jellyfin_recap] adds, keyed by user name.  [None] is a field
    that the JSON object of the item does not have. *)
Record Item := {
  item_Id : string;
  item_Name : string;
  item_AlbumArtist : option string;
  item_Artists : list string;
  item_RunTimeTicks : option Z;
  item_UserData : pydict UserData
}.

(** [x[name]] for a field of a JSON object that may be missing. *)
Definition field {A} (name : string) (value : option A) : result A :=
  match value with
  | Some a => OK a
  | None => Raise (KeyError name)
  end.

Record User := {
  user_Id : string;
  user_Name : string
}.

(** ** The aggregation (lines 166 to 190 of [generate_jellyfin_recap]) *)

(** [x["UserData"][user]["PlayCount"]]. *)
Definition play_count (user : string) (x : Item) : result Z :=
  ud <- dict_getitem (item_UserData x) user ;;
  OK (PlayCount ud).

Record Recap := {
  most_listened_songs : pydict (list Item);
  most_listened_artists : pydict (list (string * Z));
  minutes_listened : pydict pynum
}.

Section Aggregation.
Variable item_data : list Item.
Variable users : list User.
Variables num_top_songs num_top_artists : Z.

(** [sorted(item_data, key=..., reverse=True)[:num_top_songs]], of line
    171. *)
Definition top_songs (user : string) : result (list Item) :=
  top <- sorted_reverse (play_count user) item_data ;;
  OK (slice_to top num_top_songs).

(** One turn of the loop of line 170: [songlist.extend(...)]. *)
Definition songs_step (user : string) (songs : pydict (list Item))
  : result (pydict (list Item)) :=
  songlist <- dict_getitem songs user ;;
  top <- top_songs user ;;
  OK (dict_set songs user (songlist ++ top)).

Definition find_most_listened_songs : result (pydict (list Item)) :=
  let songs := dict_comp user_Name (fun _ => []) users in
  for_each (dict_keys songs) songs_step songs.

(** Lines 180 to 183: one artist of one item. *)
Definition credit (user : string) (item : Item) (item_artist : string)
  (artists : pydict Z) : result (pydict Z) :=
  match dict_get artists item_artist with
  | Some total =>
      pc <- play_count user item ;;
      OK (dict_set artists item_artist (total + pc))
  | None =>
      pc <- play_count user item ;;
      OK (dict_set artists item_artist pc)
  end.

(** Lines 177 to 183: the [artists] dictionary of one user. *)
Definition bake (user : string) : result (pydict Z) :=
  for_each item_data
    (fun item artists => for_each (item_Artists item) (credit user item) artists)
    [].

(** [sorted(artists.items(), key=lambda x: x[1], reverse=True)
    [:num_top_artists]], of line 184, after the accumulation. *)
Definition top_artists (user : string) : result (list (string * Z)) :=
  artists <- bake user ;;
  top <- sorted_reverse (fun x => OK (snd x)) (dict_items artists) ;;
  OK (slice_to top num_top_artists).

(** One turn of the loop of line 175: [artistlist.extend(...)]. *)
Definition artists_step (user : string)
  (by_user : pydict (list (string * Z)))
  : result (pydict (list (string * Z))) :=
  artistlist <- dict_getitem by_user user ;;
  top <- top_artists user ;;
  OK (dict_set by_user user (artistlist ++ top)).

Definition find_most_listened_artists
  : result (pydict (list (string * Z))) :=
  let by_user := dict_comp user_Name (fun _ => []) users in
  for_each (dict_keys by_user) artists_step by_user.

(** Line 190: [minutes_listened[user] += (ticks / 6e7) * play_count]. *)
Definition minutes_step (user : string) (item : Item)
  (minutes : pydict pynum) : result (pydict pynum) :=
  total <- dict_getitem minutes user ;;
  ticks <- field "RunTimeTicks" (item_RunTimeTicks item) ;;
  q <- truediv_int_float ticks float_6e7 ;;
  pc <- play_count user item ;;
  t <- mul_float_int q pc ;;
  total' <- add_num_float total t ;;
  OK (dict_set minutes user total').

Definition find_minutes_listened : result (pydict pynum) :=
  let minutes := dict_comp user_Name (fun _ => PInt 0) users in
  for_each (dict_keys minutes)
    (fun user minutes => for_each item_data (minutes_step user) minutes)
    minutes.

Definition aggregate : result Recap :=
  songs <- find_most_listened_songs ;;
  artists <- find_most_listened_artists ;;
  minutes <- find_minutes_listened ;;
  OK {| most_listened_songs := songs;
        most_listened_artists := artists;
        minutes_listened := minutes |}.
End Aggregation.

(** ** Effects: the server, the file system and the terminal *)

(** The arguments of the calls of [print]. *)
Inductive message :=
| MsgRetrievingItems
| MsgItemsRetrieved (n : nat)
| MsgRetrievingUsers
| MsgUsersFound (n : nat)
| MsgAddingUserData
| MsgUserDataAdded
| MsgFindingSongs (n : Z)
| MsgFindingArtists (n : Z)
| MsgFindingMinutes
| MsgSongsOfMaf (l : list (string * string))
| MsgArtists (d : pydict (list (string * Z)))
| MsgMinutes (d : pydict pynum).

(** The arguments of the calls of [outfile.write] on a report. *)
Inductive chunk :=
| HtmlHead
| ImgTag (item_id : string)
| TableHead
| RowOpen
| ArtistCell (rank : Z) (artist : string)
| SongCell (rank : Z) (song : string)
| RowClose
| TableClose
| MinutesLine (m : pynum)
| HtmlFoot.

Inductive dump :=
| DumpUsers (users : list User)
| DumpItems (item_data : list Item).

Inductive event :=
| EvMkdir (p : path)
| EvPrint (m : message)
| EvRequest (r : request)
| EvJsonDump (p : path) (content : dump)
| EvSaveImage (p : path)
| EvOpen (p : path)
| EvWrite (p : path) (c : chunk).

(** What the run meets outside: which directories exist, what the server
    answers ([None] and [false] stand for a response that is not [ok]),
    and which of the files named after an item or a user [open] can
    open. *)
Record World := {
  isdir : path -> bool;
  srv_items : option (list Item);
  srv_users : option (list User);
  srv_userdata : string -> string -> option UserData;
  srv_image : string -> bool;
  can_open : path -> bool
}.

(** A computation with effects: the events it caused, in order, and its
    result. *)
Definition io (A : Type) : Type := (list event * result A)%type.

Definition io_ret {A} (a : A) : io A := ([], OK a).

Definition io_bind {A B} (c : io A) (k : A -> io B) : io B :=
  match c with
  | (t, OK a) => let (t', r) := k a in (t ++ t', r)
  | (t, Raise e) => (t, Raise e)
  end.

Definition emit (e : event) : io unit := ([e], OK tt).
Definition lift {A} (r : result A) : io A := ([], r).

Notation "x <~ c ;; k" := (io_bind c (fun x => k))
  (at level 61, c at next level, right associativity).
Notation "c ;;; k" := (io_bind c (fun _ => k))
  (at level 61, right associativity).

Fixpoint io_for {A} (xs : list A) (body : A -> io unit) : io unit :=
  match xs with
  | [] => io_ret tt
  | x :: xs' => body x ;;; io_for xs' body
  end.

Fixpoint io_fold {A S} (xs : list A) (body : A -> S -> io S) (s : S) : io S :=
  match xs with
  | [] => io_ret s
  | x :: xs' => s' <~ body x s ;; io_fold xs' body s'
  end.

Fixpoint io_map {A B} (f : A -> io B) (xs : list A) : io (list B) :=
  match xs with
  | [] => io_ret []
  | x :: xs' => y <~ f x ;; ys <~ io_map f xs' ;; io_ret (y :: ys)
  end.

Section Run.
Variable w : World.

(** [open(path, mode)] for a file named after an item or a user. *)
Definition open_file (p : path) : result unit :=
  if can_open w p then OK tt else Raise (OSError p).

(** The image is requested and, if the response is [ok], saved under the
    identifier of the item in the assets directory. *)
Definition get_item_image (item_id : string) : io unit :=
  emit (EvRequest (ReqImage item_id)) ;;;
  if srv_image w item_id
  then lift (open_file (AssetFile item_id)) ;;;
       emit (EvSaveImage (AssetFile item_id))
  else lift (Raise (HttpError (ReqImage item_id))).

(** The user data of one item for one user. *)
Definition get_item_userdata (item_id user_id : string) : io UserData :=
  emit (EvRequest (ReqUserData item_id user_id)) ;;;
  match srv_userdata w item_id user_id with
  | Some userdata => io_ret userdata
  | None => lift (Raise (HttpError (ReqUserData item_id user_id)))
  end.

(** The users of the server. *)
Definition get_all_users : io (list User) :=
  emit (EvRequest ReqUsers) ;;;
  match srv_users w with
  | Some users => io_ret users
  | None => lift (Raise (HttpError ReqUsers))
  end.

(** The audio items of the server. *)
Definition get_all_audio_items : io (list Item) :=
  emit (EvRequest ReqItems) ;;;
  match srv_items w with
  | Some items => io_ret items
  | None => lift (Raise (HttpError ReqItems))
  end.

Variables num_top_songs num_top_artists : Z.

(** Lines 152 to 155: the body of the loop over the items. *)
Definition add_userdata (users : list User) (item : Item) : io Item :=
  user_data <~ io_fold users
    (fun user d =>
       userdata <~ get_item_userdata (item_Id item) (user_Id user) ;;
       io_ret (dict_set d (user_Name user) userdata))
    [] ;;
  io_ret {| item_Id := item_Id item;
            item_Name := item_Name item;
            item_AlbumArtist := item_AlbumArtist item;
            item_Artists := item_Artists item;
            item_RunTimeTicks := item_RunTimeTicks item;
            item_UserData := user_data |}.

(** Lines 134 to 159: the directories, the items, the users, and the user
    data of every item for every user, kept in the item under the name of
    the user. *)
Definition fetch : io (list Item * list User) :=
  (if isdir w OutputDir then io_ret tt else emit (EvMkdir OutputDir)) ;;;
  (if isdir w AssetsDir then io_ret tt else emit (EvMkdir AssetsDir)) ;;;
  emit (EvPrint MsgRetrievingItems) ;;;
  item_data <~ get_all_audio_items ;;
  emit (EvPrint (MsgItemsRetrieved (List.length item_data))) ;;;
  emit (EvPrint MsgRetrievingUsers) ;;;
  users <~ get_all_users ;;
  emit (EvPrint (MsgUsersFound (List.length users))) ;;;
  emit (EvJsonDump UsersJson (DumpUsers users)) ;;;
  emit (EvPrint MsgAddingUserData) ;;;
  item_data <~ io_map (add_userdata users) item_data ;;
  emit (EvPrint MsgUserDataAdded) ;;;
  emit (EvJsonDump AllItemsJson (DumpItems item_data)) ;;;
  io_ret (item_data, users).

(** Lines 166 to 190, with their calls of [print].  The dictionary of line
    167 is built before the print of line 169; building it has no effect
    and raises nothing, so it is left with the loop of line 170. *)
Definition aggregation (item_data : list Item) (users : list User)
  : io Recap :=
  emit (EvPrint (MsgFindingSongs num_top_songs)) ;;;
  songs <~ lift (find_most_listened_songs item_data users num_top_songs) ;;
  emit (EvPrint (MsgFindingArtists num_top_artists)) ;;;
  artists <~ lift (find_most_listened_artists item_data users num_top_artists) ;;
  emit (EvPrint MsgFindingMinutes) ;;;
  minutes <~ lift (find_minutes_listened item_data users) ;;
  io_ret {| most_listened_songs := songs;
            most_listened_artists := artists;
            minutes_listened := minutes |}.

(** [(thing["Name"], thing["AlbumArtist"])], of line 193. *)
Definition name_and_album (thing : Item) : result (string * string) :=
  album <- field "AlbumArtist" (item_AlbumArtist thing) ;;
  OK (item_Name thing, album).

(** Lines 193 to 195: the list of line 193 is built before it is
    printed. *)
Definition debug_print (r : Recap) : io unit :=
  songs <~ lift (dict_getitem (most_listened_songs r) "maf"%string) ;;
  names <~ lift (map_result name_and_album songs) ;;
  emit (EvPrint (MsgSongsOfMaf names)) ;;;
  emit (EvPrint (MsgArtists (most_listened_artists r))) ;;;
  emit (EvPrint (MsgMinutes (minutes_listened r))).

(** [most_listened_songs[user][0]["Id"]], of lines 198 and 250. *)
Definition top_song_id (r : Recap) (user : string) : result string :=
  songs <- dict_getitem (most_listened_songs r) user ;;
  first <- list_getitem songs 0 ;;
  OK (item_Id first).

(** Lines 197 and 198. *)
Definition fetch_images (r : Recap) : io unit :=
  io_for (dict_keys (most_listened_songs r))
    (fun user =>
       item_id <~ lift (top_song_id r user) ;;
       get_item_image item_id).

(** Lines 259 to 262: one row of the table. *)
Definition write_row (r : Recap) (user : string) (i : nat) : io unit :=
  let outfile := HtmlFile user in
  emit (EvWrite outfile RowOpen) ;;;
  artistlist <~ lift (dict_getitem (most_listened_artists r) user) ;;
  artist <~ lift (list_getitem artistlist i) ;;
  emit (EvWrite outfile (ArtistCell (Z.of_nat i + 1) (fst artist))) ;;;
  songlist <~ lift (dict_getitem (most_listened_songs r) user) ;;
  song <~ lift (list_getitem songlist i) ;;
  emit (EvWrite outfile (SongCell (Z.of_nat i + 1) (item_Name song))) ;;;
  emit (EvWrite outfile RowClose).

(** Lines 201 to 270: the report of one user. *)
Definition write_report (r : Recap) (user : string) : io unit :=
  let outfile := HtmlFile user in
  lift (open_file outfile) ;;;
  emit (EvOpen outfile) ;;;
  emit (EvWrite outfile HtmlHead) ;;;
  item_id <~ lift (top_song_id r user) ;;
  emit (EvWrite outfile (ImgTag item_id)) ;;;
  emit (EvWrite outfile TableHead) ;;;
  io_for (range (Z.min num_top_songs num_top_artists)) (write_row r user) ;;;
  emit (EvWrite outfile TableClose) ;;;
  minutes <~ lift (dict_getitem (minutes_listened r) user) ;;
  emit (EvWrite outfile (MinutesLine minutes)) ;;;
  emit (EvWrite outfile HtmlFoot).

(** Lines 192 to 270: what follows the aggregation. *)
Definition report (r : Recap) : io unit :=
  debug_print r ;;;
  fetch_images r ;;;
  io_for (dict_keys (most_listened_songs r)) (write_report r).

(** The whole of [generate_jellyfin_recap].  Its body reads the global
    [server_address] (the parameter is spelled [server_addres]), which is
    set when the file runs as a script; the address and the key are part
    of the server [w]. *)
Definition generate_jellyfin_recap : io unit :=
  snapshot <~ fetch ;;
  r <~ aggregation (fst snapshot) (snd snapshot) ;;
  report r.
End Run.

(** ** The aggregation on the store of objects

    The same lines 166 to 190 with the objects of Python made explicit: a
    list or a dictionary is an object of the store, reached by reference,
    and [extend] and [d[k] = v] change the object in place.  An item and a
    user are kept as one object each, with the lists and dictionaries below
    them: these lines only read them. *)
Module Store.
Definition ref := nat.

(** An element of a list: a reference to an object, or an (artist,
    total) tuple. *)
Inductive value :=
| VRef (l : ref)
| VPair (artist : string) (total : Z).

Inductive object :=
| ObjItem (x : Item)
| ObjUser (u : User)
| ObjList (xs : list value)
| ObjByUser (d : pydict ref)
| ObjTotals (d : pydict Z)
| ObjMinutes (d : pydict pynum).

Definition store := list object.

(** A computation on the store; what it did before an exception stays
    done. *)
Definition M (A : Type) : Type := store -> result A * store.

Definition ret {A} (a : A) : M A := fun s => (OK a, s).
Definition raise {A} (e : exn) : M A := fun s => (Raise e, s).
Definition lift {A} (r : result A) : M A := fun s => (r, s).

Definition mbind {A B} (c : M A) (k : A -> M B) : M B :=
  fun s =>
    match c s with
    | (OK a, s') => k a s'
    | (Raise e, s') => (Raise e, s')
    end.

Declare Scope store_scope.
Delimit Scope store_scope with store.
Notation "x <- c ;; k" := (mbind c (fun x => k))
  (at level 61, c at next level, right associativity) : store_scope.
Local Open Scope store_scope.

(** A new object. *)
Definition alloc (o : object) : M ref :=
  fun s => (OK (List.length s), s ++ [o]).

(** The object of a reference; a reference to nothing, which no program
    holds, is a [TypeError]. *)
Definition read (l : ref) : M object :=
  fun s =>
    match nth_error s l with
    | Some o => (OK o, s)
    | None => (Raise TypeError, s)
    end.

Fixpoint update (s : store) (l : ref) (o : object) : store :=
  match s, l with
  | [], _ => []
  | _ :: s', O => o :: s'
  | x :: s', S l' => x :: update s' l' o
  end.

(** The object of [l] becomes [o]. *)
Definition write (l : ref) (o : object) : M unit :=
  fun s => (OK tt, update s l o).

Definition read_list (l : ref) : M (list value) :=
  o <- read l ;;
  match o with ObjList xs => ret xs | _ => raise TypeError end.

Definition read_by_user (l : ref) : M (pydict ref) :=
  o <- read l ;;
  match o with ObjByUser d => ret d | _ => raise TypeError end.

Definition read_totals (l : ref) : M (pydict Z) :=
  o <- read l ;;
  match o with ObjTotals d => ret d | _ => raise TypeError end.

Definition read_minutes (l : ref) : M (pydict pynum) :=
  o <- read l ;;
  match o with ObjMinutes d => ret d | _ => raise TypeError end.

Definition read_item (v : value) : M Item :=
  match v with
  | VRef l => o <- read l ;; match o with ObjItem x => ret x | _ => raise TypeError end
  | VPair _ _ => raise TypeError
  end.

Definition read_user (v : value) : M User :=
  match v with
  | VRef l => o <- read l ;; match o with ObjUser u => ret u | _ => raise TypeError end
  | VPair _ _ => raise TypeError
  end.

Fixpoint for_each {A} (xs : list A) (body : A -> M unit) : M unit :=
  match xs with
  | [] => ret tt
  | x :: xs' => _ <- body x ;; for_each xs' body
  end.

Fixpoint fold {A S} (xs : list A) (body : A -> S -> M S) (acc : S) : M S :=
  match xs with
  | [] => ret acc
  | x :: xs' => acc' <- body x acc ;; fold xs' body acc'
  end.

Fixpoint map_m {A B} (f : A -> M B) (xs : list A) : M (list B) :=
  match xs with
  | [] => ret []
  | x :: xs' => y <- f x ;; ys <- map_m f xs' ;; ret (y :: ys)
  end.

(** [sorted(l, key=key, reverse=True)]: a new list. *)
Definition sorted_reverse (key : value -> M Z) (l : ref) : M ref :=
  xs <- read_list l ;;
  ks <- map_m key xs ;;
  alloc (ObjList (map snd (sort_desc (combine ks xs)))).

(** [l[:n]]: a new list. *)
Definition slice (l : ref) (n : Z) : M ref :=
  xs <- read_list l ;;
  alloc (ObjList (slice_to xs n)).

(** [l.extend(top)]: [l] changes in place. *)
Definition extend (l top : ref) : M unit :=
  xs <- read_list l ;;
  ys <- read_list top ;;
  write l (ObjList (xs ++ ys)).

(** [{user["Name"]: [] for user in users}]: a new list for every user,
    and the new dictionary. *)
Definition lists_by_name (users : ref) : M ref :=
  us <- read_list users ;;
  d <- fold us
         (fun user d =>
            u <- read_user user ;;
            l <- alloc (ObjList []) ;;
            ret (dict_set d (user_Name u) l))
         [] ;;
  alloc (ObjByUser d).

Section Aggregation.
Variables item_data users : ref.
Variables num_top_songs num_top_artists : Z.

Definition find_most_listened_songs : M ref :=
  songs <- lists_by_name users ;;
  d <- read_by_user songs ;;
  _ <- for_each (dict_items d)
         (fun kv =>
            let user := fst kv in
            let songlist := snd kv in
            sorted <- sorted_reverse
                        (fun x => item <- read_item x ;; lift (play_count user item))
                        item_data ;;
            top <- slice sorted num_top_songs ;;
            extend songlist top) ;;
  ret songs.

(** Lines 180 to 183, on the dictionary [artists]. *)
Definition credit (artists : ref) (user : string) (item : Item)
  (item_artist : string) : M unit :=
  d <- read_totals artists ;;
  match dict_get d item_artist with
  | Some total =>
      pc <- lift (play_count user item) ;;
      write artists (ObjTotals (dict_set d item_artist (total + pc)))
  | None =>
      pc <- lift (play_count user item) ;;
      write artists (ObjTotals (dict_set d item_artist pc))
  end.

(** Lines 177 to 183: [artists = {}] and the two loops. *)
Definition bake (user : string) : M ref :=
  artists <- alloc (ObjTotals []) ;;
  xs <- read_list item_data ;;
  _ <- for_each xs
         (fun x =>
            item <- read_item x ;;
            for_each (item_Artists item) (credit artists user item)) ;;
  ret artists.

(** [artists.items()] as a list of tuples. *)
Definition items_of (artists : ref) : M ref :=
  d <- read_totals artists ;;
  alloc (ObjList (map (fun kv => VPair (fst kv) (snd kv)) (dict_items d))).

Definition total_of (x : value) : M Z :=
  match x with
  | VPair _ total => ret total
  | VRef _ => raise TypeError
  end.

Definition find_most_listened_artists : M ref :=
  by_user <- lists_by_name users ;;
  d <- read_by_user by_user ;;
  _ <- for_each (dict_items d)
         (fun kv =>
            let user := fst kv in
            let artistlist := snd kv in
            artists <- bake user ;;
            pairs <- items_of artists ;;
            sorted <- sorted_reverse total_of pairs ;;
            top <- slice sorted num_top_artists ;;
            extend artistlist top) ;;
  ret by_user.

(** Line 190. *)
Definition add_minutes (minutes : ref) (user : string) (x : value) : M unit :=
  item <- read_item x ;;
  d <- read_minutes minutes ;;
  total <- lift (dict_getitem d user) ;;
  ticks <- lift (field "RunTimeTicks" (item_RunTimeTicks item)) ;;
  q <- lift (truediv_int_float ticks float_6e7) ;;
  pc <- lift (play_count user item) ;;
  t <- lift (mul_float_int q pc) ;;
  total' <- lift (add_num_float total t) ;;
  write minutes (ObjMinutes (dict_set d user total')).

Definition find_minutes_listened : M ref :=
  us <- read_list users ;;
  d <- fold us
         (fun user d =>
            u <- read_user user ;;
            ret (dict_set d (user_Name u) (PInt 0)))
         [] ;;
  minutes <- alloc (ObjMinutes d) ;;
  _ <- for_each (dict_keys d)
         (fun user =>
            xs <- read_list item_data ;;
            for_each xs (add_minutes minutes user)) ;;
  ret minutes.

Definition aggregate : M (ref * ref * ref) :=
  songs <- find_most_listened_songs ;;
  artists <- find_most_listened_artists ;;
  minutes <- find_minutes_listened ;;
  ret (songs, artists, minutes).
End Aggregation.
End Store.

(** * Specification

    The notions in which the properties below are stated. *)

(** ** Rankings *)

(** What the specification asks of a ranking [ys] of [xs]: the same
    elements, in non-increasing order of [key], elements of equal key in
    their order in [xs]. *)
Definition stable_sorted_desc {A} (key : A -> Z) (xs ys : list A) : Prop :=
  Permutation xs ys /\
  StronglySorted (fun a b => key b <= key a) ys /\
  forall k, filter (fun a => key a =? k) ys = filter (fun a => key a =? k) xs.

(** The order of the decorated list of [sort_desc]. *)
Definition ge_fst {A} (p q : Z * A) : Prop := fst q <= fst p.

(** Every element carries its own key. *)
Definition decorated {A} (key : A -> Z) (l : list (Z * A)) : Prop :=
  Forall (fun p => fst p = key (snd p)) l.

(** The play counts of [user], read from the data: every item has an
    entry for [user] in its [UserData], and [pc x] is the [PlayCount] of
    that entry. *)
Definition counts (user : string) (item_data : list Item) (pc : Item -> Z) : Prop :=
  forall x, In x item_data ->
    exists entry,
      dict_get (item_UserData x) user = Some entry /\ PlayCount entry = pc x.

(** A loop body that replaces the value of its own key by [f] of it. *)
Definition local_update {V} (body : string -> pydict V -> result (pydict V))
  (f : string -> V -> result V) : Prop :=
  forall k d v, dict_get d k = Some v ->
    body k d = (v' <- f k v ;; OK (dict_set d k v')).

(** ** Artists *)

(** The names of a list, each at its first occurrence. *)
Fixpoint first_occurrences (l : list string) : list string :=
  match l with
  | [] => []
  | a :: l' => a :: filter (fun b => negb (String.eqb a b)) (first_occurrences l')
  end.

Definition sum (l : list Z) : Z := fold_right Z.add 0 l.

(** The plays of [a] where every credit counts: an item that names [a]
    [n] times adds [n] times its play count. *)
Definition total_plays (pc : Item -> Z) (item_data : list Item) (a : string) : Z :=
  sum (map (fun x => pc x * Z.of_nat (count_occ string_dec (item_Artists x) a)) item_data).

(** The plays of the items that credit [a], each item once. *)
Definition credited_plays (pc : Item -> Z) (item_data : list Item) (a : string) : Z :=
  sum (map pc (filter (fun x => existsb (String.eqb a) (item_Artists x)) item_data)).

(** The (artist, total) pairs in the order in which the artists are first
    met. *)
Definition artist_totals (pc : Item -> Z) (item_data : list Item)
  : list (string * Z) :=
  map (fun a => (a, total_plays pc item_data a))
      (first_occurrences (flat_map item_Artists item_data)).

(** An (artist, total) pair whose total is positive. *)
Definition positive_total (e : string * Z) : bool := 0 <? snd e.

(** The credits in the order of the loops of lines 178 and 179, each with
    the play count of its item. *)
Definition credits (pc : Item -> Z) (item_data : list Item) : list (string * Z) :=
  flat_map (fun x => map (fun a => (a, pc x)) (item_Artists x)) item_data.

(** Lines 180 to 183 as a function of the credit. *)
Definition accumulate (cs : list (string * Z)) (d : pydict Z) : pydict Z :=
  fold_left
    (fun d c =>
       dict_set d (fst c)
         match dict_get d (fst c) with
         | Some total => total + snd c
         | None => snd c
         end)
    cs d.

Definition sum_for (a : string) (cs : list (string * Z)) : Z :=
  sum (map snd (filter (fun c => String.eqb (fst c) a) cs)).

Definition fresh (ks : list string) (b : string) : bool :=
  negb (existsb (String.eqb b) ks).

(** ** Minutes *)

(** The right-hand side of line 190 for one item, as the code computes
    it. *)
Definition minutes_of_item (user : string) (item : Item) : result float :=
  ticks <- field "RunTimeTicks" (item_RunTimeTicks item) ;;
  q <- truediv_int_float ticks float_6e7 ;;
  pc <- play_count user item ;;
  mul_float_int q pc.

(** The sum [0 + t1 + ... + tn] in float arithmetic, left to right; the
    [int] zero where there is nothing to add. *)
Definition float_sum (ts : list float) : pynum :=
  match ts with
  | [] => PInt 0
  | t :: ts' => PFloat (fold_left fadd ts' (fadd (S754_zero false) t))
  end.

(** The float of binary64 nearest to an integer, ties to even; an infinity
    beyond the largest float. *)
Definition nearest_float (z : Z) : spec_float :=
  binary_normalize 53 1024 z 0 false.

(** The minutes of one item by the formula of the specification,
    [(runtime_ticks / 6e7) * play_count], in the arithmetic of binary64. *)
Definition minutes_formula (ticks plays : Z) : spec_float :=
  SFmul 53 1024
    (SFdiv 53 1024 (nearest_float ticks) (nearest_float 60000000))
    (nearest_float plays).

(** The ticks of an item and the play count of [user] in it, read from the
    item: its field [RunTimeTicks] and the [PlayCount] of the entry of
    [user] in its [UserData]. *)
Definition ticks_and_plays (user : string) (x : Item) : option (Z * Z) :=
  match item_RunTimeTicks x, dict_get (item_UserData x) user with
  | Some ticks, Some entry => Some (ticks, PlayCount entry)
  | _, _ => None
  end.

Definition formula_minutes (rows : list (Z * Z)) : list spec_float :=
  map (fun row => minutes_formula (fst row) (snd row)) rows.

(** The total [0 + t1 + ... + tn] of binary64, from the [int] 0 and left
    to right; the [int] zero where there is nothing to add. *)
Definition float_total (ts : list spec_float) : pynum :=
  match ts with
  | [] => PInt 0
  | t :: ts' =>
      PFloat (fold_left (SFadd 53 1024) ts' (SFadd 53 1024 (S754_zero false) t))
  end.

(** The float of a positive integer [v] of at most 53 digits: the digits
    of [v] moved up to the 53 of the mantissa. *)
Definition canon (v : Z) : spec_float :=
  S754_finite false (Z.to_pos (v * 2 ^ (53 - Zdigits2 v))) (Zdigits2 v - 53).

(** A mantissa on its way through the rounding, no digit lost so far. *)
Definition exact_record (m : Z) : shr_record :=
  {| shr_m := m; shr_r := false; shr_s := false |}.

(** Line 190 on the value of the user's entry. *)
Definition add_minutes (user : string) (item : Item) (total : pynum)
  : result pynum :=
  t <- minutes_of_item user item ;;
  add_num_float total t.

Definition nonzero (t : float) : bool := negb (is_zero t).

Definition zero_num (a : pynum) : bool :=
  match a with
  | PInt z => z =? 0
  | PFloat f => is_zero f
  end.

(** Equal, or two zeros (the [int] zero, [0.0] and [-0.0] compare equal). *)
Definition same_number (a b : pynum) : Prop :=
  a = b \/ (zero_num a = true /\ zero_num b = true).

Definition same_float (a b : float) : Prop :=
  a = b \/ (is_zero a = true /\ is_zero b = true).

(** A float of the format of precision [pr] and largest exponent [em]: no
    NaN, no infinity, at most [pr] digits. *)
Definition in_format (pr em : Z) (f : spec_float) : Prop :=
  match f with
  | S754_zero _ => True
  | S754_finite _ m e => Zdigits2 (Zpos m) <= pr /\ e <= em - pr
  | _ => False
  end.

(** ** The run *)

(** An event of the part of the run that follows the debug print: a request
    of an image, the saving of one, or the writing of a report. *)
Definition late (ev : event) : bool :=
  match ev with
  | EvRequest (ReqImage _) | EvSaveImage _ | EvOpen _ | EvWrite _ _ => true
  | _ => false
  end.

Definition early_only (t : list event) : Prop :=
  Forall (fun ev => late ev = false) t.

(** The row of index [i] of the table of a report. *)
Definition table_row (user : string) (artists : list (string * Z))
  (songs : list Item) (i : nat) : list event :=
  match nth_error artists i, nth_error songs i with
  | Some artist, Some song =>
      [EvWrite (HtmlFile user) RowOpen;
       EvWrite (HtmlFile user) (ArtistCell (Z.of_nat i + 1) (fst artist));
       EvWrite (HtmlFile user) (SongCell (Z.of_nat i + 1) (item_Name song));
       EvWrite (HtmlFile user) RowClose]
  | _, _ => []
  end.

(** ** The requests of a run *)

(** The requests of lines 151 to 155: for every item, one for every user. *)
Definition userdata_requests (item_data : list Item) (users : list User)
  : list request :=
  flat_map (fun x => map (fun u => ReqUserData (item_Id x) (user_Id u)) users)
           item_data.

(** The server answers [r] with a response that is not [ok]. *)
Definition refused (w : World) (r : request) : Prop :=
  match r with
  | ReqItems => srv_items w = None
  | ReqUsers => srv_users w = None
  | ReqUserData item_id user_id => srv_userdata w item_id user_id = None
  | ReqImage item_id => srv_image w item_id = false
  end.

(** The server has user data of every item for every user. *)
Definition answered (w : World) (item_data : list Item) (users : list User)
  : Prop :=
  forall x u, In x item_data -> In u users ->
    srv_userdata w (item_Id x) (user_Id u) <> None.

(** The calls of [os.mkdir] of lines 134 to 137. *)
Definition mkdirs (w : World) : list event :=
  (if isdir w OutputDir then [] else [EvMkdir OutputDir]) ++
  (if isdir w AssetsDir then [] else [EvMkdir AssetsDir]).

(** The last user of the list with the name [name]. *)
Definition last_named (users : list User) (name : string) : option User :=
  find (fun u => String.eqb (user_Name u) name) (rev users).

(** [x'] is the item [x] of the server after lines 152 to 155: the fields
    of [x], and as [UserData] a dictionary with the names of the users as
    keys, in the order of their first occurrence, each with the server's
    answer for the last user of that name. *)
Definition with_userdata (w : World) (users : list User) (x x' : Item) : Prop :=
  item_Id x' = item_Id x /\
  item_Name x' = item_Name x /\
  item_AlbumArtist x' = item_AlbumArtist x /\
  item_Artists x' = item_Artists x /\
  item_RunTimeTicks x' = item_RunTimeTicks x /\
  dict_keys (item_UserData x') = first_occurrences (map user_Name users) /\
  forall name,
    dict_get (item_UserData x') name =
    match last_named users name with
    | Some u => srv_userdata w (item_Id x) (user_Id u)
    | None => None
    end.

(** The [UserData] dictionary of lines 152 to 155 for the item [x], where
    the server answers. *)
Definition user_data_of (w : World) (users : list User) (x : Item)
  : pydict UserData :=
  fold_left
    (fun d u =>
       match srv_userdata w (item_Id x) (user_Id u) with
       | Some userdata => dict_set d (user_Name u) userdata
       | None => d
       end)
    users [].

Definition enriched (w : World) (users : list User) (x : Item) : Item :=
  {| item_Id := item_Id x;
     item_Name := item_Name x;
     item_AlbumArtist := item_AlbumArtist x;
     item_Artists := item_Artists x;
     item_RunTimeTicks := item_RunTimeTicks x;
     item_UserData := user_data_of w users x |}.

(** The events of lines 134 to 150, before the loop over the items. *)
Definition fetch_head (w : World) (item_data : list Item) (users : list User)
  : list event :=
  mkdirs w ++
  [EvPrint MsgRetrievingItems;
   EvRequest ReqItems;
   EvPrint (MsgItemsRetrieved (List.length item_data));
   EvPrint MsgRetrievingUsers;
   EvRequest ReqUsers;
   EvPrint (MsgUsersFound (List.length users));
   EvJsonDump UsersJson (DumpUsers users);
   EvPrint MsgAddingUserData].

(** The server has user data of [x] for [u]. *)
Definition has_answer (w : World) (x : Item) (u : User) : bool :=
  match srv_userdata w (item_Id x) (user_Id u) with
  | Some _ => true
  | None => false
  end.

(** ** The events of the report stage *)

(** The entries of a user in the recap. *)
Definition songs_of (r : Recap) (user : string) : list Item :=
  match dict_get (most_listened_songs r) user with
  | Some songlist => songlist
  | None => []
  end.

Definition artists_of (r : Recap) (user : string) : list (string * Z) :=
  match dict_get (most_listened_artists r) user with
  | Some artistlist => artistlist
  | None => []
  end.

Definition minutes_of (r : Recap) (user : string) : pynum :=
  match dict_get (minutes_listened r) user with
  | Some minutes => minutes
  | None => PInt 0
  end.

(** The identifier of the first of the user's top songs. *)
Definition first_id (r : Recap) (user : string) : string :=
  match songs_of r user with
  | first :: _ => item_Id first
  | [] => EmptyString
  end.

(** The user has a top song, the server has its image, and the file of
    the image can be opened. *)
Definition has_image (w : World) (r : Recap) (user : string) : bool :=
  match songs_of r user with
  | first :: _ =>
      srv_image w (item_Id first) && can_open w (AssetFile (item_Id first))
  | [] => false
  end.

(** The user has a top song, and [n] top artists and [n] top songs at
    least. *)
Definition ready (n : Z) (r : Recap) (user : string) : bool :=
  match songs_of r user with
  | _ :: _ =>
      (n <=? Z.of_nat (List.length (artists_of r user))) &&
      (n <=? Z.of_nat (List.length (songs_of r user)))
  | [] => false
  end.

(** The three dictionaries of the recap have the same keys. *)
Definition same_keys (r : Recap) : Prop :=
  dict_keys (most_listened_artists r) = dict_keys (most_listened_songs r) /\
  dict_keys (minutes_listened r) = dict_keys (most_listened_songs r).

(** The item has the field [AlbumArtist]. *)
Definition has_album (thing : Item) : bool :=
  match item_AlbumArtist thing with
  | Some _ => true
  | None => false
  end.

Definition album_of (thing : Item) : string :=
  match item_AlbumArtist thing with
  | Some album => album
  | None => EmptyString
  end.

(** Every top song of maf has the field [AlbumArtist]. *)
Definition albums_known (r : Recap) : bool :=
  forallb has_album (songs_of r "maf").

(** The file of the user's report can be opened, and the user has a top
    song and [n] top artists and [n] top songs at least. *)
Definition reportable (w : World) (n : Z) (r : Recap) (user : string) : bool :=
  can_open w (HtmlFile user) && ready n r user.

(** Lines 193 to 195, where every top song of maf has an album artist. *)
Definition debug_events (r : Recap) : list event :=
  [EvPrint (MsgSongsOfMaf
     (map (fun thing => (item_Name thing, album_of thing))
          (songs_of r "maf")));
   EvPrint (MsgArtists (most_listened_artists r));
   EvPrint (MsgMinutes (minutes_listened r))].

(** Line 198 for one user, where the server has the image. *)
Definition image_events (r : Recap) (user : string) : list event :=
  [EvRequest (ReqImage (first_id r user));
   EvSaveImage (AssetFile (first_id r user))].

(** Lines 201 to 270 for one user, with [n] rows. *)
Definition report_events (n : Z) (r : Recap) (user : string) : list event :=
  [EvOpen (HtmlFile user);
   EvWrite (HtmlFile user) HtmlHead;
   EvWrite (HtmlFile user) (ImgTag (first_id r user));
   EvWrite (HtmlFile user) TableHead]
  ++ flat_map (table_row user (artists_of r user) (songs_of r user)) (range n)
  ++ [EvWrite (HtmlFile user) TableClose;
      EvWrite (HtmlFile user) (MinutesLine (minutes_of r user));
      EvWrite (HtmlFile user) HtmlFoot].

(** An event on a report. *)
Definition is_report (ev : event) : bool :=
  match ev with
  | EvOpen _ | EvWrite _ _ => true
  | _ => false
  end.

(** A write on the report of [user]. *)
Definition on_report (user : string) (ev : event) : Prop :=
  exists c, ev = EvWrite (HtmlFile user) c.

(** The three prints of the aggregation. *)
Definition aggregation_events (num_top_songs num_top_artists : Z) : list event :=
  [EvPrint (MsgFindingSongs num_top_songs);
   EvPrint (MsgFindingArtists num_top_artists);
   EvPrint MsgFindingMinutes].

(** [ev] is no image tag, or it is the tag of the first top song of
    [user]. *)
Definition tag_of (r : Recap) (user : string) (ev : event) : Prop :=
  forall p item_id, ev = EvWrite p (ImgTag item_id) -> item_id = first_id r user.

(** ** The lists of a user *)

(** The length of [l[:n]] for a list of length [len]. *)
Definition slice_length (len n : Z) : Z :=
  if n <? 0 then Z.max 0 (len + n) else Z.min n len.

(** The number of distinct artist names of the items. *)
Definition distinct_artists (item_data : list Item) : Z :=
  Z.of_nat (List.length (nodup string_dec (flat_map item_Artists item_data))).

(** The items have the fields [AlbumArtist] and [RunTimeTicks]. *)
Definition well_formed (item_data : list Item) : Prop :=
  forall x, In x item_data ->
    item_AlbumArtist x <> None /\ item_RunTimeTicks x <> None.

(** What the lists of a user need for the report: a top song, and as many
    top songs and top artists as the table has rows. *)
Definition enough (item_data : list Item) (num_top_songs num_top_artists : Z)
  : Prop :=
  1 <= slice_length (Z.of_nat (List.length item_data)) num_top_songs /\
  Z.min num_top_songs num_top_artists
    <= slice_length (Z.of_nat (List.length item_data)) num_top_songs /\
  Z.min num_top_songs num_top_artists
    <= slice_length (distinct_artists item_data) num_top_artists.

(** An item with a positive play count. *)
Definition played (pc : Item -> Z) (x : Item) : bool := 0 <? pc x.

(** ** Numbers *)

(** An [int] that [float()] converts: below [2 ** 1023] in magnitude. *)
Definition convertible (z : Z) : Prop := Z.abs z < 2 ^ 1023.

(** Every item has its ticks, and the ticks of the items and the play
    counts of the answers of the server are convertible. *)
Definition convertible_data (w : World) (item_data : list Item)
  (users : list User) : Prop :=
  (forall x, In x item_data ->
     exists ticks, item_RunTimeTicks x = Some ticks /\ convertible ticks) /\
  (forall x u ud, In x item_data -> In u users ->
     srv_userdata w (item_Id x) (user_Id u) = Some ud ->
     convertible (PlayCount ud)).

(** A float that is no NaN and has its sign bit clear: [0.0], a positive
    float, or [inf]. *)
Definition not_negative (f : float) : Prop :=
  match f with
  | S754_nan => False
  | S754_zero s | S754_infinity s | S754_finite s _ _ => s = false
  end.

Definition not_negative_num (a : pynum) : Prop :=
  match a with
  | PInt z => 0 <= z
  | PFloat f => not_negative f
  end.

(** ** Inputs *)

(** The items of the scenario of the specification: the user data of
    [alice] and [bob], in the order of the users. *)
Definition scenario_item (id name album : string) (artists : list string)
  (ticks alice_plays bob_plays : Z) : Item :=
  {| item_Id := id; item_Name := name; item_AlbumArtist := Some album;
     item_Artists := artists; item_RunTimeTicks := Some ticks;
     item_UserData := [("alice"%string, {| PlayCount := alice_plays |});
                       ("bob"%string, {| PlayCount := bob_plays |})] |}.

Definition alice : User := {| user_Id := "u1"; user_Name := "alice" |}.
Definition bob : User := {| user_Id := "u2"; user_Name := "bob" |}.
Definition maf : User := {| user_Id := "u3"; user_Name := "maf" |}.

Definition song_one : Item := scenario_item "S1" "One" "A" ["A"%string] 120000000 3 0.
Definition song_two : Item := scenario_item "S2" "Two" "B" ["A"; "B"]%string 60000000 1 5.
Definition song_three : Item := scenario_item "S3" "Three" "C" ["C"%string] 180000000 0 2.

Definition scenario_items : list Item := [song_one; song_two; song_three].
Definition scenario_users : list User := [alice; bob].

(** The play counts of the scenario, read from the data. *)
Definition plays_of (user : string) (x : Item) : Z :=
  match dict_get (item_UserData x) user with
  | Some entry => PlayCount entry
  | None => 0
  end.

(** Four items that alice played 2, 5, 2 and 5 times. *)
Definition tied_item (id : string) (plays : Z) : Item :=
  {| item_Id := id; item_Name := id; item_AlbumArtist := Some "A"%string;
     item_Artists := ["A"%string]; item_RunTimeTicks := Some 60000000;
     item_UserData := [("alice"%string, {| PlayCount := plays |})] |}.

Definition tied_items : list Item :=
  [tied_item "T1" 2; tied_item "T2" 5; tied_item "T3" 2; tied_item "T4" 5].

(** An item that names its one artist twice. *)
Definition twice_credited : Item :=
  {| item_Id := "1"; item_Name := "Song"; item_AlbumArtist := Some "A"%string;
     item_Artists := ["A"; "A"]%string; item_RunTimeTicks := Some 60000000;
     item_UserData := [("u"%string, {| PlayCount := 3 |})] |}.

(** An item without an entry for [bob]. *)
Definition unknown_to_bob : Item :=
  {| item_Id := "2"; item_Name := "Song"; item_AlbumArtist := Some "A"%string;
     item_Artists := ["A"%string]; item_RunTimeTicks := Some 60000000;
     item_UserData := [("alice"%string, {| PlayCount := 1 |})] |}.

(** A server without audio items. *)
Definition empty_server : World :=
  {| isdir := fun _ => true; srv_items := Some []; srv_users := Some [maf];
     srv_userdata := fun _ _ => None; srv_image := fun _ => true;
     can_open := fun _ => true |}.

Definition one_song : Item :=
  {| item_Id := "i1"; item_Name := "Song"; item_AlbumArtist := Some "A"%string;
     item_Artists := ["A"%string]; item_RunTimeTicks := Some 60000000;
     item_UserData := [] |}.

(** A server with one song of one artist, played once. *)
Definition one_song_server : World :=
  {| isdir := fun _ => true; srv_items := Some [one_song]; srv_users := Some [maf];
     srv_userdata := fun _ _ => Some {| PlayCount := 1 |};
     srv_image := fun _ => true;
     can_open := fun _ => true |}.

(** A recap in which maf has one top song and one top artist. *)
Definition one_song_recap : Recap :=
  {| most_listened_songs := [("maf"%string, [one_song])];
     most_listened_artists := [("maf"%string, [("A"%string, 1)])];
     minutes_listened := [("maf"%string, PInt 0)] |}.

(** A server whose only user is [alice]. *)
Definition server_of_alice : World :=
  {| isdir := fun _ => true; srv_items := Some [one_song]; srv_users := Some [alice];
     srv_userdata := fun _ _ => Some {| PlayCount := 1 |};
     srv_image := fun _ => true;
     can_open := fun _ => true |}.

(** A server that refuses the request for the users. *)
Definition server_without_users : World :=
  {| isdir := fun _ => false; srv_items := Some [one_song]; srv_users := None;
     srv_userdata := fun _ _ => None; srv_image := fun _ => true;
     can_open := fun _ => true |}.

(** The song of [one_song_server] after the requests. *)
Definition one_song_fetched : Item :=
  {| item_Id := "i1"; item_Name := "Song"; item_AlbumArtist := Some "A"%string;
     item_Artists := ["A"%string]; item_RunTimeTicks := Some 60000000;
     item_UserData := [("maf"%string, {| PlayCount := 1 |})] |}.

(** The recap of a completed aggregation. *)
Definition recap_or_empty (res : result Recap) : Recap :=
  match res with
  | OK r => r
  | Raise _ =>
      {| most_listened_songs := []; most_listened_artists := [];
         minutes_listened := [] |}
  end.

(** ** The store *)

Module StoreLogic.
Import Store.

(** [c], started with at least [n] objects and with [P], changes none of
    the first [n] objects, removes none, and ends with [Q] where it
    returns. *)
Definition hoare {A} (n : nat) (P : store -> Prop) (c : M A)
  (Q : A -> store -> Prop) : Prop :=
  forall s, (n <= List.length s)%nat -> P s ->
    (List.length s <= List.length (snd (c s)))%nat /\
    (forall l, (l < n)%nat -> nth_error (snd (c s)) l = nth_error s l) /\
    (forall a, fst (c s) = OK a -> Q a (snd (c s))).

Definition cell (l : ref) (o : object) (s : store) : Prop :=
  nth_error s l = Some o.

(** The dictionary of a stage. *)
Definition dict_at (by_user : ref) (d : pydict ref) : store -> Prop :=
  cell by_user (ObjByUser d).

(** References to new objects, all different. *)
Definition fresh_values (n hi : nat) (d : pydict ref) : Prop :=
  NoDup (map snd d) /\ forall l, In l (map snd d) -> (n <= l < hi)%nat.

(** A computation that leaves the store as it is. *)
Definition readonly {A} (c : M A) : Prop := forall s, snd (c s) = s.

(** The recap that three dictionaries of the store stand for: every
    reference followed to its object. *)
Fixpoint all_some {A} (l : list (option A)) : option (list A) :=
  match l with
  | [] => Some []
  | Some x :: l' => option_map (cons x) (all_some l')
  | None :: _ => None
  end.

Definition item_of (s : store) (v : value) : option Item :=
  match v with
  | VRef l => match nth_error s l with Some (ObjItem x) => Some x | _ => None end
  | VPair _ _ => None
  end.

Definition pair_of (v : value) : option (string * Z) :=
  match v with
  | VPair a total => Some (a, total)
  | VRef _ => None
  end.

Definition list_of {A} (s : store) (elem : value -> option A) (l : ref)
  : option (list A) :=
  match nth_error s l with
  | Some (ObjList xs) => all_some (map elem xs)
  | _ => None
  end.

Definition by_user_of {A} (s : store) (elem : value -> option A) (l : ref)
  : option (pydict (list A)) :=
  match nth_error s l with
  | Some (ObjByUser d) =>
      all_some (map (fun kv => option_map (pair (fst kv)) (list_of s elem (snd kv))) d)
  | _ => None
  end.

Definition recap_of (s : store) (out : ref * ref * ref) : option Recap :=
  let '(songs, artists, minutes) := out in
  match by_user_of s (item_of s) songs, by_user_of s pair_of artists,
        nth_error s minutes with
  | Some by_songs, Some by_artists, Some (ObjMinutes m) =>
      Some {| most_listened_songs := by_songs;
              most_listened_artists := by_artists;
              minutes_listened := m |}
  | _, _, _ => None
  end.

(** The scenario as a store: the items, their list (reference 3), the
    users, their list (reference 6). *)
Definition scenario_store : store :=
  [ObjItem song_one; ObjItem song_two; ObjItem song_three;
   ObjList [VRef 0%nat; VRef 1%nat; VRef 2%nat];
   ObjUser alice; ObjUser bob;
   ObjList [VRef 4%nat; VRef 5%nat]].

End StoreLogic.

(** * Properties *)

(** ** Results *)

Lemma map_result_total {A B} (f : A -> result B) (g : A -> B) (xs : list A) :
  (forall x, In x xs -> f x = OK (g x)) -> map_result f xs = OK (map g xs).
Proof.
  induction xs as [|x xs IH]; simpl; intros H; [reflexivity|].
  rewrite (H x) by auto. simpl. rewrite IH by auto. reflexivity.
Qed.

Lemma map_result_raise {A B} (f : A -> result B) (xs : list A) (x : A) (e : exn) :
  In x xs -> f x = Raise e -> exists e', map_result f xs = Raise e'.
Proof.
  induction xs as [|y xs IH]; simpl; [tauto|].
  intros [->|Hin] Hx.
  - rewrite Hx. simpl. eauto.
  - destruct (f y); simpl; [|eauto].
    destruct (IH Hin Hx) as [e' ->]. simpl. eauto.
Qed.

(** ** Dictionaries *)

Section DictFacts.
Context {V : Type}.
Implicit Types (d : pydict V) (k : string) (v : V).

Lemma dict_get_set_same d k v : dict_get (dict_set d k v) k = Some v.
Proof.
  induction d as [|[k' v'] d IH]; simpl.
  - now rewrite String.eqb_refl.
  - destruct (String.eqb k' k) eqn:E; simpl; rewrite E; auto.
Qed.

Lemma dict_get_set_other d k k' v :
  k <> k' -> dict_get (dict_set d k v) k' = dict_get d k'.
Proof.
  intros Hne. induction d as [|[k0 v0] d IH]; simpl.
  - destruct (String.eqb k k') eqn:E; [apply String.eqb_eq in E; tauto | reflexivity].
  - destruct (String.eqb k0 k) eqn:E; simpl.
    + apply String.eqb_eq in E. subst k0.
      destruct (String.eqb k k') eqn:E'; [apply String.eqb_eq in E'; tauto | reflexivity].
    + now rewrite IH.
Qed.

Lemma dict_get_In d k : dict_get d k <> None <-> In k (dict_keys d).
Proof.
  induction d as [|[k' v'] d IH]; simpl; [tauto|].
  destruct (String.eqb k' k) eqn:E.
  - apply String.eqb_eq in E. split; [auto | discriminate].
  - apply String.eqb_neq in E. rewrite IH. tauto.
Qed.

Lemma dict_get_Some_In d k v : dict_get d k = Some v -> In k (dict_keys d).
Proof. intros H. apply dict_get_In. congruence. Qed.

Lemma dict_keys_set_old d k v :
  In k (dict_keys d) -> dict_keys (dict_set d k v) = dict_keys d.
Proof.
  induction d as [|[k' v'] d IH]; simpl; [tauto|].
  destruct (String.eqb k' k) eqn:E; simpl; [reflexivity|].
  apply String.eqb_neq in E. intros [?|Hin]; [tauto|]. now rewrite IH.
Qed.

Lemma dict_keys_set_new d k v :
  ~ In k (dict_keys d) -> dict_keys (dict_set d k v) = dict_keys d ++ [k].
Proof.
  induction d as [|[k' v'] d IH]; simpl; [reflexivity|].
  intros Hn. destruct (String.eqb k' k) eqn:E; simpl.
  - apply String.eqb_eq in E. tauto.
  - rewrite IH by tauto. reflexivity.
Qed.

Lemma dict_set_same d k v : dict_get d k = Some v -> dict_set d k v = d.
Proof.
  induction d as [|[k' v'] d IH]; simpl; [discriminate|].
  destruct (String.eqb k' k) eqn:E; [congruence|].
  intros H. now rewrite IH.
Qed.

Lemma dict_set_set d k v v' : dict_set (dict_set d k v) k v' = dict_set d k v'.
Proof.
  induction d as [|[k0 v0] d IH]; simpl.
  - now rewrite String.eqb_refl.
  - destruct (String.eqb k0 k) eqn:E; simpl; rewrite E; [reflexivity | now rewrite IH].
Qed.

Lemma dict_getitem_OK d k v : dict_get d k = Some v -> dict_getitem d k = OK v.
Proof. unfold dict_getitem. now intros ->. Qed.

Lemma dict_getitem_missing d k : dict_get d k = None -> dict_getitem d k = Raise (KeyError k).
Proof. unfold dict_getitem. now intros ->. Qed.
End DictFacts.

(** The keys of a dictionary comprehension: every key of the input, once. *)
Section DictComp.
Context {A V : Type}.
Variables (key : A -> string) (c : V).

Lemma dict_comp_const_inv (xs : list A) (d : pydict V) :
  NoDup (dict_keys d) ->
  (forall k v, dict_get d k = Some v -> v = c) ->
  let d' := fold_left (fun d x => dict_set d (key x) c) xs d in
  NoDup (dict_keys d') /\
  (forall k v, dict_get d' k = Some v -> v = c) /\
  (forall k, In k (dict_keys d') <-> In k (dict_keys d) \/ In k (map key xs)).
Proof.
  revert d. induction xs as [|x xs IH]; intros d Hnd Hc; simpl.
  - repeat split; auto; tauto.
  - assert (Hnd' : NoDup (dict_keys (dict_set d (key x) c))).
    { destruct (in_dec string_dec (key x) (dict_keys d)) as [Hin|Hin].
      - now rewrite dict_keys_set_old.
      - rewrite dict_keys_set_new by assumption.
        apply NoDup_app; [assumption | repeat constructor; simpl; tauto |].
        intros k Hk [<-|[]]. tauto. }
    assert (Hc' : forall k v, dict_get (dict_set d (key x) c) k = Some v -> v = c).
    { intros k v. destruct (string_dec (key x) k) as [<-|Hne].
      - rewrite dict_get_set_same. congruence.
      - rewrite dict_get_set_other by assumption. apply Hc. }
    destruct (IH _ Hnd' Hc') as (H1 & H2 & H3).
    repeat split; auto.
    + intros Hk. apply H3 in Hk. destruct Hk as [Hk|Hk]; [|tauto].
      destruct (in_dec string_dec (key x) (dict_keys d)) as [Hin|Hin].
      * rewrite dict_keys_set_old in Hk by assumption. tauto.
      * rewrite dict_keys_set_new in Hk by assumption.
        apply in_app_or in Hk. simpl in Hk. tauto.
    + intros Hk. apply H3.
      destruct (in_dec string_dec (key x) (dict_keys d)) as [Hin|Hin].
      * rewrite dict_keys_set_old by assumption.
        destruct Hk as [Hk|[<-|Hk]]; auto.
      * rewrite dict_keys_set_new by assumption. rewrite in_app_iff. simpl. tauto.
Qed.

Lemma dict_comp_const (xs : list A) :
  let d := dict_comp key (fun _ => c) xs in
  NoDup (dict_keys d) /\
  (forall k, In k (dict_keys d) <-> In k (map key xs)) /\
  (forall k, In k (map key xs) -> dict_get d k = Some c).
Proof.
  destruct (dict_comp_const_inv xs []) as (H1 & H2 & H3); simpl.
  - constructor.
  - discriminate.
  - split; [exact H1|]. split.
    + intros k. rewrite (H3 k). simpl. tauto.
    + intros k Hk. assert (Hin : In k (dict_keys (dict_comp key (fun _ => c) xs))).
      { apply H3. auto. }
      apply dict_get_In in Hin.
      destruct (dict_get (dict_comp key (fun _ => c) xs) k) as [v|] eqn:E; [|tauto].
      now rewrite (H2 _ _ E).
Qed.
End DictComp.

(** ** Sorting *)

Section SortFacts.
Context {A : Type}.
Implicit Types (l : list (Z * A)) (x : A).

Lemma insert_desc_perm kx x l : Permutation ((kx, x) :: l) (insert_desc kx x l).
Proof.
  induction l as [|[ky y] l IH]; simpl; [reflexivity|].
  destruct (ky <=? kx); [reflexivity|].
  rewrite perm_swap. now apply perm_skip.
Qed.

Lemma sort_desc_perm l : Permutation l (sort_desc l).
Proof.
  induction l as [|[kx x] l IH]; simpl; [reflexivity|].
  rewrite <- insert_desc_perm. now apply perm_skip.
Qed.

Lemma insert_desc_sorted kx x l :
  StronglySorted ge_fst l -> StronglySorted ge_fst (insert_desc kx x l).
Proof.
  induction l as [|[ky y] l IH]; simpl; intros Hs.
  - repeat constructor.
  - inversion Hs as [|? ? Hs' Hall]; subst.
    destruct (ky <=? kx) eqn:E.
    + apply Z.leb_le in E. constructor; [assumption|].
      constructor; [exact E|].
      eapply Forall_impl; [|exact Hall].
      intros [kz z]. unfold ge_fst. simpl. lia.
    + apply Z.leb_gt in E. constructor; [auto|].
      eapply Permutation_Forall; [apply insert_desc_perm|].
      constructor; [unfold ge_fst; simpl; lia | assumption].
Qed.

Lemma sort_desc_sorted l : StronglySorted ge_fst (sort_desc l).
Proof.
  induction l as [|[kx x] l IH]; simpl; [constructor|].
  now apply insert_desc_sorted.
Qed.

(** The insertion passes only elements of a greater key: among the
    elements of its own key the new one comes first. *)
Lemma insert_desc_filter k kx x l :
  filter (fun p => fst p =? k) (insert_desc kx x l) =
  filter (fun p => fst p =? k) ((kx, x) :: l).
Proof.
  induction l as [|[ky y] l IH]; [reflexivity|].
  cbn [insert_desc]. destruct (ky <=? kx) eqn:E; [reflexivity|].
  apply Z.leb_gt in E. cbn [filter fst] in *. rewrite IH.
  destruct (kx =? k) eqn:Ex; [|reflexivity].
  apply Z.eqb_eq in Ex. subst k.
  destruct (ky =? kx) eqn:Ey; [apply Z.eqb_eq in Ey; lia | reflexivity].
Qed.

Lemma sort_desc_filter k l :
  filter (fun p => fst p =? k) (sort_desc l) = filter (fun p => fst p =? k) l.
Proof.
  induction l as [|[kx x] l IH]; [reflexivity|].
  cbn [sort_desc fold_right fst snd]. rewrite insert_desc_filter.
  cbn [filter]. fold (sort_desc l). now rewrite IH.
Qed.

Variable key : A -> Z.

Lemma decorated_combine (xs : list A) : decorated key (combine (map key xs) xs).
Proof. unfold decorated. induction xs; simpl; constructor; auto. Qed.

Lemma snd_combine (xs : list A) : map snd (combine (map key xs) xs) = xs.
Proof. induction xs; simpl; congruence. Qed.

Lemma decorated_filter k l :
  decorated key l ->
  filter (fun a => key a =? k) (map snd l) = map snd (filter (fun p => fst p =? k) l).
Proof.
  induction 1 as [|[kx x] l Hx _ IH]; [reflexivity|].
  simpl in *. subst kx. rewrite IH. now destruct (key x =? k).
Qed.

Lemma decorated_sorted l :
  decorated key l -> StronglySorted ge_fst l ->
  StronglySorted (fun a b => key b <= key a) (map snd l).
Proof.
  intros Hd Hs. induction Hs as [|[kx x] l Hs IH Hall]; simpl; [constructor|].
  inversion Hd as [|? ? Hx Hd']; subst. simpl in Hx. subst kx.
  constructor; [auto|].
  apply Forall_map. rewrite Forall_forall in *.
  intros [ky y] Hin. specialize (Hall _ Hin). specialize (Hd' _ Hin).
  unfold ge_fst in Hall. simpl in *. lia.
Qed.

(** [sorted(xs, key=..., reverse=True)] where every key is defined. *)
Lemma sorted_reverse_total (f : A -> result Z) (xs : list A) :
  (forall x, In x xs -> f x = OK (key x)) ->
  exists ys, sorted_reverse f xs = OK ys /\ stable_sorted_desc key xs ys.
Proof.
  intros Hf. unfold sorted_reverse.
  rewrite (map_result_total f key xs Hf). simpl.
  eexists. split; [reflexivity|].
  set (l := combine (map key xs) xs).
  assert (Hd : decorated key (sort_desc l)).
  { eapply Permutation_Forall; [apply sort_desc_perm | apply decorated_combine]. }
  split; [|split].
  - rewrite <- (snd_combine xs) at 1. apply Permutation_map, sort_desc_perm.
  - apply decorated_sorted; [exact Hd | apply sort_desc_sorted].
  - intros k. rewrite decorated_filter by exact Hd.
    rewrite sort_desc_filter.
    rewrite <- decorated_filter by apply decorated_combine.
    unfold l. now rewrite snd_combine.
Qed.

(** A key that raises makes [sorted] raise, whatever the other keys. *)
Lemma sorted_reverse_raise (f : A -> result Z) (xs : list A) (x : A) (e : exn) :
  In x xs -> f x = Raise e -> exists e', sorted_reverse f xs = Raise e'.
Proof.
  intros Hin Hx. unfold sorted_reverse.
  destruct (map_result_raise f xs x e Hin Hx) as [e' ->]. simpl. eauto.
Qed.

(** The ranking is determined by the three conditions. *)
Lemma stable_sorted_desc_unique (xs ys ys' : list A) :
  stable_sorted_desc key xs ys -> stable_sorted_desc key xs ys' -> ys = ys'.
Proof.
  intros (_ & Hs & Hf) (_ & Hs' & Hf').
  assert (H : forall k, filter (fun a => key a =? k) ys = filter (fun a => key a =? k) ys').
  { intros k. now rewrite Hf, Hf'. }
  clear Hf Hf' xs. revert ys' Hs' H.
  induction Hs as [|y ys Hs IH Hall]; intros ys' Hs' H.
  - destruct ys' as [|y' ys']; [reflexivity|].
    specialize (H (key y')). simpl in H. rewrite Z.eqb_refl in H. discriminate.
  - destruct Hs' as [|y' ys' Hs' Hall'].
    + specialize (H (key y)). simpl in H. rewrite Z.eqb_refl in H. discriminate.
    + assert (Hk : key y = key y').
      { assert (H1 : key y <= key y').
        { assert (Hin : In y (filter (fun a => key a =? key y) (y' :: ys'))).
          { rewrite <- H. simpl. rewrite Z.eqb_refl. now left. }
          apply filter_In in Hin. destruct Hin as [[<-|Hin] _]; [lia|].
          rewrite Forall_forall in Hall'. now apply Hall'. }
        assert (H2 : key y' <= key y).
        { assert (Hin : In y' (filter (fun a => key a =? key y') (y :: ys))).
          { rewrite H. simpl. rewrite Z.eqb_refl. now left. }
          apply filter_In in Hin. destruct Hin as [[<-|Hin] _]; [lia|].
          rewrite Forall_forall in Hall. now apply Hall. }
        lia. }
      assert (Hy : y = y').
      { specialize (H (key y)). simpl in H. rewrite <- Hk in H.
        rewrite Z.eqb_refl in H. congruence. }
      subst y'. f_equal. apply IH; [assumption|].
      intros k. specialize (H k). simpl in H.
      destruct (key y =? k); congruence.
Qed.
End SortFacts.

(** ** Slices *)

Lemma slice_to_nonneg {A} (l : list A) (n : Z) :
  0 <= n -> slice_to l n = firstn (Z.to_nat n) l.
Proof.
  intros Hn. unfold slice_to.
  destruct (n <? 0) eqn:E; [apply Z.ltb_lt in E; lia | reflexivity].
Qed.

Lemma map_result_raise_inv {A B} (f : A -> result B) (xs : list A) (e : exn) :
  map_result f xs = Raise e -> exists x, In x xs /\ f x = Raise e.
Proof.
  induction xs as [|x xs IH]; simpl; [discriminate|].
  destruct (f x) as [y|e'] eqn:E; simpl.
  - destruct (map_result f xs); simpl; [discriminate|].
    intros H. destruct (IH H) as (x' & Hin & Hx'). eauto.
  - intros [= ->]. eauto.
Qed.

(** ** Loops over the keys of a dictionary *)

Section LocalLoop.
Context {V : Type}.
Variable body : string -> pydict V -> result (pydict V).
Variable f : string -> V -> result V.
Hypothesis body_local : local_update body f.

Lemma for_each_local (ks : list string) :
  forall d, NoDup ks -> (forall k, In k ks -> In k (dict_keys d)) ->
  match for_each ks body d with
  | OK d' =>
      dict_keys d' = dict_keys d /\
      (forall k, ~ In k ks -> dict_get d' k = dict_get d k) /\
      (forall k v, In k ks -> dict_get d k = Some v ->
         exists v', f k v = OK v' /\ dict_get d' k = Some v')
  | Raise e => exists k v, In k ks /\ dict_get d k = Some v /\ f k v = Raise e
  end.
Proof.
  induction ks as [|k ks IH]; intros d Hnd Hin; simpl.
  - repeat split; auto. intros k v [].
  - inversion Hnd as [|? ? Hk Hnd']; subst.
    assert (Hkd : In k (dict_keys d)) by (apply Hin; now left).
    apply dict_get_In in Hkd.
    destruct (dict_get d k) as [v|] eqn:Ev; [clear Hkd | tauto].
    rewrite (body_local k d v Ev).
    destruct (f k v) as [v'|e] eqn:Ef; simpl.
    + assert (Hkeys : dict_keys (dict_set d k v') = dict_keys d).
      { apply dict_keys_set_old. eapply dict_get_Some_In; eauto. }
      specialize (IH (dict_set d k v') Hnd').
      destruct (for_each ks body (dict_set d k v')) as [d'|e].
      * destruct IH as (H1 & H2 & H3).
        { intros k0 Hk0. rewrite Hkeys. apply Hin. now right. }
        split; [congruence|]. split.
        -- intros k0 Hk0. rewrite H2 by tauto.
           apply dict_get_set_other. intros ->. tauto.
        -- intros k0 v0 [<-|Hk0] Hv0.
           ++ exists v'. split; [congruence|].
              rewrite H2 by assumption. apply dict_get_set_same.
           ++ apply H3; [assumption|].
              rewrite dict_get_set_other; [assumption|]. intros ->. tauto.
      * destruct IH as (k0 & v0 & Hk0 & Hv0 & Hf0).
        { intros k0 Hk0. rewrite Hkeys. apply Hin. now right. }
        exists k0, v0. repeat split; auto.
        rewrite dict_get_set_other in Hv0; [assumption|]. intros ->. tauto.
    + exists k, v. auto.
Qed.
End LocalLoop.

(** ** The key of the ranking *)

(** The key of line 171 is the [PlayCount] of the user's entry. *)
Lemma counts_play_count (user : string) (item_data : list Item) (pc : Item -> Z) :
  counts user item_data pc ->
  forall x, In x item_data -> play_count user x = OK (pc x).
Proof.
  intros H x Hx. destruct (H x Hx) as (entry & Hget & <-).
  unfold play_count, dict_getitem. now rewrite Hget.
Qed.

Lemma play_count_counts (user : string) (item_data : list Item) (pc : Item -> Z) :
  (forall x, In x item_data -> play_count user x = OK (pc x)) ->
  counts user item_data pc.
Proof.
  intros H x Hx. specialize (H x Hx). unfold play_count, dict_getitem in H.
  destruct (dict_get (item_UserData x) user) as [entry|]; [|discriminate].
  exists entry. split; [reflexivity|]. simpl in H. congruence.
Qed.

(** ** Top songs *)

Section TopSongs.
Variable item_data : list Item.
Variable users : list User.
Variable num_top_songs : Z.

Lemma songs_step_local :
  local_update (songs_step item_data num_top_songs)
    (fun user songlist => top <- top_songs item_data num_top_songs user ;; OK (songlist ++ top)).
Proof.
  intros k d v Hv. unfold songs_step.
  rewrite (dict_getitem_OK _ _ _ Hv). simpl.
  destruct (top_songs item_data num_top_songs k); reflexivity.
Qed.

(** The outcome of the loop of line 170. *)
Lemma find_most_listened_songs_spec :
  match find_most_listened_songs item_data users num_top_songs with
  | OK songs =>
      forall u, In u users ->
        exists top, top_songs item_data num_top_songs (user_Name u) = OK top /\
                    dict_get songs (user_Name u) = Some top
  | Raise e =>
      exists u, In u users /\ top_songs item_data num_top_songs (user_Name u) = Raise e
  end.
Proof.
  unfold find_most_listened_songs.
  destruct (dict_comp_const user_Name (@nil Item) users) as (Hnd & Hkeys & Hget).
  set (songs0 := dict_comp user_Name (fun _ => []) users) in *.
  pose proof (for_each_local _ _ songs_step_local (dict_keys songs0) songs0 Hnd
                (fun k H => H)) as H.
  destruct (for_each (dict_keys songs0) (songs_step item_data num_top_songs) songs0)
    as [songs|e].
  - destruct H as (_ & _ & H). intros u Hu.
    assert (Hin : In (user_Name u) (map user_Name users)) by now apply in_map.
    destruct (H (user_Name u) [] (proj2 (Hkeys _) Hin) (Hget _ Hin)) as (v' & Hv' & Hg).
    destruct (top_songs item_data num_top_songs (user_Name u)) as [top|]; simpl in Hv'; [|discriminate].
    exists top. split; [reflexivity|]. congruence.
  - destruct H as (k & v & Hk & _ & Hf).
    apply Hkeys in Hk. apply in_map_iff in Hk. destruct Hk as (u & <- & Hu).
    exists u. split; [assumption|].
    destruct (top_songs item_data num_top_songs (user_Name u)); simpl in Hf; [discriminate | assumption].
Qed.

Lemma top_songs_total (user : string) (pc : Item -> Z) :
  (forall x, In x item_data -> play_count user x = OK (pc x)) ->
  exists sorted, stable_sorted_desc pc item_data sorted /\
                 top_songs item_data num_top_songs user = OK (slice_to sorted num_top_songs).
Proof.
  intros Hpc. unfold top_songs.
  destruct (sorted_reverse_total pc (play_count user) item_data Hpc) as (ys & -> & Hys).
  exists ys. split; [assumption | reflexivity].
Qed.

(** A missing entry is a [KeyError], the only exception of [top_songs]. *)
Lemma play_count_raise (user : string) (x : Item) (e : exn) :
  play_count user x = Raise e ->
  e = KeyError user /\ dict_get (item_UserData x) user = None.
Proof.
  unfold play_count, dict_getitem.
  destruct (dict_get (item_UserData x) user); simpl; [discriminate|].
  intros [= <-]. auto.
Qed.

Lemma play_count_missing (user : string) (x : Item) :
  dict_get (item_UserData x) user = None ->
  play_count user x = Raise (KeyError user).
Proof. unfold play_count, dict_getitem. now intros ->. Qed.

Lemma top_songs_raise (user : string) (e : exn) :
  top_songs item_data num_top_songs user = Raise e ->
  e = KeyError user /\
  exists x, In x item_data /\ dict_get (item_UserData x) user = None.
Proof.
  unfold top_songs, sorted_reverse. intros H.
  destruct (map_result (play_count user) item_data) as [ks|e'] eqn:E; simpl in H;
    [discriminate|].
  injection H as ->.
  apply map_result_raise_inv in E. destruct E as (x & Hin & Hx).
  apply play_count_raise in Hx. destruct Hx as [-> Hx]. eauto.
Qed.

Lemma top_songs_missing (user : string) (x : Item) :
  In x item_data -> dict_get (item_UserData x) user = None ->
  exists e, top_songs item_data num_top_songs user = Raise e.
Proof.
  intros Hin Hx. unfold top_songs.
  destruct (sorted_reverse_raise (play_count user) item_data x _ Hin
              (play_count_missing user x Hx)) as [e ->].
  simpl. eauto.
Qed.
End TopSongs.

(** C1. For a user of the list and items that all have a play-count entry
    for that user ([counts]: the [UserData] of every item has an entry for
    the user, and [pc x] is the [PlayCount] of that entry), the user's top
    songs are the first [num_top_songs] elements of [sorted], the ranking of
    [item_data] by that user's play count: the same items in non-increasing
    order of play count, items of equal play count in their order in
    [item_data] ([stable_sorted_desc]).  This is the value of line 171 for
    the user, and the user's entry of [most_listened_songs] whenever the
    loop of line 170 completes; it completes where every user has an entry
    in every item. *)
Theorem top_songs_stable_sort :
  forall (item_data : list Item) (users : list User) (num_top_songs : Z)
         (u : User) (pc : Item -> Z),
    In u users -> 0 <= num_top_songs ->
    counts (user_Name u) item_data pc ->
    exists sorted,
      stable_sorted_desc pc item_data sorted /\
      (forall ys, stable_sorted_desc pc item_data ys -> ys = sorted) /\
      top_songs item_data num_top_songs (user_Name u)
        = OK (firstn (Z.to_nat num_top_songs) sorted) /\
      (forall songs,
         find_most_listened_songs item_data users num_top_songs = OK songs ->
         dict_get songs (user_Name u) = Some (firstn (Z.to_nat num_top_songs) sorted)) /\
      ((forall u', In u' users -> exists pc', counts (user_Name u') item_data pc') ->
       exists songs,
         find_most_listened_songs item_data users num_top_songs = OK songs).
Proof.
  intros item_data users n u pc Hu Hn Hpc.
  destruct (top_songs_total item_data n (user_Name u) pc
              (counts_play_count _ _ _ Hpc)) as (sorted & Hs & Ht).
  rewrite slice_to_nonneg in Ht by assumption.
  exists sorted. split; [assumption|].
  split; [intros ys Hys; exact (stable_sorted_desc_unique pc _ _ _ Hys Hs)|].
  split; [assumption|].
  pose proof (find_most_listened_songs_spec item_data users n) as H.
  split.
  - intros songs E. rewrite E in H. destruct (H u Hu) as (top & Htop & Hg).
    congruence.
  - intros Hall. destruct (find_most_listened_songs item_data users n) as [songs|e].
    + eauto.
    + destruct H as (u' & Hu' & Hf). destruct (Hall u' Hu') as [pc' Hpc'].
      destruct (top_songs_total item_data n (user_Name u') pc'
                  (counts_play_count _ _ _ Hpc')) as (? & _ & Ht').
      congruence.
Qed.

(** ** Top artists *)

Section Bake.
Variable user : string.
Variable pc : Item -> Z.

Lemma credit_counts (item : Item) (a : string) (d : pydict Z) :
  play_count user item = OK (pc item) ->
  credit user item a d = OK (accumulate [(a, pc item)] d).
Proof.
  intros Hpc. unfold credit, accumulate. rewrite Hpc. simpl.
  destruct (dict_get d a); reflexivity.
Qed.

Lemma accumulate_app (cs cs' : list (string * Z)) (d : pydict Z) :
  accumulate (cs ++ cs') d = accumulate cs' (accumulate cs d).
Proof. apply fold_left_app. Qed.

Lemma credit_loop (item : Item) (names : list string) (d : pydict Z) :
  (names <> [] -> play_count user item = OK (pc item)) ->
  for_each names (credit user item) d
  = OK (accumulate (map (fun a => (a, pc item)) names) d).
Proof.
  revert d. induction names as [|a names IH]; intros d Hpc; [reflexivity|].
  assert (H : play_count user item = OK (pc item)) by (apply Hpc; discriminate).
  cbn [for_each map]. rewrite (credit_counts item a d H). cbn [bind].
  rewrite IH by auto. reflexivity.
Qed.

Lemma bake_loop (item_data : list Item) (d : pydict Z) :
  counts user item_data pc ->
  for_each item_data
    (fun item artists => for_each (item_Artists item) (credit user item) artists) d
  = OK (accumulate (credits pc item_data) d).
Proof.
  revert d. induction item_data as [|x xs IH]; intros d Hpc; [reflexivity|].
  cbn [for_each].
  rewrite credit_loop
    by (intros _; apply (counts_play_count _ _ _ Hpc); now left).
  cbn [bind]. rewrite IH by (intros y Hy; apply Hpc; now right).
  unfold credits. cbn [flat_map]. now rewrite accumulate_app.
Qed.

Lemma bake_counts (item_data : list Item) :
  counts user item_data pc ->
  bake item_data user = OK (accumulate (credits pc item_data) []).
Proof. apply bake_loop. Qed.
End Bake.

Lemma accumulate_get (cs : list (string * Z)) :
  forall (d : pydict Z) (a : string),
    dict_get (accumulate cs d) a =
    match dict_get d a with
    | Some v => Some (v + sum_for a cs)
    | None =>
        if existsb (fun c => String.eqb (fst c) a) cs
        then Some (sum_for a cs) else None
    end.
Proof.
  induction cs as [|[b p] cs IH]; intros d a.
  - unfold sum_for. simpl. destruct (dict_get d a); [f_equal; lia | reflexivity].
  - unfold accumulate in *. cbn [fold_left fst snd]. rewrite IH.
    unfold sum_for. cbn [filter existsb fst snd].
    destruct (String.eqb b a) eqn:E.
    + apply String.eqb_eq in E. subst b. rewrite dict_get_set_same.
      cbn [map sum fold_right snd orb].
      destruct (dict_get d a); f_equal; unfold sum; lia.
    + apply String.eqb_neq in E. rewrite dict_get_set_other by assumption.
      reflexivity.
Qed.

Lemma filter_filter {A} (p q : A -> bool) (l : list A) :
  filter p (filter q l) = filter (fun x => p x && q x) l.
Proof.
  induction l as [|x l IH]; simpl; [reflexivity|].
  destruct (q x); simpl; rewrite ?andb_true_r, ?andb_false_r; [|assumption].
  destruct (p x); now rewrite IH.
Qed.

Lemma fresh_false ks b : In b ks -> fresh ks b = false.
Proof.
  intros H. unfold fresh. apply negb_false_iff, existsb_exists.
  exists b. split; [assumption | apply String.eqb_refl].
Qed.

Lemma fresh_true ks b : ~ In b ks -> fresh ks b = true.
Proof.
  intros H. unfold fresh. apply negb_true_iff.
  destruct (existsb (String.eqb b) ks) eqn:E; [|reflexivity].
  apply existsb_exists in E. destruct E as (c & Hc & Hbc).
  apply String.eqb_eq in Hbc. subst c. tauto.
Qed.

Lemma accumulate_keys (cs : list (string * Z)) :
  forall d : pydict Z,
    dict_keys (accumulate cs d) =
    dict_keys d ++ filter (fresh (dict_keys d)) (first_occurrences (map fst cs)).
Proof.
  induction cs as [|[b p] cs IH]; intros d.
  - simpl. now rewrite app_nil_r.
  - unfold accumulate in *. cbn [fold_left fst snd map first_occurrences filter].
    rewrite IH. rewrite filter_filter.
    destruct (in_dec string_dec b (dict_keys d)) as [Hb|Hb].
    + rewrite dict_keys_set_old by assumption.
      rewrite (fresh_false _ _ Hb). f_equal.
      apply filter_ext. intros c.
      destruct (String.eqb b c) eqn:E; simpl; [|now rewrite andb_true_r].
      apply String.eqb_eq in E. subst c. now rewrite (fresh_false _ _ Hb).
    + rewrite dict_keys_set_new by assumption.
      rewrite (fresh_true _ _ Hb). rewrite <- app_assoc. simpl. do 2 f_equal.
      apply filter_ext. intros c. unfold fresh. rewrite existsb_app. simpl.
      rewrite orb_false_r, negb_orb. f_equal. f_equal. apply String.eqb_sym.
Qed.

Lemma first_occurrences_In (l : list string) (a : string) :
  In a (first_occurrences l) <-> In a l.
Proof.
  induction l as [|b l IH]; simpl; [tauto|].
  rewrite filter_In, IH. destruct (string_dec b a) as [->|Hne].
  - tauto.
  - apply String.eqb_neq in Hne. rewrite Hne. simpl. tauto.
Qed.

Lemma first_occurrences_NoDup (l : list string) : NoDup (first_occurrences l).
Proof.
  induction l as [|b l IH]; simpl; constructor.
  - rewrite filter_In, String.eqb_refl. simpl. intros [_ H]. discriminate.
  - now apply NoDup_filter.
Qed.

Lemma first_occurrences_length (l : list string) :
  List.length (first_occurrences l) = List.length (nodup string_dec l).
Proof.
  apply Permutation_length, NoDup_Permutation.
  - apply first_occurrences_NoDup.
  - apply NoDup_nodup.
  - intros a. now rewrite first_occurrences_In, nodup_In.
Qed.

(** A dictionary is the list of its keys, each with its value. *)
Lemma dict_items_keys {V} (d : pydict V) (value : string -> V) :
  NoDup (dict_keys d) ->
  (forall k, In k (dict_keys d) -> dict_get d k = Some (value k)) ->
  dict_items d = map (fun k => (k, value k)) (dict_keys d).
Proof.
  unfold dict_items. induction d as [|[k v] d IH]; simpl; intros Hnd Hget; [reflexivity|].
  inversion Hnd as [|? ? Hk Hnd']; subst.
  pose proof (Hget k (or_introl eq_refl)) as Hv.
  rewrite String.eqb_refl in Hv. injection Hv as ->.
  f_equal. apply IH; [assumption|].
  intros k' Hk'. specialize (Hget k' (or_intror Hk')).
  destruct (String.eqb k k') eqn:E; [|assumption].
  apply String.eqb_eq in E. subst k'. tauto.
Qed.

Section Totals.
Variable pc : Item -> Z.

Lemma credits_names (item_data : list Item) :
  map fst (credits pc item_data) = flat_map item_Artists item_data.
Proof.
  unfold credits. induction item_data as [|x xs IH]; simpl; [reflexivity|].
  rewrite map_app, IH, map_map. simpl. now rewrite map_id.
Qed.

Lemma sum_app (l l' : list Z) : sum (l ++ l') = sum l + sum l'.
Proof. unfold sum. induction l; simpl; lia. Qed.

Lemma sum_for_item (a : string) (p : Z) (names : list string) :
  sum_for a (map (fun b => (b, p)) names)
  = p * Z.of_nat (count_occ string_dec names a).
Proof.
  unfold sum_for. induction names as [|b names IH]; simpl; [lia|].
  destruct (string_dec b a) as [->|Hne].
  - rewrite String.eqb_refl. simpl. unfold sum in *. simpl. lia.
  - apply String.eqb_neq in Hne. rewrite Hne. assumption.
Qed.

Lemma sum_for_credits (a : string) (item_data : list Item) :
  sum_for a (credits pc item_data) = total_plays pc item_data a.
Proof.
  induction item_data as [|x xs IH]; [reflexivity|].
  change (total_plays pc (x :: xs) a)
    with (pc x * Z.of_nat (count_occ string_dec (item_Artists x) a)
          + total_plays pc xs a).
  rewrite <- IH, <- sum_for_item.
  unfold credits, sum_for. cbn [flat_map].
  rewrite filter_app, map_app, sum_app. reflexivity.
Qed.

(** Where no item names an artist twice, every item counts once. *)
Lemma total_plays_NoDup (item_data : list Item) (a : string) :
  (forall x, In x item_data -> NoDup (item_Artists x)) ->
  total_plays pc item_data a = credited_plays pc item_data a.
Proof.
  induction item_data as [|x xs IH]; intros Hnd; [reflexivity|].
  assert (Ht : total_plays pc (x :: xs) a
               = pc x * Z.of_nat (count_occ string_dec (item_Artists x) a)
                 + total_plays pc xs a) by reflexivity.
  assert (Hc : credited_plays pc (x :: xs) a
               = (if existsb (String.eqb a) (item_Artists x) then pc x else 0)
                 + credited_plays pc xs a).
  { unfold credited_plays. simpl.
    destruct (existsb (String.eqb a) (item_Artists x)); reflexivity. }
  rewrite Ht, Hc, IH by (intros y Hy; apply Hnd; now right).
  f_equal.
  assert (Hx : NoDup (item_Artists x)) by (apply Hnd; now left).
  rewrite (NoDup_count_occ string_dec) in Hx. specialize (Hx a).
  destruct (existsb (String.eqb a) (item_Artists x)) eqn:E.
  - apply existsb_exists in E. destruct E as (b & Hb & Hab).
    apply String.eqb_eq in Hab. subst b.
    apply (count_occ_In string_dec) in Hb.
    replace (count_occ string_dec (item_Artists x) a) with 1%nat by lia. lia.
  - assert (Hn : ~ In a (item_Artists x)).
    { intros Hin. apply not_true_iff_false in E. apply E.
      apply existsb_exists. exists a. split; [assumption | apply String.eqb_refl]. }
    apply (count_occ_not_In string_dec) in Hn. rewrite Hn. lia.
Qed.

(** The dictionary after the accumulation of line 177 to 183. *)
Lemma accumulate_credits (item_data : list Item) :
  accumulate (credits pc item_data) []
  = map (fun a => (a, total_plays pc item_data a))
        (first_occurrences (flat_map item_Artists item_data)).
Proof.
  set (d := accumulate (credits pc item_data) []).
  assert (Hk : dict_keys d = first_occurrences (flat_map item_Artists item_data)).
  { unfold d. rewrite accumulate_keys, credits_names. simpl.
    rewrite <- (filter_ext (fun _ => true)) by reflexivity.
    clear d. induction (first_occurrences _) as [|? ? IH]; simpl; congruence. }
  rewrite <- Hk. apply (dict_items_keys d).
  - rewrite Hk. apply first_occurrences_NoDup.
  - intros a Ha. unfold d. rewrite accumulate_get. simpl.
    rewrite sum_for_credits.
    rewrite Hk, first_occurrences_In, <- credits_names in Ha.
    destruct (existsb (fun c => String.eqb (fst c) a) (credits pc item_data)) eqn:E;
      [reflexivity|].
    apply not_true_iff_false in E. exfalso. apply E.
    apply in_map_iff in Ha. destruct Ha as (c & Hc & Hin).
    apply existsb_exists. exists c. split; [assumption|]. subst a. apply String.eqb_refl.
Qed.
End Totals.

(** The loops of lines 170 and 175: every user's list, empty at first, is
    extended once. *)
Section ExtendLoop.
Context {V : Type}.
Variable users : list User.
Variable top : string -> result (list V).
Variable step : string -> pydict (list V) -> result (pydict (list V)).
Hypothesis step_local :
  local_update step (fun user l => t <- top user ;; OK (l ++ t)).

Lemma extend_loop :
  let d0 := dict_comp user_Name (fun _ => []) users in
  match for_each (dict_keys d0) step d0 with
  | OK d =>
      forall u, In u users ->
        exists t, top (user_Name u) = OK t /\ dict_get d (user_Name u) = Some t
  | Raise e => exists u, In u users /\ top (user_Name u) = Raise e
  end.
Proof.
  intros d0.
  destruct (dict_comp_const user_Name (@nil V) users) as (Hnd & Hkeys & Hget).
  fold d0 in Hnd, Hkeys, Hget.
  pose proof (for_each_local _ _ step_local (dict_keys d0) d0 Hnd (fun k H => H)) as H.
  destruct (for_each (dict_keys d0) step d0) as [d|e].
  - destruct H as (_ & _ & H). intros u Hu.
    assert (Hin : In (user_Name u) (map user_Name users)) by now apply in_map.
    destruct (H (user_Name u) [] (proj2 (Hkeys _) Hin) (Hget _ Hin)) as (v' & Hv' & Hg).
    destruct (top (user_Name u)) as [t|]; simpl in Hv'; [|discriminate].
    exists t. split; [reflexivity|]. congruence.
  - destruct H as (k & v & Hk & _ & Hf).
    apply Hkeys in Hk. apply in_map_iff in Hk. destruct Hk as (u & <- & Hu).
    exists u. split; [assumption|].
    destruct (top (user_Name u)); simpl in Hf; [discriminate | assumption].
Qed.
End ExtendLoop.

Section TopArtists.
Variable item_data : list Item.
Variable users : list User.
Variable num_top_artists : Z.

Lemma artists_step_local :
  local_update (artists_step item_data num_top_artists)
    (fun user l => t <- top_artists item_data num_top_artists user ;; OK (l ++ t)).
Proof.
  intros k d v Hv. unfold artists_step.
  rewrite (dict_getitem_OK _ _ _ Hv). simpl.
  destruct (top_artists item_data num_top_artists k); reflexivity.
Qed.

Lemma find_most_listened_artists_spec :
  match find_most_listened_artists item_data users num_top_artists with
  | OK by_user =>
      forall u, In u users ->
        exists t, top_artists item_data num_top_artists (user_Name u) = OK t /\
                  dict_get by_user (user_Name u) = Some t
  | Raise e =>
      exists u, In u users /\
                top_artists item_data num_top_artists (user_Name u) = Raise e
  end.
Proof. exact (extend_loop users _ _ artists_step_local). Qed.

Lemma bake_artist_totals (user : string) (pc : Item -> Z) :
  counts user item_data pc ->
  bake item_data user = OK (artist_totals pc item_data).
Proof.
  intros Hpc. rewrite (bake_counts user pc item_data Hpc).
  now rewrite accumulate_credits.
Qed.

Lemma top_artists_total (user : string) (pc : Item -> Z) :
  counts user item_data pc ->
  exists sorted,
    stable_sorted_desc snd (artist_totals pc item_data) sorted /\
    top_artists item_data num_top_artists user = OK (slice_to sorted num_top_artists).
Proof.
  intros Hpc. unfold top_artists. rewrite (bake_artist_totals user pc Hpc).
  cbn [bind]. unfold dict_items.
  destruct (sorted_reverse_total snd (fun x => OK (snd x)) (artist_totals pc item_data))
    as (ys & -> & Hys); [reflexivity|].
  exists ys. split; [assumption | reflexivity].
Qed.
End TopArtists.

Lemma dict_get_map {V} (value : string -> V) (ks : list string) (a : string) :
  In a ks -> dict_get (map (fun k => (k, value k)) ks) a = Some (value a).
Proof.
  induction ks as [|k ks IH]; simpl; [tauto|].
  destruct (String.eqb k a) eqn:E.
  - apply String.eqb_eq in E. now subst k.
  - apply String.eqb_neq in E. intros [?|Hin]; [tauto | auto].
Qed.

Lemma dict_keys_map {V} (value : string -> V) (ks : list string) :
  dict_keys (map (fun k => (k, value k)) ks) = ks.
Proof. unfold dict_keys. rewrite map_map. simpl. apply map_id. Qed.

Lemma artist_totals_get (pc : Item -> Z) (item_data : list Item) (a : string) :
  In a (flat_map item_Artists item_data) ->
  dict_get (artist_totals pc item_data) a = Some (total_plays pc item_data a).
Proof.
  intros Ha. unfold artist_totals. apply dict_get_map.
  now apply first_occurrences_In.
Qed.

Lemma artist_totals_keys (pc : Item -> Z) (item_data : list Item) :
  dict_keys (artist_totals pc item_data)
  = first_occurrences (flat_map item_Artists item_data).
Proof. apply dict_keys_map. Qed.

Lemma total_plays_zero (pc : Item -> Z) (item_data : list Item) (a : string) :
  (forall x, In x item_data -> In a (item_Artists x) -> pc x = 0) ->
  total_plays pc item_data a = 0.
Proof.
  unfold total_plays.
  induction item_data as [|x xs IH]; intros H; [reflexivity|].
  cbn [map sum fold_right]. fold (sum (map (fun x => pc x * Z.of_nat (count_occ string_dec (item_Artists x) a)) xs)).
  rewrite IH by (intros y Hy; apply H; now right).
  destruct (in_dec string_dec a (item_Artists x)) as [Hin|Hin].
  - rewrite (H x) by (auto; now left). lia.
  - apply (count_occ_not_In string_dec) in Hin. rewrite Hin. lia.
Qed.

Lemma total_plays_nonneg (pc : Item -> Z) (item_data : list Item) (a : string) :
  (forall x, In x item_data -> 0 <= pc x) -> 0 <= total_plays pc item_data a.
Proof.
  unfold total_plays.
  induction item_data as [|x xs IH]; intros H; [simpl; lia|].
  cbn [map sum fold_right]. fold (sum (map (fun x => pc x * Z.of_nat (count_occ string_dec (item_Artists x) a)) xs)).
  specialize (IH (fun y Hy => H y (or_intror Hy))).
  specialize (H x (or_introl eq_refl)). nia.
Qed.

(** ** Counting *)

Lemma filter_length_perm {A} (p : A -> bool) (l l' : list A) :
  Permutation l l' -> List.length (filter p l) = List.length (filter p l').
Proof.
  induction 1 as [|x l l' _ IH|x y l|l l' l'' _ IH _ IH']; simpl.
  - reflexivity.
  - destruct (p x); simpl; congruence.
  - destruct (p x), (p y); reflexivity.
  - congruence.
Qed.

Lemma filter_length_firstn {A} (p : A -> bool) (n : nat) (l : list A) :
  (List.length (filter p (firstn n l)) <= List.length (filter p l))%nat.
Proof.
  rewrite <- (firstn_skipn n l) at 2. rewrite filter_app, length_app. lia.
Qed.

Lemma filter_length_lt {A} (p : A -> bool) (l : list A) :
  (List.length (filter p l) < List.length l)%nat ->
  exists x, In x l /\ p x = false.
Proof.
  induction l as [|x l IH]; simpl; [lia|].
  destruct (p x) eqn:E; simpl; intros H.
  - destruct IH as (y & Hy & Hpy); [lia|]. eauto.
  - eauto.
Qed.

(** C2, as stated, fails at an item that names an artist twice: the total
    of the artist is 6, and the play counts of the items that credit the
    artist sum to 3. *)
Lemma artist_total_counts_every_credit :
  counts "u" [twice_credited] (fun _ => 3) /\
  bake [twice_credited] "u" = OK [("A"%string, 6)] /\
  credited_plays (fun _ => 3) [twice_credited] "A" = 3 /\
  dict_get [("A"%string, 6)] "A"
    <> Some (credited_plays (fun _ => 3) [twice_credited] "A").
Proof.
  split; [intros x [<-|[]]; eexists; split; reflexivity|].
  repeat split; try reflexivity. discriminate.
Qed.

(** C2, amended. For a user of the list whose play counts are [pc], the
    dictionary [artists] of lines 177 to 183 is [artist_totals]: the artists
    in the order in which the two loops first meet them, each with the sum of
    the play counts of its credits ([total_plays]: an item adds its full play
    count to every artist it names, once for every time it names the artist).
    Where no item names an artist twice this is the sum over the items that
    credit the artist.  The user's top artists are the first
    [num_top_artists] pairs of the ranking of these pairs by total,
    non-increasing, pairs of equal total in the order of the dictionary. *)
Theorem top_artists_totals :
  forall (item_data : list Item) (users : list User) (num_top_artists : Z)
         (u : User) (pc : Item -> Z),
    In u users -> 0 <= num_top_artists ->
    counts (user_Name u) item_data pc ->
    exists sorted,
      bake item_data (user_Name u) = OK (artist_totals pc item_data) /\
      ((forall x, In x item_data -> NoDup (item_Artists x)) ->
       forall a, total_plays pc item_data a = credited_plays pc item_data a) /\
      stable_sorted_desc snd (artist_totals pc item_data) sorted /\
      (forall ys, stable_sorted_desc snd (artist_totals pc item_data) ys ->
                  ys = sorted) /\
      top_artists item_data num_top_artists (user_Name u)
        = OK (firstn (Z.to_nat num_top_artists) sorted) /\
      (forall by_user,
         find_most_listened_artists item_data users num_top_artists = OK by_user ->
         dict_get by_user (user_Name u)
           = Some (firstn (Z.to_nat num_top_artists) sorted)) /\
      ((forall u', In u' users -> exists pc', counts (user_Name u') item_data pc') ->
       exists by_user,
         find_most_listened_artists item_data users num_top_artists = OK by_user).
Proof.
  intros item_data users n u pc Hu Hn Hpc.
  destruct (top_artists_total item_data n (user_Name u) pc Hpc) as (sorted & Hs & Ht).
  rewrite slice_to_nonneg in Ht by assumption.
  exists sorted.
  split; [now apply bake_artist_totals|].
  split; [intros Hnd a; now apply total_plays_NoDup|].
  split; [assumption|].
  split; [intros ys Hys; exact (stable_sorted_desc_unique snd _ _ _ Hys Hs)|].
  split; [assumption|].
  pose proof (find_most_listened_artists_spec item_data users n) as H.
  split.
  - intros by_user E. rewrite E in H. destruct (H u Hu) as (t & Htop & Hg).
    congruence.
  - intros Hall.
    destruct (find_most_listened_artists item_data users n) as [by_user|e]; [eauto|].
    destruct H as (u' & Hu' & Hf). destruct (Hall u' Hu') as [pc' Hpc'].
    destruct (top_artists_total item_data n (user_Name u') pc' Hpc') as (? & _ & Ht').
    congruence.
Qed.

Lemma In_firstn {A} (n : nat) (l : list A) (x : A) : In x (firstn n l) -> In x l.
Proof.
  intros H. rewrite <- (firstn_skipn n l). apply in_or_app. now left.
Qed.

(** C10. The dictionary [artists] of a user has an entry for every name
    of some item's artist list and for no other name, with total 0 for an
    artist all of whose items the user never played; so the user's top
    artists are as many as [num_top_artists] or as the distinct names, if
    these are fewer, and where fewer than [num_top_artists] artists have a
    positive total and some artist has none, an artist of total 0 is among
    them. *)
Theorem artists_with_zero_total :
  forall (item_data : list Item) (users : list User) (num_top_artists : Z)
         (u : User) (pc : Item -> Z),
    In u users -> 0 <= num_top_artists ->
    counts (user_Name u) item_data pc ->
    exists artists top,
      bake item_data (user_Name u) = OK artists /\
      top_artists item_data num_top_artists (user_Name u) = OK top /\
      (forall by_user,
         find_most_listened_artists item_data users num_top_artists = OK by_user ->
         dict_get by_user (user_Name u) = Some top) /\
      (forall a, In a (dict_keys artists) <->
                 exists x, In x item_data /\ In a (item_Artists x)) /\
      (forall a, In a (dict_keys artists) ->
         (forall x, In x item_data -> In a (item_Artists x) -> pc x = 0) ->
         dict_get artists a = Some 0) /\
      Z.of_nat (List.length top)
        = Z.min num_top_artists
            (Z.of_nat (List.length (nodup string_dec (flat_map item_Artists item_data)))) /\
      ((forall x, In x item_data -> 0 <= pc x) ->
       Z.of_nat (List.length (filter positive_total (dict_items artists)))
         < num_top_artists ->
       (List.length (filter positive_total (dict_items artists))
        < List.length (dict_items artists))%nat ->
       exists a, In (a, 0) top).
Proof.
  intros item_data users n u pc Hu Hn Hpc.
  destruct (top_artists_total item_data n (user_Name u) pc Hpc) as (sorted & Hs & Ht).
  rewrite slice_to_nonneg in Ht by assumption.
  destruct Hs as (Hperm & _ & _).
  exists (artist_totals pc item_data), (firstn (Z.to_nat n) sorted).
  split; [now apply bake_artist_totals|]. split; [assumption|].
  split; [|split; [|split; [|split]]].
  - intros by_user E.
    pose proof (find_most_listened_artists_spec item_data users n) as H.
    rewrite E in H. destruct (H u Hu) as (t & Htop & Hg). congruence.
  - intros a. rewrite artist_totals_keys, first_occurrences_In, in_flat_map. tauto.
  - intros a Ha Hz. rewrite artist_totals_keys, first_occurrences_In in Ha.
    rewrite artist_totals_get by assumption. f_equal. now apply total_plays_zero.
  - rewrite length_firstn, <- (Permutation_length Hperm).
    unfold artist_totals. rewrite length_map, first_occurrences_length. lia.
  - intros Hpos Hlt1 Hlt2. unfold dict_items in Hlt1, Hlt2.
    assert (Hlt : (List.length (filter positive_total (artist_totals pc item_data))
                   < List.length (firstn (Z.to_nat n) sorted))%nat).
    { rewrite length_firstn, <- (Permutation_length Hperm). lia. }
    clear Hlt1 Hlt2.
    rewrite (filter_length_perm _ _ _ Hperm) in Hlt.
    pose proof (filter_length_firstn positive_total
                  (Z.to_nat n) sorted) as Hle.
    destruct (filter_length_lt positive_total
                (firstn (Z.to_nat n) sorted)) as ([a t] & Hin & Ht0); [lia|].
    exists a. unfold positive_total in Ht0. simpl in Ht0. apply Z.ltb_ge in Ht0.
    assert (Hin' : In (a, t) (artist_totals pc item_data)).
    { eapply Permutation_in; [symmetry; exact Hperm|].
      eapply In_firstn; exact Hin. }
    unfold artist_totals in Hin'. apply in_map_iff in Hin'.
    destruct Hin' as (a' & [= <- <-] & _).
    pose proof (total_plays_nonneg pc item_data a' Hpos).
    replace (total_plays pc item_data a') with 0 in Hin by lia. exact Hin.
Qed.

(** C4. Where some item has no entry for a user of the list, the
    aggregation returns no recap: it raises the [KeyError] of the name of
    such a user (the first in the order of [most_listened_songs]), at line
    171, where [sorted] computes the key of every item. *)
Theorem missing_entry_is_key_error :
  forall (item_data : list Item) (users : list User)
         (num_top_songs num_top_artists : Z) (u : User) (x : Item),
    In u users -> In x item_data ->
    dict_get (item_UserData x) (user_Name u) = None ->
    exists u' x',
      In u' users /\ In x' item_data /\
      dict_get (item_UserData x') (user_Name u') = None /\
      aggregate item_data users num_top_songs num_top_artists
        = Raise (KeyError (user_Name u')).
Proof.
  intros item_data users ns na u x Hu Hx Hmiss. unfold aggregate.
  pose proof (find_most_listened_songs_spec item_data users ns) as H.
  destruct (find_most_listened_songs item_data users ns) as [songs|e].
  - destruct (H u Hu) as (t & Htop & _).
    destruct (top_songs_missing item_data ns (user_Name u) x Hx Hmiss) as [e He].
    congruence.
  - destruct H as (u' & Hu' & Hf).
    apply top_songs_raise in Hf. destruct Hf as (-> & x' & Hx' & Hm').
    exists u', x'. auto.
Qed.

(** ** Minutes listened *)

Section Minutes.
Variable item_data : list Item.
Variable users : list User.

Lemma minutes_step_local (user : string) (item : Item) :
  forall d v, dict_get d user = Some v ->
    minutes_step user item d
    = (v' <- add_minutes user item v ;; OK (dict_set d user v')).
Proof.
  intros d v Hv. unfold minutes_step, add_minutes, minutes_of_item.
  rewrite (dict_getitem_OK _ _ _ Hv). cbn [bind].
  destruct (field "RunTimeTicks" (item_RunTimeTicks item)) as [ticks|]; [|reflexivity].
  cbn [bind]. destruct (truediv_int_float ticks float_6e7) as [q|]; [|reflexivity].
  cbn [bind]. destruct (play_count user item) as [pc|]; [|reflexivity].
  cbn [bind]. destruct (mul_float_int q pc) as [t|]; [|reflexivity].
  cbn [bind]. destruct (add_num_float v t); reflexivity.
Qed.

Lemma minutes_loop_local (items : list Item) :
  local_update (fun user minutes => for_each items (minutes_step user) minutes)
               (fun user total => for_each items (add_minutes user) total).
Proof.
  intros k. induction items as [|x xs IH]; intros d v Hv; cbn [for_each bind].
  - now rewrite (dict_set_same d k v Hv).
  - rewrite (minutes_step_local k x d v Hv).
    destruct (add_minutes k x v) as [v1|e]; cbn [bind]; [|reflexivity].
    rewrite (IH (dict_set d k v1) v1) by apply dict_get_set_same.
    destruct (for_each xs (add_minutes k) v1); cbn [bind]; [|reflexivity].
    now rewrite dict_set_set.
Qed.

(** The outcome of the loops of lines 188 and 189. *)
Lemma find_minutes_listened_spec :
  match find_minutes_listened item_data users with
  | OK minutes =>
      forall u, In u users ->
        exists total,
          for_each item_data (add_minutes (user_Name u)) (PInt 0) = OK total /\
          dict_get minutes (user_Name u) = Some total
  | Raise e =>
      exists u, In u users /\
        for_each item_data (add_minutes (user_Name u)) (PInt 0) = Raise e
  end.
Proof.
  unfold find_minutes_listened.
  destruct (dict_comp_const user_Name (PInt 0) users) as (Hnd & Hkeys & Hget).
  set (d0 := dict_comp user_Name (fun _ => PInt 0) users) in *.
  pose proof (for_each_local _ _ (minutes_loop_local item_data) (dict_keys d0) d0 Hnd
                (fun k H => H)) as H.
  cbv beta in H.
  destruct (for_each (dict_keys d0)
              (fun user minutes => for_each item_data (minutes_step user) minutes) d0)
    as [d|e].
  - destruct H as (_ & _ & H). intros u Hu.
    assert (Hin : In (user_Name u) (map user_Name users)) by now apply in_map.
    exact (H (user_Name u) (PInt 0) (proj2 (Hkeys _) Hin) (Hget _ Hin)).
  - destruct H as (k & v & Hk & Hv & Hf).
    pose proof Hk as Hk'. apply Hkeys in Hk'. rewrite (Hget _ Hk') in Hv.
    injection Hv as <-.
    apply in_map_iff in Hk'. destruct Hk' as (u & <- & Hu). eauto.
Qed.
End Minutes.

Lemma float_of_int_0 : float_of_int 0 = OK (S754_zero false).
Proof. reflexivity. Qed.

(** The loop of line 189 adds the items' minutes one after the other. *)
Lemma add_minutes_float (user : string) (items : list Item) (ts : list float) :
  map_result (minutes_of_item user) items = OK ts ->
  forall f, for_each items (add_minutes user) (PFloat f) = OK (PFloat (fold_left fadd ts f)).
Proof.
  revert ts. induction items as [|x xs IH]; intros ts H f; simpl in H.
  - injection H as <-. reflexivity.
  - destruct (minutes_of_item user x) as [t|] eqn:Et; [|discriminate].
    simpl in H. destruct (map_result (minutes_of_item user) xs) as [ts'|]; [|discriminate].
    injection H as <-. cbn [for_each]. unfold add_minutes at 1. rewrite Et.
    cbn [bind add_num_float fold_left]. apply (IH ts' eq_refl).
Qed.

Lemma add_minutes_sum (user : string) (items : list Item) (ts : list float) :
  map_result (minutes_of_item user) items = OK ts ->
  for_each items (add_minutes user) (PInt 0) = OK (float_sum ts).
Proof.
  destruct items as [|x xs]; simpl; intros H.
  - injection H as <-. reflexivity.
  - destruct (minutes_of_item user x) as [t|] eqn:Et; [|discriminate].
    simpl in H. destruct (map_result (minutes_of_item user) xs) as [ts'|] eqn:E;
      [|discriminate].
    injection H as <-. unfold add_minutes at 1. rewrite Et.
    cbn [bind add_num_float]. rewrite float_of_int_0. cbn [bind].
    now apply add_minutes_float.
Qed.

(** ** Floats: rounding never leaves the finite range downwards *)

Lemma digits2_pos_size (p : positive) : digits2_pos p = Pos.size p.
Proof. induction p; simpl; congruence. Qed.

Lemma Zdigits2_log2 (m : Z) : 0 < m -> Zdigits2 m = Z.log2 m + 1.
Proof.
  destruct m as [|p|p]; try lia. intros _.
  destruct p; simpl; rewrite ?digits2_pos_size; lia.
Qed.

Lemma Zdigits2_nonneg (m : Z) : 0 <= Zdigits2 m.
Proof. destruct m; simpl; lia. Qed.

Lemma Zdigits2_succ (m : Z) : 0 <= m -> Zdigits2 (m + 1) <= Zdigits2 m + 1.
Proof.
  intros Hm. destruct (Z.eq_dec m 0) as [->|Hne]; [simpl; lia|].
  rewrite !Zdigits2_log2 by lia. pose proof (Z.log2_succ_le m) as H.
  unfold Z.succ in H. lia.
Qed.

Lemma Zdigits2_bounds (m : Z) :
  0 < m -> 2 ^ (Zdigits2 m - 1) <= m < 2 ^ Zdigits2 m.
Proof.
  intros Hm. rewrite Zdigits2_log2 by assumption.
  replace (Z.log2 m + 1 - 1) with (Z.log2 m) by lia.
  apply Z.log2_spec. assumption.
Qed.

Lemma Zdigits2_lt_pow2 (m b : Z) : 0 < m -> m < 2 ^ b -> Zdigits2 m <= b.
Proof.
  intros Hm Hlt. rewrite Zdigits2_log2 by assumption.
  apply Z.log2_lt_pow2 in Hlt; lia.
Qed.

Lemma shr_1_digits (mrs : shr_record) :
  0 <= shr_m mrs ->
  0 <= shr_m (shr_1 mrs) /\
  Zdigits2 (shr_m (shr_1 mrs)) = Z.max 0 (Zdigits2 (shr_m mrs) - 1).
Proof.
  destruct mrs as [m r s]. cbn [shr_m]. intros Hm.
  destruct m as [|[p|p|]|p]; cbn [shr_1 shr_m Zdigits2 digits2_pos];
    rewrite ?Pos2Z.inj_succ; lia.
Qed.

Lemma shr_iter_digits (p : positive) :
  forall mrs : shr_record,
    0 <= shr_m mrs ->
    0 <= shr_m (iter_pos shr_1 p mrs) /\
    Zdigits2 (shr_m (iter_pos shr_1 p mrs))
    = Z.max 0 (Zdigits2 (shr_m mrs) - Zpos p).
Proof.
  induction p as [p IH|p IH|]; intros mrs Hm; simpl.
  - destruct (shr_1_digits mrs Hm) as [H0 H1].
    destruct (IH _ H0) as [H2 H3]. destruct (IH _ H2) as [H4 H5].
    split; [assumption|]. rewrite H5, H3, H1. lia.
  - destruct (IH _ Hm) as [H2 H3]. destruct (IH _ H2) as [H4 H5].
    split; [assumption|]. rewrite H5, H3. lia.
  - apply shr_1_digits. assumption.
Qed.

Section Rounding.
Variables pr em : Z.
Hypothesis pr_pos : 0 < pr.
Hypothesis em_large : 3 <= 2 * em.

Lemma shr_record_of_loc_m (m : Z) (l : location) :
  shr_m (shr_record_of_loc m l) = m.
Proof. destruct l as [|[]]; reflexivity. Qed.

(** The shift to the exponent [fexp]: the new exponent and the digits
    that are left. *)
Lemma shr_fexp_digits (m e : Z) (l : location) (mrs : shr_record) (e' : Z) :
  0 <= m -> shr_fexp pr em m e l = (mrs, e') ->
  0 <= shr_m mrs /\
  e' = Z.max e (fexp pr em (Zdigits2 m + e)) /\
  Zdigits2 (shr_m mrs) = Z.max 0 (Zdigits2 m + e - e').
Proof.
  intros Hm. unfold shr_fexp, shr.
  pose proof (Zdigits2_nonneg m) as Hd.
  destruct (fexp pr em (Zdigits2 m + e) - e) as [|n|n] eqn:En;
    intros [= <- <-]; rewrite ?shr_record_of_loc_m.
  - repeat split; [assumption | lia | lia].
  - destruct (shr_iter_digits n (shr_record_of_loc m l)) as [H0 H1];
      [now rewrite shr_record_of_loc_m|].
    rewrite shr_record_of_loc_m in H1.
    repeat split; [assumption | lia | lia].
  - repeat split; [assumption | lia | lia].
Qed.

Lemma round_nearest_even_bounds (m : Z) (l : location) :
  m <= round_nearest_even m l <= m + 1.
Proof.
  destruct l as [|[]]; simpl; try lia. destruct (Z.even m); lia.
Qed.

(** The rounding of a non-negative mantissa is a float of the format or
    an infinity; it is no infinity where the value is small enough. *)
Lemma binary_round_aux_format (sx : bool) (mx ex : Z) (lx : location) :
  0 <= mx ->
  match binary_round_aux pr em sx mx ex lx with
  | S754_infinity _ => ~ (ex <= em - pr /\ Zdigits2 mx + ex <= em - 1)
  | f => in_format pr em f
  end.
Proof.
  intros Hm. unfold binary_round_aux.
  destruct (shr_fexp pr em mx ex lx) as [mrs1 e1] eqn:E1.
  destruct (shr_fexp_digits _ _ _ _ _ Hm E1) as (Hm1 & He1 & Hd1).
  pose proof (round_nearest_even_bounds (shr_m mrs1) (loc_of_shr_record mrs1)) as Hr.
  set (mr := round_nearest_even (shr_m mrs1) (loc_of_shr_record mrs1)) in *.
  assert (Hmr : 0 <= mr) by lia.
  destruct (shr_fexp pr em mr e1 loc_Exact) as [mrs2 e2] eqn:E2.
  destruct (shr_fexp_digits _ _ _ _ _ Hmr E2) as (Hm2 & He2 & Hd2).
  assert (Hdr : Zdigits2 mr <= Zdigits2 (shr_m mrs1) + 1).
  { destruct (Z.eq_dec mr (shr_m mrs1)) as [->|Hne]; [lia|].
    replace mr with (shr_m mrs1 + 1) by lia. now apply Zdigits2_succ. }
  unfold fexp, emin in *.
  destruct (shr_m mrs2) as [|m2|m2] eqn:Em2; [exact I| |lia].
  destruct (e2 <=? em - pr) eqn:Ele.
  - apply Z.leb_le in Ele. simpl. split; [|assumption].
    change (Z.pos (digits2_pos m2)) with (Zdigits2 (Z.pos m2)). lia.
  - apply Z.leb_gt in Ele. lia.
Qed.

(** The quotient of two mantissas and its exponent. *)
Lemma SFdiv_core_binary_digits (m1 m2 : positive) (e1 e2 q e' : Z) (l : location) :
  SFdiv_core_binary pr em (Zpos m1) e1 (Zpos m2) e2 = (q, e', l) ->
  0 <= q /\
  e' <= fexp pr em (Zdigits2 (Zpos m1) + e1 - (Zdigits2 (Zpos m2) + e2)) /\
  Zdigits2 q + e'
  <= Z.max e' (Zdigits2 (Zpos m1) + e1 - (Zdigits2 (Zpos m2) + e2) + 1).
Proof.
  unfold SFdiv_core_binary.
  set (d1 := Zdigits2 (Zpos m1)). set (d2 := Zdigits2 (Zpos m2)).
  set (e0 := Z.min (fexp pr em (d1 + e1 - (d2 + e2))) (e1 - e2)).
  set (s := e1 - e2 - e0).
  set (m' := match s with Z0 => Zpos m1 | Zpos _ => Z.shiftl (Zpos m1) s | Zneg _ => 0 end).
  assert (Hs : 0 <= s) by (unfold s, e0; lia).
  assert (Hm' : m' = Zpos m1 * 2 ^ s).
  { unfold m'. destruct s as [|n|n] eqn:Es; [lia | | lia].
    now rewrite Z.shiftl_mul_pow2 by lia. }
  pose proof (Z.div_eucl_eq m' (Zpos m2) ltac:(lia)) as Heq.
  pose proof (Z.mod_pos_bound m' (Zpos m2) ltac:(lia)) as Hmod.
  unfold Z.modulo in Hmod.
  destruct (Z.div_eucl m' (Z.pos m2)) as [q0 r0]. intros [= <- <- <-].
  assert (H2s : 0 < 2 ^ s) by (apply Z.pow_pos_nonneg; lia).
  assert (Hq : 0 <= q0) by nia.
  split; [assumption|]. split; [unfold e0; lia|].
  destruct (Z.eq_dec q0 0) as [->|Hq0]; [simpl; lia|].
  pose proof (Zdigits2_bounds (Zpos m1) ltac:(lia)) as [_ H1].
  pose proof (Zdigits2_bounds (Zpos m2) ltac:(lia)) as [H2 _].
  fold d1 in H1. fold d2 in H2.
  assert (Hd2 : 0 < d2) by (unfold d2; simpl; lia).
  assert (Hd1 : 0 < d1) by (unfold d1; simpl; lia).
  assert (Hlt : q0 * 2 ^ (d2 - 1) < 2 ^ (d1 + s)).
  { rewrite Z.pow_add_r by lia.
    assert (0 < 2 ^ (d2 - 1)) by (apply Z.pow_pos_nonneg; lia). nia. }
  assert (Hk : 0 <= d1 + s - d2 + 1).
  { destruct (Z_lt_le_dec (d1 + s) (d2 - 1)) as [Hc|Hc]; [|lia].
    assert (2 ^ (d1 + s) <= 2 ^ (d2 - 1)) by (apply Z.pow_le_mono_r; lia).
    nia. }
  assert (Hq2 : q0 < 2 ^ (d1 + s - d2 + 1)).
  { replace (d1 + s) with ((d1 + s - d2 + 1) + (d2 - 1)) in Hlt by lia.
    rewrite Z.pow_add_r in Hlt by lia.
    assert (0 < 2 ^ (d2 - 1)) by (apply Z.pow_pos_nonneg; lia). nia. }
  pose proof (Zdigits2_lt_pow2 q0 _ ltac:(lia) Hq2). unfold s in *. lia.
Qed.

(** The quotient of two floats of the format, the divisor of magnitude
    2 at least, is a float of the format. *)
Lemma SFdiv_format (x y : spec_float) :
  in_format pr em x ->
  match y with
  | S754_finite _ my ey => 2 <= Zdigits2 (Zpos my) + ey
  | _ => False
  end ->
  in_format pr em (SFdiv pr em x y).
Proof.
  destruct y as [| | |sy my ey]; try tauto. intros Hx Hy.
  destruct x as [sx|sx| |sx mx ex]; simpl in Hx; try tauto; try exact I.
  destruct Hx as [Hdx Hex]. unfold SFdiv.
  destruct (SFdiv_core_binary pr em (Zpos mx) ex (Zpos my) ey) as [[q e'] l] eqn:E.
  destruct (SFdiv_core_binary_digits _ _ _ _ _ _ _ E) as (Hq & He' & Hd).
  pose proof (binary_round_aux_format (xorb sx sy) q e' l Hq) as H.
  destruct (binary_round_aux pr em (xorb sx sy) q e' l); try assumption.
  exfalso. apply H. unfold fexp, emin in *. cbn [Zdigits2] in *. lia.
Qed.

Lemma binary_normalize_format (z : Z) :
  match binary_normalize pr em z 0 false with
  | S754_infinity _ => True
  | f => in_format pr em f
  end.
Proof.
  destruct z as [|m|m]; simpl; [exact I | |]; unfold binary_round;
    destruct (shl_align m 0 (fexp pr em (Z.pos (digits2_pos m) + 0))) as [mz ez];
    match goal with
    | |- context [binary_round_aux pr em ?s ?mx ?ex ?l] =>
        pose proof (binary_round_aux_format s mx ex l ltac:(lia)) as H;
        destruct (binary_round_aux pr em s mx ex l); auto
    end.
Qed.
End Rounding.

(** [int / 6e7] is zero or finite. *)
Lemma truediv_6e7_in_format (z : Z) (q : float) :
  truediv_int_float z float_6e7 = OK q -> in_format prec emax q.
Proof.
  unfold truediv_int_float, float_of_int.
  pose proof (binary_normalize_format prec emax ltac:(reflexivity)
                ltac:(unfold emax; lia) z) as H.
  destruct (binary_normalize prec emax z 0 false) as [s|s| |s m e] eqn:E;
    cbn [bind is_zero float_6e7]; try discriminate; intros [= <-].
  - exact I.
  - exact H.
  - change (in_format prec emax (SFdiv prec emax (S754_finite s m e) float_6e7)).
    apply SFdiv_format; [reflexivity | unfold emax; lia | assumption | simpl; lia].
Qed.

(** [(int / 6e7) * 0] is a zero. *)
Lemma mul_zero_play_count (z : Z) (q t : float) :
  truediv_int_float z float_6e7 = OK q ->
  mul_float_int q 0 = OK t -> is_zero t = true.
Proof.
  intros Hq. apply truediv_6e7_in_format in Hq.
  unfold mul_float_int. cbn [bind]. change (float_of_int 0) with (OK (S754_zero false)).
  cbn [bind]. intros [= <-].
  destruct q; simpl in Hq; try tauto; reflexivity.
Qed.

Lemma fadd_zero_r (a t : float) : is_zero t = true -> same_float (fadd a t) a.
Proof.
  destruct t as [s| | |]; try discriminate. intros _.
  destruct a as [[]|[]| |]; destruct s; simpl; unfold same_float; simpl; auto.
Qed.

Lemma fadd_same_l (a b t : float) :
  same_float a b -> same_float (fadd a t) (fadd b t).
Proof.
  intros [->|[Ha Hb]]; [now left|].
  destruct a as [sa| | |]; try discriminate.
  destruct b as [sb| | |]; try discriminate.
  destruct t as [st|st| |st mt et]; unfold same_float.
  - right. destruct sa, sb, st; simpl; auto.
  - left. reflexivity.
  - left. reflexivity.
  - left. reflexivity.
Qed.

Lemma same_float_trans (a b c : float) :
  same_float a b -> same_float b c -> same_float a c.
Proof.
  unfold same_float. intros [->|[Ha Hb]] [->|[Hb' Hc]]; auto.
Qed.

Lemma fold_fadd_drop_zeros (ts : list float) :
  forall a b, same_float a b ->
    same_float (fold_left fadd ts a) (fold_left fadd (filter nonzero ts) b).
Proof.
  induction ts as [|t ts IH]; intros a b Hab; [assumption|].
  cbn [fold_left filter]. unfold nonzero at 1.
  destruct (is_zero t) eqn:Et; cbn [negb fold_left].
  - apply IH. eapply same_float_trans; [apply fadd_zero_r; assumption | assumption].
  - apply IH. now apply fadd_same_l.
Qed.

Lemma fadd_zero_l (a t : float) :
  is_zero a = true -> is_zero t = false -> fadd a t = t.
Proof.
  destruct a as [sa| | |]; try discriminate. intros _.
  destruct t; try discriminate; reflexivity.
Qed.

Lemma fold_fadd_zero_start (ts : list float) :
  forall a, is_zero a = true ->
    same_number (PFloat (fold_left fadd ts a)) (float_sum (filter nonzero ts)).
Proof.
  induction ts as [|t ts IH]; intros a Ha.
  - right. simpl. auto.
  - cbn [fold_left filter]. unfold nonzero at 1.
    destruct (is_zero t) eqn:Et; cbn [negb].
    + apply IH. destruct a as [[]| | |]; try discriminate;
        destruct t as [[]| | |]; try discriminate; reflexivity.
    + cbn [float_sum]. rewrite (fadd_zero_l a t Ha Et).
      rewrite (fadd_zero_l (S754_zero false) t eq_refl Et).
      destruct (fold_fadd_drop_zeros ts t t (or_introl eq_refl)) as [->|[H1 H2]].
      * now left.
      * right. simpl. auto.
Qed.

(** Terms that are zeros add nothing to the sum. *)
Lemma float_sum_drop_zeros (ts : list float) :
  same_number (float_sum ts) (float_sum (filter nonzero ts)).
Proof.
  destruct ts as [|t ts]; [now left|].
  exact (fold_fadd_zero_start (t :: ts) (S754_zero false) eq_refl).
Qed.

Lemma map_result_pointwise {A B} (f : A -> result B) (xs : list A) :
  (forall x, In x xs -> exists y, f x = OK y) -> exists ys, map_result f xs = OK ys.
Proof.
  induction xs as [|x xs IH]; intros H; simpl; [eauto|].
  destruct (H x (or_introl eq_refl)) as [y ->].
  destruct IH as [ys ->]; [intros x' Hx'; apply H; now right|].
  simpl. eauto.
Qed.

Lemma add_minutes_OK_inv (user : string) (items : list Item) :
  forall total total',
    for_each items (add_minutes user) total = OK total' ->
    exists ts, map_result (minutes_of_item user) items = OK ts.
Proof.
  induction items as [|x xs IH]; intros total total'; simpl; [eauto|].
  unfold add_minutes at 1.
  destruct (minutes_of_item user x) as [t|]; [|discriminate]. cbn [bind].
  destruct (add_num_float total t) as [total1|]; [|discriminate]. cbn [bind].
  intros H. destruct (IH _ _ H) as [ts ->]. simpl. eauto.
Qed.

Lemma minutes_of_item_zero (user : string) (x : Item) (t : float) :
  play_count user x = OK 0 -> minutes_of_item user x = OK t -> is_zero t = true.
Proof.
  unfold minutes_of_item. intros Hpc.
  destruct (field "RunTimeTicks" (item_RunTimeTicks x)) as [ticks|]; [|discriminate].
  cbn [bind].
  destruct (truediv_int_float ticks float_6e7) as [q|] eqn:Eq; [|discriminate].
  cbn [bind]. rewrite Hpc. cbn [bind]. now apply mul_zero_play_count with (z := ticks).
Qed.

(** ** The conversion of an [int] *)

Lemma Zdigits2_shift_pos (d m : positive) :
  Zdigits2 (Zpos (shift_pos d m)) = Zdigits2 (Zpos m) + Zpos d.
Proof.
  rewrite shift_pos_correct. change (Z.pow_pos 2 d) with (2 ^ Zpos d).
  rewrite !Zdigits2_log2 by (try apply Z.mul_pos_pos; try apply Z.pow_pos_nonneg; lia).
  rewrite Z.mul_comm, Z.log2_mul_pow2 by lia. lia.
Qed.

Lemma binary_round_finite (s : bool) (m : positive) :
  Zpos m < 2 ^ 1023 ->
  match binary_round prec emax s m 0 with
  | S754_infinity _ => False
  | f => in_format prec emax f
  end.
Proof.
  intros Hm.
  assert (Hd : Zdigits2 (Zpos m) <= 1023) by (apply Zdigits2_lt_pow2; lia).
  assert (Hd0 : 0 < Zdigits2 (Zpos m)) by (simpl; lia).
  unfold binary_round.
  destruct (shl_align m 0 (fexp prec emax (Z.pos (digits2_pos m) + 0))) as [mz ez] eqn:E.
  assert (H : ez <= emax - prec /\ Zdigits2 (Zpos mz) + ez <= emax - 1).
  { unfold shl_align in E. change (Z.pos (digits2_pos m)) with (Zdigits2 (Zpos m)) in E.
    remember (fexp prec emax (Zdigits2 (Z.pos m) + 0)) as e0 eqn:He0.
    unfold fexp, emin in He0.
    assert (He : emax - prec = 971) by reflexivity.
    assert (He1 : emax - 1 = 1023) by reflexivity.
    assert (He2 : 3 - emax - prec = -1074) by reflexivity.
    assert (Hp : prec = 53) by reflexivity.
    rewrite He, He1. rewrite He2, Hp in He0. clear He He1 He2 Hp.
    destruct (e0 - 0) as [|d|d] eqn:Ed; injection E as <- <-; try lia.
    change (Pos.iter xO m d) with (shift_pos d m).
    rewrite Zdigits2_shift_pos. rewrite <- Pos2Z.opp_pos in Ed. lia. }
  pose proof (binary_round_aux_format prec emax ltac:(reflexivity) ltac:(unfold emax; lia)
                s (Zpos mz) ez loc_Exact ltac:(lia)) as F.
  destruct (binary_round_aux prec emax s (Z.pos mz) ez loc_Exact); auto.
Qed.

Lemma float_of_int_OK (z : Z) :
  convertible z -> exists f, float_of_int z = OK f /\ in_format prec emax f.
Proof.
  unfold convertible, float_of_int, binary_normalize. intros Hz.
  destruct z as [|m|m].
  - exists (S754_zero false). split; [reflexivity | exact I].
  - pose proof (binary_round_finite false m ltac:(lia)) as H.
    destruct (binary_round prec emax false m 0) eqn:E; try tauto; eauto.
  - pose proof (binary_round_finite true m ltac:(lia)) as H.
    destruct (binary_round prec emax true m 0) eqn:E; try tauto; eauto.
Qed.

(** Line 190 completes where the ticks and the play count are
    convertible. *)
Lemma minutes_of_item_OK (user : string) (x : Item) (ticks pc : Z) :
  item_RunTimeTicks x = Some ticks ->
  play_count user x = OK pc ->
  convertible ticks -> convertible pc ->
  exists t, minutes_of_item user x = OK t.
Proof.
  intros Hticks Hpc Ht Hc.
  unfold minutes_of_item, field, truediv_int_float, mul_float_int.
  rewrite Hticks. cbn [bind].
  destruct (float_of_int_OK _ Ht) as (ft & -> & _).
  destruct (float_of_int_OK _ Hc) as (fc & Hfc & _).
  simpl. rewrite Hpc. simpl. rewrite Hfc. simpl. eauto.
Qed.

(** ** Floats: integers of at most 53 digits are exact *)

Lemma Zdigits2_pos (m : Z) : 0 < m -> 0 < Zdigits2 m.
Proof. destruct m; simpl; lia. Qed.

Lemma Zdigits2_mul_pow2 (m j : Z) :
  0 < m -> 0 <= j -> Zdigits2 (m * 2 ^ j) = Zdigits2 m + j.
Proof.
  intros Hm Hj.
  assert (0 < 2 ^ j) by (apply Z.pow_pos_nonneg; lia).
  rewrite !Zdigits2_log2 by nia.
  rewrite Z.log2_mul_pow2 by lia. lia.
Qed.

Lemma Zdigits2_le (a b : Z) : 0 < a -> a <= b -> Zdigits2 a <= Zdigits2 b.
Proof.
  intros Ha Hab. rewrite !Zdigits2_log2 by lia.
  pose proof (Z.log2_le_mono a b Hab). lia.
Qed.

Lemma shr_1_double (k : Z) : 0 < k -> shr_1 (exact_record (2 * k)) = exact_record k.
Proof. destruct k; try lia. intros _. reflexivity. Qed.

Lemma pow2_xO (p : positive) : 2 ^ Zpos p~0 = 2 ^ Zpos p * 2 ^ Zpos p.
Proof.
  replace (Zpos p~0) with (Zpos p + Zpos p) by lia. apply Z.pow_add_r; lia.
Qed.

Lemma pow2_xI (p : positive) : 2 ^ Zpos p~1 = 2 * (2 ^ Zpos p * 2 ^ Zpos p).
Proof.
  replace (Zpos p~1) with (1 + (Zpos p + Zpos p)) by lia.
  rewrite !Z.pow_add_r by lia. reflexivity.
Qed.

Lemma shr_exact (p : positive) :
  forall k, 0 < k -> iter_pos shr_1 p (exact_record (k * 2 ^ Zpos p)) = exact_record k.
Proof.
  induction p as [p IH|p IH|]; intros k Hk; cbn [iter_pos].
  - assert (H2 : 0 < 2 ^ Zpos p) by (apply Z.pow_pos_nonneg; lia).
    rewrite pow2_xI.
    replace (k * (2 * (2 ^ Zpos p * 2 ^ Zpos p)))
      with (2 * (k * 2 ^ Zpos p * 2 ^ Zpos p)) by lia.
    rewrite shr_1_double by nia. rewrite IH by nia. now apply IH.
  - assert (H2 : 0 < 2 ^ Zpos p) by (apply Z.pow_pos_nonneg; lia).
    rewrite pow2_xO, Z.mul_assoc. rewrite IH by nia. now apply IH.
  - change (2 ^ 1) with 2. rewrite Z.mul_comm. now apply shr_1_double.
Qed.

(** The rounding of an integer [v] of at most 53 digits, given as the
    mantissa [v * 2 ^ j] with the exponent [- j]. *)
Lemma round_exact (s : bool) (v j : Z) :
  0 < v -> Zdigits2 v <= 53 -> 53 - Zdigits2 v <= j ->
  binary_round_aux 53 1024 s (v * 2 ^ j) (- j) loc_Exact
  = S754_finite s (Z.to_pos (v * 2 ^ (53 - Zdigits2 v))) (Zdigits2 v - 53).
Proof.
  intros Hv Hd Hj.
  pose proof (Zdigits2_pos v Hv) as Hd0.
  remember (Zdigits2 v) as d eqn:Ed.
  assert (Hm : 0 < v * 2 ^ (53 - d)).
  { apply Z.mul_pos_pos; [assumption | apply Z.pow_pos_nonneg; lia]. }
  assert (Hdm : Zdigits2 (v * 2 ^ (53 - d)) = 53).
  { rewrite Zdigits2_mul_pow2 by lia. lia. }
  assert (Hfirst : shr_fexp 53 1024 (v * 2 ^ j) (- j) loc_Exact
                   = (exact_record (v * 2 ^ (53 - d)), d - 53)).
  { unfold shr_fexp. rewrite Zdigits2_mul_pow2 by lia. rewrite <- Ed.
    replace (fexp 53 1024 (d + j + - j) - - j) with (d - 53 + j)
      by (unfold fexp, emin; lia).
    unfold shr. change (shr_record_of_loc (v * 2 ^ j) loc_Exact) with (exact_record (v * 2 ^ j)).
    destruct (d - 53 + j) as [|p|p] eqn:En; [| |lia].
    - replace j with (53 - d) by lia. f_equal. lia.
    - replace (v * 2 ^ j) with (v * 2 ^ (53 - d) * 2 ^ Zpos p).
      2:{ rewrite <- Z.mul_assoc, <- Z.pow_add_r by lia. do 2 f_equal. lia. }
      rewrite shr_exact by assumption. f_equal. lia. }
  assert (Hsecond : shr_fexp 53 1024 (v * 2 ^ (53 - d)) (d - 53) loc_Exact
                    = (exact_record (v * 2 ^ (53 - d)), d - 53)).
  { unfold shr_fexp. rewrite Hdm.
    replace (fexp 53 1024 (53 + (d - 53)) - (d - 53)) with 0
      by (unfold fexp, emin; lia).
    reflexivity. }
  unfold binary_round_aux. rewrite Hfirst.
  change (round_nearest_even (shr_m (exact_record (v * 2 ^ (53 - d))))
            (loc_of_shr_record (exact_record (v * 2 ^ (53 - d)))))
    with (v * 2 ^ (53 - d)).
  rewrite Hsecond. cbn [shr_m exact_record].
  destruct (v * 2 ^ (53 - d)) as [|m|m] eqn:Em; try lia.
  cbn [Z.to_pos].
  replace (d - 53 <=? 1024 - 53) with true by (symmetry; apply Z.leb_le; lia).
  reflexivity.
Qed.

Lemma canon_mantissa (v : Z) :
  0 < v -> Zdigits2 v <= 53 ->
  Zpos (Z.to_pos (v * 2 ^ (53 - Zdigits2 v))) = v * 2 ^ (53 - Zdigits2 v).
Proof.
  intros Hv Hd. apply Z2Pos.id.
  apply Z.mul_pos_pos; [assumption | apply Z.pow_pos_nonneg; lia].
Qed.

Lemma shl_align_value (m : positive) (e e' : Z) :
  e' <= e -> shl_align m e e' = (Z.to_pos (Zpos m * 2 ^ (e - e')), e').
Proof.
  intros He. unfold shl_align.
  destruct (e' - e) as [|d|d] eqn:Ed; try lia.
  - replace (e - e') with 0 by lia. rewrite Z.pow_0_r, Z.mul_1_r.
    cbn [Z.to_pos]. f_equal. lia.
  - f_equal. change (Pos.iter xO m d) with (shift_pos d m).
    replace (e - e') with (Zpos d) by lia.
    rewrite <- (Pos2Z.id (shift_pos d m)). f_equal.
    rewrite shift_pos_correct. change (Z.pow_pos 2 d) with (2 ^ Zpos d). lia.
Qed.

Lemma normalize_exact (v j : Z) :
  0 < v -> Zdigits2 v <= 53 -> 0 <= j ->
  binary_normalize 53 1024 (v * 2 ^ j) (- j) false = canon v.
Proof.
  intros Hv Hd Hj.
  pose proof (Zdigits2_pos v Hv) as Hd0.
  assert (H2 : 0 < 2 ^ j) by (apply Z.pow_pos_nonneg; lia).
  pose proof (Zdigits2_mul_pow2 v j Hv Hj) as Hdj.
  destruct (v * 2 ^ j) as [|m|m] eqn:Em; try nia.
  unfold binary_normalize, binary_round.
  change (Z.pos (digits2_pos m)) with (Zdigits2 (Z.pos m)). rewrite Hdj.
  replace (fexp 53 1024 (Zdigits2 v + j + - j)) with (Zdigits2 v - 53)
    by (unfold fexp, emin; lia).
  destruct (Z_le_gt_dec (Zdigits2 v - 53) (- j)) as [Hle|Hgt].
  - rewrite shl_align_value by assumption. rewrite <- Em.
    replace (v * 2 ^ j * 2 ^ (- j - (Zdigits2 v - 53)))
      with (v * 2 ^ (53 - Zdigits2 v)).
    2:{ rewrite <- Z.mul_assoc, <- Z.pow_add_r by lia. do 2 f_equal. lia. }
    rewrite canon_mantissa by assumption.
    replace (Zdigits2 v - 53) with (- (53 - Zdigits2 v)) at 1 by lia.
    rewrite round_exact by lia. reflexivity.
  - unfold shl_align.
    destruct (Zdigits2 v - 53 - - j) as [|d|d] eqn:Ed; try lia.
    rewrite <- Em. rewrite round_exact by lia. reflexivity.
Qed.

Lemma nearest_float_canon (z : Z) :
  0 < z -> z < 2 ^ 53 -> nearest_float z = canon z.
Proof.
  intros Hz Hlt. unfold nearest_float.
  pose proof (normalize_exact z 0 Hz (Zdigits2_lt_pow2 z 53 Hz Hlt) ltac:(lia)) as H.
  rewrite Z.pow_0_r, Z.mul_1_r in H. exact H.
Qed.

Lemma canon_add (a b : Z) :
  0 < a -> 0 < b -> a + b < 2 ^ 53 ->
  SFadd 53 1024 (canon a) (canon b) = canon (a + b).
Proof.
  intros Ha Hb Hlt.
  assert (Hda : Zdigits2 a <= 53) by (apply Zdigits2_lt_pow2; lia).
  assert (Hdb : Zdigits2 b <= 53) by (apply Zdigits2_lt_pow2; lia).
  assert (Hdab : Zdigits2 (a + b) <= 53) by (apply Zdigits2_lt_pow2; lia).
  pose proof (Zdigits2_le a (a + b) Ha ltac:(lia)) as Hle_a.
  pose proof (Zdigits2_le b (a + b) Hb ltac:(lia)) as Hle_b.
  unfold canon at 1 2. unfold SFadd. cbn [cond_Zopp].
  set (ez := Z.min (Zdigits2 a - 53) (Zdigits2 b - 53)).
  rewrite !shl_align_value by (unfold ez; lia). cbn [fst].
  rewrite !canon_mantissa by assumption.
  assert (Hpa : 0 < a * 2 ^ (53 - Zdigits2 a) * 2 ^ (Zdigits2 a - 53 - ez)).
  { repeat apply Z.mul_pos_pos; try assumption; apply Z.pow_pos_nonneg;
      unfold ez; lia. }
  assert (Hpb : 0 < b * 2 ^ (53 - Zdigits2 b) * 2 ^ (Zdigits2 b - 53 - ez)).
  { repeat apply Z.mul_pos_pos; try assumption; apply Z.pow_pos_nonneg;
      unfold ez; lia. }
  rewrite !Z2Pos.id by assumption.
  replace (a * 2 ^ (53 - Zdigits2 a) * 2 ^ (Zdigits2 a - 53 - ez))
    with (a * 2 ^ (- ez)).
  2:{ rewrite <- Z.mul_assoc, <- Z.pow_add_r by (unfold ez; lia).
      do 2 f_equal. lia. }
  replace (b * 2 ^ (53 - Zdigits2 b) * 2 ^ (Zdigits2 b - 53 - ez))
    with (b * 2 ^ (- ez)).
  2:{ rewrite <- Z.mul_assoc, <- Z.pow_add_r by (unfold ez; lia).
      do 2 f_equal. lia. }
  rewrite <- Z.mul_add_distr_r.
  pose proof (normalize_exact (a + b) (- ez) ltac:(lia) Hdab
                ltac:(unfold ez; lia)) as H.
  rewrite Z.opp_involutive in H. exact H.
Qed.

Lemma canon_mul (a b : Z) :
  0 < a -> 0 < b -> a * b < 2 ^ 53 ->
  SFmul 53 1024 (canon a) (canon b) = canon (a * b).
Proof.
  intros Ha Hb Hlt.
  assert (Hab : 0 < a * b) by nia.
  assert (Hda : Zdigits2 a <= 53) by (apply Zdigits2_lt_pow2; nia).
  assert (Hdb : Zdigits2 b <= 53) by (apply Zdigits2_lt_pow2; nia).
  assert (Hdab : Zdigits2 (a * b) <= 53) by (apply Zdigits2_lt_pow2; lia).
  pose proof (Zdigits2_le a (a * b) Ha ltac:(nia)) as Hle_a.
  unfold canon at 1 2. unfold SFmul. cbn [xorb].
  rewrite Pos2Z.inj_mul, !canon_mantissa by assumption.
  replace (a * 2 ^ (53 - Zdigits2 a) * (b * 2 ^ (53 - Zdigits2 b)))
    with (a * b * 2 ^ (106 - Zdigits2 a - Zdigits2 b)).
  2:{ replace (106 - Zdigits2 a - Zdigits2 b)
        with ((53 - Zdigits2 a) + (53 - Zdigits2 b)) by lia.
      rewrite Z.pow_add_r by lia. ring. }
  replace (Zdigits2 a - 53 + (Zdigits2 b - 53))
    with (- (106 - Zdigits2 a - Zdigits2 b)) by lia.
  apply round_exact; lia.
Qed.

(** The divisor of line 190. *)
Lemma nearest_float_6e7 :
  nearest_float 60000000 = S754_finite false 8053063680000000 (-27).
Proof. reflexivity. Qed.

Lemma canon_div (m : Z) :
  0 < m -> 60000000 * m < 2 ^ 53 ->
  SFdiv 53 1024 (canon (60000000 * m)) (S754_finite false 8053063680000000 (-27))
  = canon m.
Proof.
  intros Hm Hlt.
  assert (Hx : 0 < 60000000 * m) by lia.
  assert (Hdx : Zdigits2 (60000000 * m) <= 53) by (apply Zdigits2_lt_pow2; lia).
  assert (Hdm : Zdigits2 m <= 53) by (apply Zdigits2_lt_pow2; lia).
  pose proof (Zdigits2_pos m Hm) as Hdm0.
  pose proof (Zdigits2_pos _ Hx) as Hdx0.
  assert (Hdxm : Zdigits2 (60000000 * m) <= Zdigits2 m + 26).
  { apply Zdigits2_lt_pow2; [assumption|].
    pose proof (proj2 (Z.log2_spec m Hm)) as Hs.
    rewrite Zdigits2_log2 by assumption.
    replace (Z.log2 m + 1 + 26) with (26 + Z.succ (Z.log2 m)) by lia.
    rewrite Z.pow_add_r by (pose proof (Z.log2_nonneg m); lia).
    change (2 ^ 26) with 67108864. nia. }
  unfold canon at 1. unfold SFdiv, SFdiv_core_binary. cbn [xorb].
  set (dx := Zdigits2 (60000000 * m)) in *.
  change (Zdigits2 (Z.pos (Z.to_pos (60000000 * m * 2 ^ (53 - dx)))))
    with (Zdigits2 (Z.pos (Z.to_pos (60000000 * m * 2 ^ (53 - dx))))).
  rewrite canon_mantissa by assumption. fold dx.
  rewrite Zdigits2_mul_pow2 by lia. fold dx.
  change (Zdigits2 8053063680000000) with 53.
  replace (Z.min (fexp 53 1024 (dx + (53 - dx) + (dx - 53) - (53 + -27)))
                 (dx - 53 - -27)) with (dx - 79)
    by (unfold fexp, emin; lia).
  replace (dx - 53 - -27 - (dx - 79)) with 53 by lia.
  rewrite Z.shiftl_mul_pow2 by lia.
  assert (Hq : 60000000 * m * 2 ^ (53 - dx) * 2 ^ 53
               = m * 2 ^ (79 - dx) * 8053063680000000).
  { replace (79 - dx) with ((53 - dx) + 26) by lia.
    rewrite Z.pow_add_r by lia.
    change (2 ^ 53) with 9007199254740992. change (2 ^ 26) with 67108864. ring. }
  rewrite Hq.
  assert (Hdiv : Z.div_eucl (m * 2 ^ (79 - dx) * 8053063680000000) 8053063680000000
                 = (m * 2 ^ (79 - dx), 0)).
  { pose proof (Z.div_mul (m * 2 ^ (79 - dx)) 8053063680000000 ltac:(lia)) as D.
    pose proof (Z.mod_mul (m * 2 ^ (79 - dx)) 8053063680000000 ltac:(lia)) as M.
    unfold Z.div, Z.modulo in D, M.
    destruct (Z.div_eucl (m * 2 ^ (79 - dx) * 8053063680000000) 8053063680000000).
    congruence. }
  rewrite Hdiv.
  change (new_location 8053063680000000 0) with loc_Exact.
  replace (dx - 79) with (- (79 - dx)) by lia.
  apply round_exact; lia.
Qed.

Lemma nearest_float_cases (z : Z) :
  0 <= z -> z < 2 ^ 53 ->
  (z = 0 /\ nearest_float z = S754_zero false) \/
  (0 < z /\ nearest_float z = canon z).
Proof.
  intros Hz Hlt. destruct (Z.eq_dec z 0) as [->|Hne].
  - left. split; reflexivity.
  - right. split; [lia|]. apply nearest_float_canon; lia.
Qed.

Lemma nearest_float_add (a b : Z) :
  0 <= a -> 0 <= b -> a + b < 2 ^ 53 ->
  SFadd 53 1024 (nearest_float a) (nearest_float b) = nearest_float (a + b).
Proof.
  intros Ha Hb Hlt.
  destruct (nearest_float_cases a Ha ltac:(lia)) as [[-> Ea]|[Ha' Ea]];
    destruct (nearest_float_cases b Hb ltac:(lia)) as [[-> Eb]|[Hb' Eb]];
    rewrite ?Z.add_0_l, ?Z.add_0_r; rewrite ?Ea, ?Eb; try reflexivity.
  rewrite (nearest_float_canon (a + b)) by lia. now apply canon_add.
Qed.

Lemma nearest_float_mul (a b : Z) :
  0 <= a < 2 ^ 53 -> 0 <= b < 2 ^ 53 -> a * b < 2 ^ 53 ->
  SFmul 53 1024 (nearest_float a) (nearest_float b) = nearest_float (a * b).
Proof.
  intros [Ha Ha53] [Hb Hb53] Hlt.
  destruct (nearest_float_cases a Ha Ha53) as [[-> Ea]|[Ha' Ea]];
    destruct (nearest_float_cases b Hb Hb53) as [[-> Eb]|[Hb' Eb]];
    rewrite ?Z.mul_0_l, ?Z.mul_0_r; rewrite ?Ea, ?Eb; try reflexivity.
  rewrite (nearest_float_canon (a * b)) by nia. now apply canon_mul.
Qed.

Lemma nearest_float_div (m : Z) :
  0 <= m -> 60000000 * m < 2 ^ 53 ->
  SFdiv 53 1024 (nearest_float (60000000 * m)) (nearest_float 60000000)
  = nearest_float m.
Proof.
  intros Hm Hlt. rewrite nearest_float_6e7.
  destruct (Z.eq_dec m 0) as [->|Hne]; [reflexivity|].
  rewrite (nearest_float_canon m), (nearest_float_canon (60000000 * m)) by lia.
  apply canon_div; lia.
Qed.

(** The formula on whole minutes. *)
Lemma minutes_formula_whole (m p : Z) :
  0 <= m -> 60000000 * m < 2 ^ 53 -> 0 <= p < 2 ^ 53 -> m * p < 2 ^ 53 ->
  minutes_formula (60000000 * m) p = nearest_float (m * p).
Proof.
  intros Hm Hlt Hp Hmp. unfold minutes_formula.
  rewrite nearest_float_div by assumption.
  apply nearest_float_mul; lia.
Qed.

Lemma sum_nonneg (zs : list Z) : Forall (fun z => 0 <= z) zs -> 0 <= sum zs.
Proof. induction 1; simpl; lia. Qed.

Lemma fold_nearest_float (zs : list Z) :
  Forall (fun z => 0 <= z) zs ->
  forall acc, 0 <= acc -> acc + sum zs < 2 ^ 53 ->
    fold_left (SFadd 53 1024) (map nearest_float zs) (nearest_float acc)
    = nearest_float (acc + sum zs).
Proof.
  induction 1 as [|z zs Hz Hzs IH]; intros acc Hacc Hlt; cbn [map fold_left].
  - change (sum []) with 0. now rewrite Z.add_0_r.
  - pose proof (sum_nonneg zs Hzs) as Hs.
    change (sum (z :: zs)) with (z + sum zs) in *.
    rewrite nearest_float_add by lia.
    rewrite IH by lia. f_equal. lia.
Qed.

Lemma float_total_nearest (zs : list Z) :
  zs <> [] -> Forall (fun z => 0 <= z) zs -> sum zs < 2 ^ 53 ->
  float_total (map nearest_float zs) = PFloat (nearest_float (sum zs)).
Proof.
  intros Hne Hpos Hlt. destruct zs as [|z zs]; [congruence|].
  apply Forall_cons_iff in Hpos. destruct Hpos as [Hz Hzs].
  pose proof (sum_nonneg zs Hzs) as Hs.
  change (sum (z :: zs)) with (z + sum zs) in *.
  cbn [map float_total].
  change (S754_zero false) with (nearest_float 0).
  rewrite nearest_float_add by lia.
  rewrite (fold_nearest_float zs Hzs) by lia. reflexivity.
Qed.

Lemma In_le_sum (zs : list Z) (z : Z) :
  Forall (fun z => 0 <= z) zs -> In z zs -> z <= sum zs.
Proof.
  induction 1 as [|a zs Ha Hzs IH]; intros Hin; [destruct Hin|].
  pose proof (sum_nonneg zs Hzs) as Hs.
  change (sum (a :: zs)) with (a + sum zs).
  destruct Hin as [->|Hin]; [lia|]. specialize (IH Hin). lia.
Qed.

Lemma map_Some_inj {A} (l l' : list A) : map Some l = map Some l' -> l = l'.
Proof.
  revert l'. induction l as [|a l IH]; intros [|a' l'] H; try discriminate.
  - reflexivity.
  - cbn [map] in H. injection H as -> H. f_equal. now apply IH.
Qed.

(** ** The formula of the minutes *)

Lemma float_of_int_nearest (z : Z) (f : float) :
  float_of_int z = OK f -> f = nearest_float z.
Proof.
  unfold float_of_int, nearest_float.
  change (binary_normalize prec emax z 0 false)
    with (binary_normalize 53 1024 z 0 false).
  destruct (binary_normalize 53 1024 z 0 false); congruence.
Qed.

(** The right-hand side of line 190 is the formula on the ticks and the
    play count of the item. *)
Lemma minutes_of_item_formula (user : string) (x : Item) (t : float) :
  minutes_of_item user x = OK t ->
  exists ticks plays,
    ticks_and_plays user x = Some (ticks, plays) /\
    t = minutes_formula ticks plays.
Proof.
  unfold minutes_of_item, field, ticks_and_plays, play_count, dict_getitem,
    truediv_int_float, mul_float_int.
  destruct (item_RunTimeTicks x) as [ticks|]; [|discriminate]. cbn [bind].
  destruct (float_of_int ticks) as [ft|] eqn:Eft; [|discriminate]. cbn [bind].
  change (is_zero float_6e7) with false. cbv iota. cbn [bind].
  destruct (dict_get (item_UserData x) user) as [entry|]; [|discriminate].
  cbn [bind].
  destruct (float_of_int (PlayCount entry)) as [fp|] eqn:Efp; [|discriminate].
  cbn [bind]. intros [= <-].
  exists ticks, (PlayCount entry). split; [reflexivity|].
  rewrite (float_of_int_nearest _ _ Eft), (float_of_int_nearest _ _ Efp).
  reflexivity.
Qed.

Lemma minutes_of_items_formula (user : string) (items : list Item) :
  forall ts, map_result (minutes_of_item user) items = OK ts ->
    exists rows,
      map (ticks_and_plays user) items = map Some rows /\
      ts = formula_minutes rows /\
      forall row, In row rows -> snd row = 0 ->
        is_zero (minutes_formula (fst row) (snd row)) = true.
Proof.
  induction items as [|x xs IH]; intros ts; simpl.
  - intros [= <-]. exists []. repeat split. intros row [].
  - destruct (minutes_of_item user x) as [t|] eqn:Et; [|discriminate]. cbn [bind].
    destruct (map_result (minutes_of_item user) xs) as [ts'|]; [|discriminate].
    cbn [bind]. intros [= <-].
    destruct (IH ts' eq_refl) as (rows & Hrows & -> & Hzero).
    destruct (minutes_of_item_formula _ _ _ Et) as (ticks & plays & Hrow & ->).
    exists ((ticks, plays) :: rows). cbn [map]. rewrite Hrow, Hrows.
    repeat split. intros row [<-|Hin] Hz; [|now apply Hzero].
    cbn [fst snd] in *. subst plays.
    apply (minutes_of_item_zero user x); [|assumption].
    unfold ticks_and_plays in Hrow. unfold play_count, dict_getitem.
    destruct (item_RunTimeTicks x); [|discriminate].
    destruct (dict_get (item_UserData x) user) as [entry|]; [|discriminate].
    cbn [bind]. congruence.
Qed.

(** C3. Where the loops of lines 188 to 190 complete, every item has its
    ticks and an entry of the user, and the entry of a user of the list in
    [minutes_listened] is the total of the items' minutes by the formula
    [(runtime_ticks / 6e7) * play_count] ([minutes_formula], on the ticks
    and the play counts read from the items), in the order of the items:
    the floats are added one after the other to the [int] 0
    ([float_total]), and nothing rounds the total.  An item of play count 0
    adds a zero, and the zeros can be left out of the sum.  The loops
    complete where every item has its ticks and an entry for every user,
    all below [2 ** 1023] in magnitude.  And where the items last whole
    minutes ([60000000 * whole x] ticks) and no number is negative or
    reaches [2 ** 53], the total is the sum of [whole x * plays x] over the
    items, without any error of rounding: the float of that integer. *)
Theorem minutes_listened_is_float_sum :
  forall (item_data : list Item) (users : list User) (u : User),
    In u users ->
    (forall minutes,
       find_minutes_listened item_data users = OK minutes ->
       exists rows,
         map (ticks_and_plays (user_Name u)) item_data = map Some rows /\
         dict_get minutes (user_Name u)
           = Some (float_total (formula_minutes rows)) /\
         same_number (float_total (formula_minutes rows))
                     (float_total (filter nonzero (formula_minutes rows))) /\
         (forall row, In row rows -> snd row = 0 ->
            is_zero (minutes_formula (fst row) (snd row)) = true)) /\
    ((forall u' x, In u' users -> In x item_data ->
        exists ticks plays,
          ticks_and_plays (user_Name u') x = Some (ticks, plays) /\
          convertible ticks /\ convertible plays) ->
     exists minutes, find_minutes_listened item_data users = OK minutes) /\
    (forall (minutes : pydict pynum) (whole plays : Item -> Z),
       find_minutes_listened item_data users = OK minutes ->
       item_data <> [] ->
       (forall x, In x item_data ->
          ticks_and_plays (user_Name u) x = Some (60000000 * whole x, plays x) /\
          0 <= whole x /\ 60000000 * whole x < 2 ^ 53 /\
          0 <= plays x < 2 ^ 53) ->
       sum (map (fun x => whole x * plays x) item_data) < 2 ^ 53 ->
       dict_get minutes (user_Name u)
       = Some (PFloat (nearest_float
                         (sum (map (fun x => whole x * plays x) item_data))))).
Proof.
  intros item_data users u Hu.
  pose proof (find_minutes_listened_spec item_data users) as H.
  assert (Hmain : forall minutes,
            find_minutes_listened item_data users = OK minutes ->
            exists rows,
              map (ticks_and_plays (user_Name u)) item_data = map Some rows /\
              dict_get minutes (user_Name u)
                = Some (float_total (formula_minutes rows)) /\
              same_number (float_total (formula_minutes rows))
                          (float_total (filter nonzero (formula_minutes rows))) /\
              (forall row, In row rows -> snd row = 0 ->
                 is_zero (minutes_formula (fst row) (snd row)) = true)).
  { intros minutes E. rewrite E in H. destruct (H u Hu) as (total & Ht & Hg).
    destruct (add_minutes_OK_inv _ _ _ _ Ht) as [ts Hts].
    rewrite (add_minutes_sum _ _ _ Hts) in Ht. injection Ht as <-.
    destruct (minutes_of_items_formula _ _ _ Hts) as (rows & Hrows & -> & Hzero).
    exists rows. split; [assumption|]. split; [assumption|].
    split; [|assumption].
    exact (float_sum_drop_zeros (formula_minutes rows)). }
  split; [exact Hmain|]. split.
  2:{ intros minutes whole plays E Hne Hrows Hlt.
      destruct (Hmain minutes E) as (rows & Hmap & Hget & _).
      assert (Erows : rows = map (fun x => (60000000 * whole x, plays x)) item_data).
      { apply map_Some_inj. rewrite <- Hmap, map_map. symmetry.
        apply map_ext_in. intros x Hx. now destruct (Hrows x Hx) as [-> _]. }
      subst rows. rewrite Hget. f_equal.
      assert (Hpos : Forall (fun z => 0 <= z)
                       (map (fun x => whole x * plays x) item_data)).
      { apply Forall_forall. intros z Hz. apply in_map_iff in Hz.
        destruct Hz as (x & <- & Hx). destruct (Hrows x Hx) as (_ & Hw & _ & Hp & _).
        apply Z.mul_nonneg_nonneg; assumption. }
      unfold formula_minutes. rewrite map_map. cbn [fst snd].
      rewrite (map_ext_in _ (fun x => nearest_float (whole x * plays x))).
      2:{ intros x Hx. destruct (Hrows x Hx) as (_ & Hw & Ht & Hp).
          apply minutes_formula_whole; try assumption.
          pose proof (In_le_sum _ (whole x * plays x) Hpos
                        (in_map (fun x => whole x * plays x) _ _ Hx)).
          lia. }
      rewrite <- (map_map (fun x => whole x * plays x) nearest_float).
      apply float_total_nearest; try assumption.
      destruct item_data; [congruence | discriminate]. }
  - intros Hall.
    destruct (find_minutes_listened item_data users) as [minutes|e]; [eauto|].
    destruct H as (u' & Hu' & Hf).
    destruct (map_result_pointwise (minutes_of_item (user_Name u')) item_data)
      as [ts Hts].
    { intros x Hx. destruct (Hall u' x Hu' Hx) as (ticks & plays & Hrow & Ht & Hp).
      unfold ticks_and_plays in Hrow.
      destruct (item_RunTimeTicks x) as [ticks'|] eqn:Eticks; [|discriminate].
      destruct (dict_get (item_UserData x) (user_Name u')) as [entry|] eqn:Eentry;
        [|discriminate].
      injection Hrow as -> <-.
      apply (minutes_of_item_OK _ _ ticks (PlayCount entry)); auto.
      unfold play_count, dict_getitem. now rewrite Eentry. }
    rewrite (add_minutes_sum _ _ _ Hts) in Hf. discriminate.
Qed.

(** ** Effects *)

Lemma io_bind_trace {A B} (c : io A) (k : A -> io B) :
  fst (io_bind c k)
  = fst c ++ match snd c with OK a => fst (k a) | Raise _ => [] end.
Proof.
  destruct c as [t [a|e]]; simpl; [|now rewrite app_nil_r].
  destruct (k a); reflexivity.
Qed.

Lemma io_bind_OK {A B} (c : io A) (k : A -> io B) (t : list event) (a : A) :
  c = (t, OK a) -> io_bind c k = (t ++ fst (k a), snd (k a)).
Proof. intros ->. simpl. destruct (k a); reflexivity. Qed.

Lemma io_bind_Raise {A B} (c : io A) (k : A -> io B) (t : list event) (e : exn) :
  c = (t, Raise e) -> io_bind c k = (t, Raise e).
Proof. now intros ->. Qed.

Lemma io_bind_result_OK {A B} (c : io A) (k : A -> io B) (t : list event) (b : B) :
  io_bind c k = (t, OK b) ->
  exists t1 a t2, c = (t1, OK a) /\ k a = (t2, OK b) /\ t = t1 ++ t2.
Proof.
  destruct c as [t1 [a|e]]; simpl; [|discriminate].
  destruct (k a) as [t2 r] eqn:E. intros [= <- ->]. eauto 6.
Qed.

Lemma early_bind {A B} (c : io A) (k : A -> io B) :
  early_only (fst c) -> (forall a, early_only (fst (k a))) ->
  early_only (fst (io_bind c k)).
Proof.
  intros Hc Hk. rewrite io_bind_trace. apply Forall_app. split; [assumption|].
  destruct (snd c); [apply Hk | constructor].
Qed.

Lemma early_emit (ev : event) : late ev = false -> early_only (fst (emit ev)).
Proof. intros H. repeat constructor. assumption. Qed.

Lemma early_ret {A} (a : A) : early_only (fst (io_ret a)).
Proof. constructor. Qed.

Lemma early_lift {A} (r : result A) : early_only (fst (lift r)).
Proof. constructor. Qed.

Lemma early_io_fold {A S} (xs : list A) (body : A -> S -> io S) :
  (forall x s, early_only (fst (body x s))) ->
  forall s, early_only (fst (io_fold xs body s)).
Proof.
  intros Hb. induction xs as [|x xs IH]; intros s; simpl; [constructor|].
  apply early_bind; auto.
Qed.

Lemma early_io_map {A B} (f : A -> io B) (xs : list A) :
  (forall x, early_only (fst (f x))) -> early_only (fst (io_map f xs)).
Proof.
  intros Hf. induction xs as [|x xs IH]; simpl; [constructor|].
  apply early_bind; [auto|]. intros y. apply early_bind; [auto|].
  intros ys. apply early_ret.
Qed.

Ltac early :=
  repeat first
    [ apply early_ret | apply early_lift
    | apply early_emit; reflexivity
    | apply early_bind; [|intros ?] ].

Section RunFacts.
Variable w : World.
Variables num_top_songs num_top_artists : Z.

Lemma early_fetch : early_only (fst (fetch w)).
Proof.
  unfold fetch, get_all_audio_items, get_all_users, add_userdata. early.
  - destruct (isdir w OutputDir); early.
  - destruct (isdir w AssetsDir); early.
  - destruct (srv_items w); early.
  - destruct (srv_users w); early.
  - apply early_io_map. intros item. early.
    apply early_io_fold. intros user d. early.
    destruct (srv_userdata w (item_Id item) (user_Id user)); early.
Qed.

Lemma early_aggregation (item_data : list Item) (users : list User) :
  early_only (fst (aggregation num_top_songs num_top_artists item_data users)).
Proof. unfold aggregation. early. Qed.

(** The users that [fetch] returns are those of the server. *)
Lemma fetch_users (t : list event) (item_data : list Item) (users : list User) :
  fetch w = (t, OK (item_data, users)) -> srv_users w = Some users.
Proof.
  unfold fetch. intros H.
  repeat (apply io_bind_result_OK in H; destruct H as (? & ? & ? & ? & H & ?)).
  unfold get_all_users in *.
  match goal with
  | Hu : io_bind (emit (EvRequest ReqUsers)) _ = _ |- _ =>
      simpl in Hu; destruct (srv_users w) as [us|]; simpl in Hu; [|discriminate];
      injection Hu as _ <-
  end.
  injection H as _ _ <-. reflexivity.
Qed.

(** The aggregation with its prints, where it completes. *)
Lemma aggregation_OK (item_data : list Item) (users : list User) (r : Recap) :
  aggregate item_data users num_top_songs num_top_artists = OK r ->
  aggregation num_top_songs num_top_artists item_data users
  = ([EvPrint (MsgFindingSongs num_top_songs);
      EvPrint (MsgFindingArtists num_top_artists);
      EvPrint MsgFindingMinutes], OK r).
Proof.
  unfold aggregate, aggregation. intros H.
  destruct (find_most_listened_songs item_data users num_top_songs); [|discriminate].
  destruct (find_most_listened_artists item_data users num_top_artists); [|discriminate].
  destruct (find_minutes_listened item_data users); [|discriminate].
  simpl in H. injection H as <-. reflexivity.
Qed.

Lemma aggregation_result (item_data : list Item) (users : list User) :
  snd (aggregation num_top_songs num_top_artists item_data users)
  = aggregate item_data users num_top_songs num_top_artists.
Proof.
  unfold aggregate, aggregation.
  destruct (find_most_listened_songs item_data users num_top_songs); [|reflexivity].
  destruct (find_most_listened_artists item_data users num_top_artists); [|reflexivity].
  destruct (find_minutes_listened item_data users); reflexivity.
Qed.
End RunFacts.

(** The keys of the three dictionaries are the names of the users. *)
Lemma songs_keys (item_data : list Item) (users : list User) (n : Z)
  (songs : pydict (list Item)) (k : string) :
  find_most_listened_songs item_data users n = OK songs ->
  In k (dict_keys songs) <-> In k (map user_Name users).
Proof.
  unfold find_most_listened_songs. intros H.
  destruct (dict_comp_const user_Name (@nil Item) users) as (Hnd & Hkeys & _).
  pose proof (for_each_local _ _ (songs_step_local item_data n) _ _ Hnd (fun k H => H)) as L.
  rewrite H in L. destruct L as (-> & _). apply Hkeys.
Qed.

(** C9. Where no user of the server is named maf: a run whose requests
    succeed and whose aggregation completes ends with [KeyError] of that
    name, raised by the debug print of line 193 right after the three prints
    of the aggregation; no run requests an image or writes a report
    ([early_only]), and no run returns. *)
Theorem no_maf_raises_key_error :
  forall (w : World) (num_top_songs num_top_artists : Z),
    (forall users u, srv_users w = Some users -> In u users ->
       user_Name u <> "maf"%string) ->
    (forall t0 item_data users r,
       fetch w = (t0, OK (item_data, users)) ->
       aggregate item_data users num_top_songs num_top_artists = OK r ->
       generate_jellyfin_recap w num_top_songs num_top_artists
       = (t0 ++ [EvPrint (MsgFindingSongs num_top_songs);
                 EvPrint (MsgFindingArtists num_top_artists);
                 EvPrint MsgFindingMinutes],
          Raise (KeyError "maf"))) /\
    early_only (fst (generate_jellyfin_recap w num_top_songs num_top_artists)) /\
    snd (generate_jellyfin_recap w num_top_songs num_top_artists) <> OK tt.
Proof.
  intros w ns na Hmaf.
  assert (Hreport : forall t0 item_data users r,
    fetch w = (t0, OK (item_data, users)) ->
    aggregate item_data users ns na = OK r ->
    report w ns na r = ([], Raise (KeyError "maf"))).
  { intros t0 item_data users r Hf Ha. unfold report, debug_print.
    assert (Hget : dict_get (most_listened_songs r) "maf" = None).
    { destruct (dict_get (most_listened_songs r) "maf") as [v|] eqn:E; [|reflexivity].
      exfalso. apply dict_get_Some_In in E.
      unfold aggregate in Ha.
      destruct (find_most_listened_songs item_data users ns) as [songs|] eqn:Es;
        [|discriminate].
      destruct (find_most_listened_artists item_data users na); [|discriminate].
      destruct (find_minutes_listened item_data users); [|discriminate].
      simpl in Ha. injection Ha as <-. simpl in E.
      apply (songs_keys _ _ _ _ _ Es) in E. apply in_map_iff in E.
      destruct E as (u & Hu & Hin).
      exact (Hmaf users u (fetch_users w _ _ _ Hf) Hin Hu). }
    rewrite (dict_getitem_missing _ _ Hget). reflexivity. }
  assert (Hrun : forall t0 item_data users r,
    fetch w = (t0, OK (item_data, users)) ->
    aggregate item_data users ns na = OK r ->
    generate_jellyfin_recap w ns na
    = (t0 ++ [EvPrint (MsgFindingSongs ns); EvPrint (MsgFindingArtists na);
              EvPrint MsgFindingMinutes], Raise (KeyError "maf"))).
  { intros t0 item_data users r Hf Ha. unfold generate_jellyfin_recap.
    rewrite (io_bind_OK _ _ _ _ Hf). cbn [fst snd].
    rewrite (io_bind_OK _ _ _ _ (aggregation_OK ns na _ _ _ Ha)).
    rewrite (Hreport _ _ _ _ Hf Ha). cbn [fst snd]. now rewrite app_nil_r. }
  split; [exact Hrun|].
  destruct (fetch w) as [t0 [[item_data users]|e]] eqn:Hf.
  - destruct (aggregate item_data users ns na) as [r|e] eqn:Ha.
    + rewrite (Hrun _ _ _ _ eq_refl Ha). cbn [fst snd]. split; [|discriminate].
      apply Forall_app. split.
      * pose proof (early_fetch w) as H. now rewrite Hf in H.
      * repeat constructor.
    + unfold generate_jellyfin_recap. rewrite (io_bind_OK _ _ _ _ Hf). cbn [fst snd].
      pose proof (aggregation_result ns na item_data users) as Hr.
      pose proof (early_aggregation ns na item_data users) as He.
      destruct (aggregation ns na item_data users) as [t1 r1]. cbn [fst snd] in *.
      rewrite Ha in Hr. subst r1. cbn [io_bind fst snd]. split; [|discriminate].
      apply Forall_app. split; [|assumption].
      pose proof (early_fetch w) as H. now rewrite Hf in H.
  - unfold generate_jellyfin_recap. rewrite (io_bind_Raise _ _ _ _ Hf). cbn [fst snd].
    split; [|discriminate].
    pose proof (early_fetch w) as H. now rewrite Hf in H.
Qed.

Lemma counts_of_defined (user : string) (item_data : list Item) :
  (forall x, In x item_data -> exists n, play_count user x = OK n) ->
  exists pc, counts user item_data pc.
Proof.
  intros H. exists (plays_of user).
  intros x Hx. destruct (H x Hx) as [n Hn]. unfold play_count, dict_getitem in Hn.
  unfold plays_of.
  destruct (dict_get (item_UserData x) user) as [entry|]; [|discriminate].
  exists entry. split; reflexivity.
Qed.

Lemma find_most_listened_artists_total (item_data : list Item) (users : list User)
  (n : Z) :
  (forall u, In u users -> exists pc, counts (user_Name u) item_data pc) ->
  exists by_user, find_most_listened_artists item_data users n = OK by_user.
Proof.
  intros Hall. pose proof (find_most_listened_artists_spec item_data users n) as H.
  destruct (find_most_listened_artists item_data users n) as [by_user|e]; [eauto|].
  destruct H as (u & Hu & Hf). destruct (Hall u Hu) as [pc Hpc].
  destruct (top_artists_total item_data n (user_Name u) pc Hpc) as (? & _ & Ht).
  congruence.
Qed.


(** C5. On a server without audio items the aggregation gives maf empty
    lists and 0 minutes; the run then raises [IndexError] at line 198,
    before any image is requested and any report is written. *)
Lemma empty_catalog_raises_index_error :
  aggregate [] [maf] 5 5
  = OK {| most_listened_songs := [("maf"%string, [])];
          most_listened_artists := [("maf"%string, [])];
          minutes_listened := [("maf"%string, PInt 0)] |} /\
  snd (generate_jellyfin_recap empty_server 5 5) = Raise IndexError /\
  filter late (fst (generate_jellyfin_recap empty_server 5 5)) = [].
Proof. repeat split; reflexivity. Qed.

(** C6. On a server with one song of one artist and the default numbers
    of top songs and artists, the report of maf stops with [IndexError] at
    the second row: the lists have one element and the loop of line 258 asks
    for five. *)
Lemma short_lists_raise_index_error :
  snd (generate_jellyfin_recap one_song_server 5 5) = Raise IndexError /\
  filter late (fst (generate_jellyfin_recap one_song_server 5 5))
  = [EvRequest (ReqImage "i1"); EvSaveImage (AssetFile "i1");
     EvOpen (HtmlFile "maf");
     EvWrite (HtmlFile "maf") HtmlHead;
     EvWrite (HtmlFile "maf") (ImgTag "i1");
     EvWrite (HtmlFile "maf") TableHead;
     EvWrite (HtmlFile "maf") RowOpen;
     EvWrite (HtmlFile "maf") (ArtistCell 1 "A");
     EvWrite (HtmlFile "maf") (SongCell 1 "Song");
     EvWrite (HtmlFile "maf") RowClose;
     EvWrite (HtmlFile "maf") RowOpen].
Proof. split; reflexivity. Qed.

(** ** The report *)

Section Report.
Variable w : World.
Variables num_top_songs num_top_artists : Z.
Variable r : Recap.
Variable user : string.
Variable songs : list Item.
Variable artists : list (string * Z).
Hypothesis user_songs : dict_get (most_listened_songs r) user = Some songs.
Hypothesis user_artists : dict_get (most_listened_artists r) user = Some artists.

Lemma write_row_OK (i : nat) :
  (i < List.length artists)%nat -> (i < List.length songs)%nat ->
  write_row r user i = (table_row user artists songs i, OK tt).
Proof.
  intros Ha Hs. unfold write_row, table_row, list_getitem.
  rewrite (dict_getitem_OK _ _ _ user_songs), (dict_getitem_OK _ _ _ user_artists).
  apply nth_error_Some in Ha, Hs.
  cbn [io_bind lift emit fst snd].
  destruct (nth_error artists i) as [a|]; [|tauto].
  cbn [io_bind lift emit fst snd].
  destruct (nth_error songs i) as [s|]; [|tauto]. reflexivity.
Qed.

Lemma write_rows_OK (k start : nat) :
  (start + k <= List.length artists)%nat -> (start + k <= List.length songs)%nat ->
  io_for (seq start k) (write_row r user)
  = (flat_map (table_row user artists songs) (seq start k), OK tt).
Proof.
  revert start. induction k as [|k IH]; intros start Ha Hs; [reflexivity|].
  cbn [seq io_for flat_map].
  rewrite (io_bind_OK _ _ _ _ (write_row_OK start ltac:(lia) ltac:(lia))).
  rewrite IH by lia. reflexivity.
Qed.

(** The report of a user whose file can be opened, who has a top song and
    whose two lists have as many elements as the table has rows: the file
    is opened and written from the head to the foot, with the image of the
    first top song and one row for every index below the smaller of the
    two numbers. *)
Lemma write_report_OK (first : Item) (minutes : pynum) :
  can_open w (HtmlFile user) = true ->
  dict_get (minutes_listened r) user = Some minutes ->
  nth_error songs 0 = Some first ->
  Z.min num_top_songs num_top_artists <= Z.of_nat (List.length artists) ->
  Z.min num_top_songs num_top_artists <= Z.of_nat (List.length songs) ->
  write_report w num_top_songs num_top_artists r user
  = ([EvOpen (HtmlFile user);
      EvWrite (HtmlFile user) HtmlHead;
      EvWrite (HtmlFile user) (ImgTag (item_Id first));
      EvWrite (HtmlFile user) TableHead]
     ++ flat_map (table_row user artists songs)
          (seq 0 (Z.to_nat (Z.min num_top_songs num_top_artists)))
     ++ [EvWrite (HtmlFile user) TableClose;
         EvWrite (HtmlFile user) (MinutesLine minutes);
         EvWrite (HtmlFile user) HtmlFoot],
     OK tt).
Proof.
  intros Hopen Hm Hfirst Ha Hs.
  unfold write_report, open_file, top_song_id, list_getitem, range.
  rewrite Hopen, (dict_getitem_OK _ _ _ user_songs), (dict_getitem_OK _ _ _ Hm).
  cbn [bind]. rewrite Hfirst. cbn [bind lift emit io_bind app fst snd].
  rewrite write_rows_OK by lia. cbn [io_bind app fst snd]. reflexivity.
Qed.
End Report.

(** ** Every user on its own *)

(** The three entries of a user depend on the items and on the user, not
    on the other users of the list. *)
Lemma recap_of_a_user_is_its_own :
  forall (item_data : list Item) (users users' : list User)
         (num_top_songs num_top_artists : Z) (u : User) (r r' : Recap),
    In u users -> In u users' ->
    aggregate item_data users num_top_songs num_top_artists = OK r ->
    aggregate item_data users' num_top_songs num_top_artists = OK r' ->
    dict_get (most_listened_songs r) (user_Name u)
      = dict_get (most_listened_songs r') (user_Name u) /\
    dict_get (most_listened_artists r) (user_Name u)
      = dict_get (most_listened_artists r') (user_Name u) /\
    dict_get (minutes_listened r) (user_Name u)
      = dict_get (minutes_listened r') (user_Name u).
Proof.
  intros item_data users users' ns na u r r' Hu Hu'. unfold aggregate.
  pose proof (find_most_listened_songs_spec item_data users ns) as Hs.
  pose proof (find_most_listened_artists_spec item_data users na) as Ha.
  pose proof (find_minutes_listened_spec item_data users) as Hm.
  pose proof (find_most_listened_songs_spec item_data users' ns) as Hs'.
  pose proof (find_most_listened_artists_spec item_data users' na) as Ha'.
  pose proof (find_minutes_listened_spec item_data users') as Hm'.
  destruct (find_most_listened_songs item_data users ns) as [songs|]; [|discriminate].
  destruct (find_most_listened_artists item_data users na) as [artists|]; [|discriminate].
  destruct (find_minutes_listened item_data users) as [minutes|]; [|discriminate].
  destruct (find_most_listened_songs item_data users' ns) as [songs'|]; [|discriminate].
  destruct (find_most_listened_artists item_data users' na) as [artists'|]; [|discriminate].
  destruct (find_minutes_listened item_data users') as [minutes'|]; [|discriminate].
  cbn [bind]. intros [= <-] [= <-].
  cbn [most_listened_songs most_listened_artists minutes_listened].
  destruct (Hs u Hu) as (t1 & E1 & ->). destruct (Hs' u Hu') as (t1' & E1' & ->).
  destruct (Ha u Hu) as (t2 & E2 & ->). destruct (Ha' u Hu') as (t2' & E2' & ->).
  destruct (Hm u Hu) as (t3 & E3 & ->). destruct (Hm' u Hu') as (t3' & E3' & ->).
  repeat split; congruence.
Qed.

(** ** The store *)

Module StoreFacts.
Import Store StoreLogic.
Local Open Scope store_scope.
Local Open Scope nat_scope.

Lemma update_length (s : store) (l : ref) (o : object) :
  List.length (update s l o) = List.length s.
Proof.
  revert l. induction s as [|x s IH]; intros [|l]; simpl; auto.
Qed.

Lemma update_other (s : store) (l l' : ref) (o : object) :
  l' <> l -> nth_error (update s l o) l' = nth_error s l'.
Proof.
  revert l l'. induction s as [|x s IH]; intros [|l] [|l'] H; simpl; auto.
  - tauto.
Qed.

Lemma cell_app (l : ref) (o o' : object) (s : store) :
  cell l o s -> cell l o (s ++ [o']).
Proof.
  unfold cell. intros H. rewrite nth_error_app1; [assumption|].
  apply nth_error_Some. congruence.
Qed.

Lemma cell_new (o : object) (s : store) : cell (List.length s) o (s ++ [o]).
Proof.
  unfold cell. rewrite nth_error_app2 by lia. now rewrite Nat.sub_diag.
Qed.

Lemma cell_lt (l : ref) (o : object) (s : store) : cell l o s -> l < List.length s.
Proof. unfold cell. intros H. apply nth_error_Some. congruence. Qed.

Lemma cell_update (l l' : ref) (o o' : object) (s : store) :
  l <> l' -> cell l o s -> cell l o (update s l' o').
Proof. unfold cell. intros Hne H. now rewrite update_other. Qed.

Section Rules.
Context {A : Type}.
Variable n : nat.
Implicit Types (P : store -> Prop) (Q : A -> store -> Prop).

Lemma hoare_ret P Q (a : A) : (forall s, P s -> Q a s) -> hoare n P (ret a) Q.
Proof.
  intros H s Hn HP. simpl. repeat split; auto. intros a' [= <-]. auto.
Qed.

Lemma hoare_raise P Q (e : exn) : hoare n P (raise e) Q.
Proof. intros s Hn HP. simpl. repeat split; auto. discriminate. Qed.

Lemma hoare_lift P (r : result A) : hoare n P (lift r) (fun _ => P).
Proof. intros s Hn HP. simpl. repeat split; auto. Qed.

Lemma hoare_pre P P' Q (c : M A) :
  hoare n P c Q -> (forall s, P' s -> P s) -> hoare n P' c Q.
Proof. intros H HP s Hn HP'. apply H; auto. Qed.

(** A fact that does not depend on the store. *)
Lemma hoare_pure (F : Prop) P Q (c : M A) :
  (F -> hoare n P c Q) -> hoare n (fun s => F /\ P s) c Q.
Proof. intros H s Hn [HF HP]. now apply H. Qed.

Lemma hoare_exists {X} (P : X -> store -> Prop) Q (c : M A) :
  (forall x, hoare n (P x) c Q) -> hoare n (fun s => exists x, P x s) c Q.
Proof. intros H s Hn [x HP]. now apply (H x). Qed.

(** A computation that leaves the store as it is. *)
Lemma hoare_readonly P (c : M A) :
  (forall s, snd (c s) = s) -> hoare n P c (fun _ => P).
Proof.
  intros H s Hn HP. rewrite H. repeat split; auto.
Qed.
End Rules.

Lemma hoare_bind {A B} (n : nat) (P : store -> Prop) (Q : A -> store -> Prop)
  (R : B -> store -> Prop) (c : M A) (k : A -> M B) :
  hoare n P c Q -> (forall a, hoare n (Q a) (k a) R) ->
  hoare n P (mbind c k) R.
Proof.
  intros Hc Hk s Hn HP. destruct (Hc s Hn HP) as (H1 & H2 & H3).
  unfold mbind. destruct (c s) as [[a|e] s1]; simpl in *.
  - destruct (Hk a s1 ltac:(lia) (H3 a eq_refl)) as (K1 & K2 & K3).
    repeat split; [lia | | assumption].
    intros l Hl. rewrite K2, H2; auto.
  - repeat split; auto. discriminate.
Qed.

Lemma hoare_alloc (n : nat) (P : store -> Prop) (Q : ref -> store -> Prop)
  (o : object) :
  (forall s, n <= List.length s -> P s -> Q (List.length s) (s ++ [o])) ->
  hoare n P (alloc o) Q.
Proof.
  intros H s Hn HP. unfold alloc. simpl. rewrite length_app. simpl.
  repeat split; [lia | |].
  - intros l Hl. apply nth_error_app1. lia.
  - intros r [= <-]. auto.
Qed.

Lemma hoare_write (n : nat) (P : store -> Prop) (Q : unit -> store -> Prop)
  (l : ref) (o : object) :
  n <= l -> (forall s, P s -> Q tt (update s l o)) ->
  hoare n P (write l o) Q.
Proof.
  intros Hl H s Hn HP. unfold write. simpl. rewrite update_length.
  repeat split; [lia | |].
  - intros l' Hl'. apply update_other. lia.
  - intros [] _. auto.
Qed.

Lemma hoare_read (n : nat) (P : store -> Prop) (l : ref) :
  hoare n P (read l) (fun o s => P s /\ cell l o s).
Proof.
  intros s Hn HP. unfold read, cell.
  destruct (nth_error s l) as [o|] eqn:E; simpl;
    (split; [lia|]); (split; [auto|]).
  - intros r [= <-]. auto.
  - discriminate.
Qed.

Lemma hoare_for_each {A} (n : nat) (I : store -> Prop) (xs : list A)
  (body : A -> M unit) :
  (forall x, In x xs -> hoare n I (body x) (fun _ => I)) ->
  hoare n I (for_each xs body) (fun _ => I).
Proof.
  induction xs as [|x xs IH]; intros H; simpl.
  - now apply hoare_ret.
  - eapply hoare_bind; [apply H; now left|].
    intros ?. apply IH. intros y Hy. apply H. now right.
Qed.

Lemma hoare_fold {A S} (n : nat) (J : S -> store -> Prop) (xs : list A)
  (body : A -> S -> M S) (acc : S) :
  (forall x acc, In x xs -> hoare n (J acc) (body x acc) J) ->
  hoare n (J acc) (fold xs body acc) J.
Proof.
  revert acc. induction xs as [|x xs IH]; intros acc H; simpl.
  - now apply hoare_ret.
  - eapply hoare_bind; [apply H; now left|].
    intros acc'. apply IH. intros y a Hy. apply H. now right.
Qed.

(** ** Computations that only read *)

Lemma readonly_ret {A} (a : A) : readonly (ret a).
Proof. intros s. reflexivity. Qed.

Lemma readonly_raise {A} (e : exn) : readonly (@raise A e).
Proof. intros s. reflexivity. Qed.

Lemma readonly_lift {A} (r : result A) : readonly (lift r).
Proof. intros s. reflexivity. Qed.

Lemma readonly_read (l : ref) : readonly (read l).
Proof. intros s. unfold read. destruct (nth_error s l); reflexivity. Qed.

Lemma readonly_bind {A B} (c : M A) (k : A -> M B) :
  readonly c -> (forall a, readonly (k a)) -> readonly (mbind c k).
Proof.
  intros Hc Hk s. unfold mbind. specialize (Hc s).
  destruct (c s) as [[a|e] s1]; simpl in *; subst s1; [apply Hk | reflexivity].
Qed.

Lemma readonly_map_m {A B} (f : A -> M B) (xs : list A) :
  (forall x, readonly (f x)) -> readonly (map_m f xs).
Proof.
  intros Hf. induction xs as [|x xs IH]; simpl; [apply readonly_ret|].
  apply readonly_bind; [apply Hf|]. intros y.
  apply readonly_bind; [apply IH|]. intros ys. apply readonly_ret.
Qed.

Ltac readonly :=
  repeat first
    [ apply readonly_ret | apply readonly_raise | apply readonly_lift
    | apply readonly_read
    | apply readonly_bind; [|intros ?]
    | match goal with |- readonly (match ?o with _ => _ end) => destruct o end ].

Lemma readonly_read_list (l : ref) : readonly (read_list l).
Proof. unfold read_list. readonly. Qed.

Lemma readonly_read_totals (l : ref) : readonly (read_totals l).
Proof. unfold read_totals. readonly. Qed.

Lemma readonly_read_minutes (l : ref) : readonly (read_minutes l).
Proof. unfold read_minutes. readonly. Qed.

Lemma readonly_read_item (v : value) : readonly (read_item v).
Proof. unfold read_item. readonly. Qed.

Lemma readonly_read_user (v : value) : readonly (read_user v).
Proof. unfold read_user. readonly. Qed.

Lemma readonly_total_of (v : value) : readonly (total_of v).
Proof. unfold total_of. readonly. Qed.

Lemma hoare_read_by_user (n : nat) (P : store -> Prop) (l : ref) :
  hoare n P (read_by_user l) (fun d s => P s /\ cell l (ObjByUser d) s).
Proof.
  unfold read_by_user. eapply hoare_bind; [apply hoare_read|].
  intros o. destruct o; try apply hoare_raise.
  apply hoare_ret. auto.
Qed.

Lemma values_set (d : pydict ref) (k : string) (v l : ref) :
  In l (map snd (dict_set d k v)) -> l = v \/ In l (map snd d).
Proof.
  induction d as [|[k' v'] d IH]; simpl.
  - intros [<-|[]]. now left.
  - destruct (String.eqb k' k); simpl; intros [<-|H]; auto.
    destruct (IH H); auto.
Qed.

Lemma values_set_NoDup (d : pydict ref) (k : string) (v : ref) :
  NoDup (map snd d) -> ~ In v (map snd d) -> NoDup (map snd (dict_set d k v)).
Proof.
  induction d as [|[k' v'] d IH]; simpl; intros Hnd Hv.
  - repeat constructor. simpl. tauto.
  - inversion Hnd as [|? ? Hv' Hnd']; subst.
    destruct (String.eqb k' k); simpl; constructor; try tauto;
      try (apply IH; tauto).
    intros H. apply values_set in H. destruct H as [->|H]; tauto.
Qed.

Lemma fresh_values_set (n hi : nat) (d : pydict ref) (k : string) :
  n <= hi -> fresh_values n hi d -> fresh_values n (S hi) (dict_set d k hi).
Proof.
  intros Hn [Hnd Hb]. split.
  - apply values_set_NoDup; [assumption|]. intros H. apply Hb in H. lia.
  - intros l H. apply values_set in H. destruct H as [->|H]; [lia|].
    apply Hb in H. lia.
Qed.

Lemma readonly_fold {A S} (xs : list A) (body : A -> S -> M S) (acc : S) :
  (forall x a, readonly (body x a)) -> readonly (fold xs body acc).
Proof.
  intros Hb. revert acc. induction xs as [|x xs IH]; intros acc; simpl.
  - apply readonly_ret.
  - apply readonly_bind; [apply Hb | intros a; apply IH].
Qed.

Section Stages.
Variable n : nat.
Variables item_data users : ref.

Lemma lists_by_name_spec :
  hoare n (fun _ => True) (lists_by_name users)
    (fun by_user s =>
       exists d, fresh_values n by_user d /\ cell by_user (ObjByUser d) s).
Proof.
  unfold lists_by_name.
  eapply hoare_bind; [apply hoare_readonly, readonly_read_list|]. intros us.
  eapply hoare_bind with (Q := fun d s => fresh_values n (List.length s) d).
  - eapply hoare_pre.
    + apply hoare_fold with (J := fun d s => fresh_values n (List.length s) d).
      intros user d _.
      eapply hoare_bind; [apply hoare_readonly, readonly_read_user|]. intros u.
      eapply hoare_bind with
        (Q := fun l s => fresh_values n (List.length s) (dict_set d (user_Name u) l)).
      * apply hoare_alloc. intros s Hn Hf. rewrite length_app. simpl.
        rewrite Nat.add_1_r. now apply fresh_values_set.
      * intros l. apply hoare_ret. auto.
    + intros s _. split; [constructor | intros l []].
  - intros d. apply hoare_alloc. intros s Hn Hf.
    exists d. split; [assumption | apply cell_new].
Qed.

(** What leaves the dictionary of the stage in place. *)
Section Keeps.
Variable by_user : ref.
Variable d : pydict ref.
Lemma keeps_alloc (o : object) : hoare n (dict_at by_user d) (alloc o) (fun _ => dict_at by_user d).
Proof. apply hoare_alloc. intros s _ H. now apply cell_app. Qed.

Lemma keeps_sorted (key : value -> M Z) (l : ref) :
  (forall x, readonly (key x)) ->
  hoare n (dict_at by_user d) (sorted_reverse key l) (fun _ => dict_at by_user d).
Proof.
  intros Hk. unfold sorted_reverse.
  eapply hoare_bind; [apply hoare_readonly, readonly_read_list|]. intros xs.
  eapply hoare_bind; [apply hoare_readonly, readonly_map_m, Hk|]. intros ks.
  apply keeps_alloc.
Qed.

Lemma keeps_slice (l : ref) (k : Z) : hoare n (dict_at by_user d) (slice l k) (fun _ => dict_at by_user d).
Proof.
  unfold slice.
  eapply hoare_bind; [apply hoare_readonly, readonly_read_list|]. intros xs.
  apply keeps_alloc.
Qed.

Lemma keeps_extend (l top : ref) :
  n <= l -> l <> by_user -> hoare n (dict_at by_user d) (extend l top) (fun _ => dict_at by_user d).
Proof.
  intros Hl Hne. unfold extend.
  eapply hoare_bind; [apply hoare_readonly, readonly_read_list|]. intros xs.
  eapply hoare_bind; [apply hoare_readonly, readonly_read_list|]. intros ys.
  apply hoare_write; [assumption|]. intros s H. apply cell_update; auto.
Qed.

Lemma keeps_credit (artists : ref) (user : string) (item : Item) (a : string) :
  n <= artists -> artists <> by_user ->
  hoare n (dict_at by_user d) (credit artists user item a) (fun _ => dict_at by_user d).
Proof.
  intros Hl Hne. unfold credit.
  eapply hoare_bind; [apply hoare_readonly, readonly_read_totals|]. intros t.
  destruct (dict_get t a);
    (eapply hoare_bind; [apply hoare_lift|]; intros pc;
     apply hoare_write; [assumption|]; intros s H; apply cell_update; auto).
Qed.

Lemma keeps_bake (user : string) :
  hoare n (dict_at by_user d) (bake item_data user) (fun _ => dict_at by_user d).
Proof.
  unfold bake.
  eapply hoare_bind with
    (Q := fun artists s => (n <= artists /\ artists <> by_user) /\ dict_at by_user d s).
  - apply hoare_alloc. intros s Hn H. split; [|now apply cell_app].
    apply cell_lt in H. lia.
  - intros artists. apply hoare_pure. intros [Hl Hne].
    eapply hoare_bind; [apply hoare_readonly, readonly_read_list|]. intros xs.
    eapply hoare_bind.
    + apply hoare_for_each. intros x _.
      eapply hoare_bind; [apply hoare_readonly, readonly_read_item|]. intros item.
      apply hoare_for_each. intros a _. now apply keeps_credit.
    + intros ?. apply hoare_ret. auto.
Qed.

Lemma keeps_items_of (artists : ref) : hoare n (dict_at by_user d) (items_of artists) (fun _ => dict_at by_user d).
Proof.
  unfold items_of.
  eapply hoare_bind; [apply hoare_readonly, readonly_read_totals|]. intros t.
  apply keeps_alloc.
Qed.
End Keeps.

Lemma readonly_play_count_key (user : string) (x : value) :
  readonly (mbind (read_item x) (fun item => lift (play_count user item))).
Proof.
  apply readonly_bind; [apply readonly_read_item | intros; apply readonly_lift].
Qed.

Lemma store_songs_spec (k : Z) :
  hoare n (fun _ => True) (find_most_listened_songs item_data users k)
    (fun songs s =>
       exists d, fresh_values n songs d /\ cell songs (ObjByUser d) s).
Proof.
  unfold find_most_listened_songs.
  eapply hoare_bind; [apply lists_by_name_spec|]. intros songs.
  apply hoare_exists. intros d. apply hoare_pure. intros Hf.
  eapply hoare_bind; [apply hoare_read_by_user|]. intros d'.
  eapply hoare_pre with (P := fun s => d' = d /\ cell songs (ObjByUser d) s).
  2:{ intros s [H1 H2]. unfold cell in *. split; [congruence | assumption]. }
  apply hoare_pure. intros ->.
  eapply hoare_bind.
  - apply hoare_for_each. intros [user songlist] Hin.
    assert (Hl : n <= songlist < songs).
    { apply Hf. unfold dict_items in Hin. now apply (in_map snd) in Hin. }
    cbn [fst snd].
    eapply hoare_bind; [apply keeps_sorted; intros x; apply readonly_play_count_key|].
    intros sorted. eapply hoare_bind; [apply keeps_slice|]. intros top.
    apply keeps_extend; lia.
  - intros ?. apply hoare_ret. intros s H. exists d. auto.
Qed.

Lemma store_artists_spec (k : Z) :
  hoare n (fun _ => True) (find_most_listened_artists item_data users k)
    (fun by_user s =>
       exists d, fresh_values n by_user d /\ cell by_user (ObjByUser d) s).
Proof.
  unfold find_most_listened_artists.
  eapply hoare_bind; [apply lists_by_name_spec|]. intros by_user.
  apply hoare_exists. intros d. apply hoare_pure. intros Hf.
  eapply hoare_bind; [apply hoare_read_by_user|]. intros d'.
  eapply hoare_pre with (P := fun s => d' = d /\ cell by_user (ObjByUser d) s).
  2:{ intros s [H1 H2]. unfold cell in *. split; [congruence | assumption]. }
  apply hoare_pure. intros ->.
  eapply hoare_bind.
  - apply hoare_for_each. intros [user artistlist] Hin.
    assert (Hl : n <= artistlist < by_user).
    { apply Hf. unfold dict_items in Hin. now apply (in_map snd) in Hin. }
    cbn [fst snd].
    eapply hoare_bind; [apply keeps_bake|]. intros artists.
    eapply hoare_bind; [apply keeps_items_of|]. intros pairs.
    eapply hoare_bind; [apply keeps_sorted, readonly_total_of|]. intros sorted.
    eapply hoare_bind; [apply keeps_slice|]. intros top.
    apply keeps_extend; lia.
  - intros ?. apply hoare_ret. intros s H. exists d. auto.
Qed.

Lemma store_minutes_spec :
  hoare n (fun _ => True) (find_minutes_listened item_data users)
    (fun _ _ => True).
Proof.
  unfold find_minutes_listened.
  eapply hoare_bind; [apply hoare_readonly, readonly_read_list|]. intros us.
  eapply hoare_bind.
  { apply hoare_readonly, readonly_fold. intros user d.
    apply readonly_bind; [apply readonly_read_user | intros; apply readonly_ret]. }
  intros d.
  eapply hoare_bind with (Q := fun minutes s => n <= minutes /\ True).
  - apply hoare_alloc. auto.
  - intros minutes. apply hoare_pure. intros Hl.
    eapply hoare_bind.
    + apply hoare_for_each. intros user _.
      eapply hoare_bind; [apply hoare_readonly, readonly_read_list|]. intros xs.
      apply hoare_for_each. intros x _. unfold add_minutes.
      eapply hoare_bind; [apply hoare_readonly, readonly_read_item|]. intros item.
      eapply hoare_bind; [apply hoare_readonly, readonly_read_minutes|]. intros m.
      do 6 (eapply hoare_bind; [apply hoare_lift|]; intros ?).
      apply hoare_write; auto.
    + intros ?. apply hoare_ret. auto.
Qed.
End Stages.

End StoreFacts.

(** C8. Whatever the store and the two references, after the aggregation
    (completed or not) every object that was in the store before it is as it
    was: the list of items, the items, the list of users, the users.  Where
    it completes, the lists of the users in [most_listened_songs] and
    [most_listened_artists] are objects made by the aggregation, all
    different from one another.  And the three entries of a user in the
    recap depend on the items and on the user, not on the other users of the
    list. *)
Theorem aggregation_keeps_the_snapshot :
  forall (s : Store.store) (item_data users : Store.ref)
         (num_top_songs num_top_artists : Z),
    let out := Store.aggregate item_data users num_top_songs num_top_artists s in
    (forall l, (l < List.length s)%nat -> nth_error (snd out) l = nth_error s l) /\
    (forall songs artists minutes,
       fst out = OK (songs, artists, minutes) ->
       exists ds da,
         nth_error (snd out) songs = Some (Store.ObjByUser ds) /\
         nth_error (snd out) artists = Some (Store.ObjByUser da) /\
         NoDup (map snd ds ++ map snd da) /\
         forall l, In l (map snd ds ++ map snd da) -> (List.length s <= l)%nat) /\
    (forall (items : list Item) (us us' : list User) (u : User) (r r' : Recap),
       In u us -> In u us' ->
       aggregate items us num_top_songs num_top_artists = OK r ->
       aggregate items us' num_top_songs num_top_artists = OK r' ->
       dict_get (most_listened_songs r) (user_Name u)
         = dict_get (most_listened_songs r') (user_Name u) /\
       dict_get (most_listened_artists r) (user_Name u)
         = dict_get (most_listened_artists r') (user_Name u) /\
       dict_get (minutes_listened r) (user_Name u)
         = dict_get (minutes_listened r') (user_Name u)).
Proof.
  intros s item_data users ns na. cbv zeta.
  split; [|split; [|intros items us us' u r r'; apply recap_of_a_user_is_its_own]];
    unfold Store.aggregate, Store.mbind.
  - destruct (StoreFacts.store_songs_spec (List.length s) item_data users ns
                s (le_n _) I) as (L1 & F1 & _).
    destruct (Store.find_most_listened_songs item_data users ns s) as [[songs|e1] s1];
      cbn [fst snd] in *; [|assumption].
    destruct (StoreFacts.store_artists_spec (List.length s1) item_data users na
                s1 (le_n _) I) as (L2 & F2 & _).
    destruct (Store.find_most_listened_artists item_data users na s1)
      as [[artists|e2] s2]; cbn [fst snd] in *.
    2:{ intros l Hl. rewrite F2, F1; auto. lia. }
    destruct (StoreFacts.store_minutes_spec (List.length s2) item_data users
                s2 (le_n _) I) as (L3 & F3 & _).
    destruct (Store.find_minutes_listened item_data users s2) as [[minutes|e3] s3];
      cbn [fst snd] in *; intros l Hl; rewrite F3, F2, F1; auto; lia.
  - destruct (StoreFacts.store_songs_spec (List.length s) item_data users ns
                s (le_n _) I) as (L1 & F1 & Q1).
    destruct (Store.find_most_listened_songs item_data users ns s) as [[songs|e1] s1];
      cbn [fst snd] in *; [|discriminate].
    destruct (Q1 songs eq_refl) as (ds & [Hnd1 Hb1] & C1). clear Q1.
    destruct (StoreFacts.store_artists_spec (List.length s1) item_data users na
                s1 (le_n _) I) as (L2 & F2 & Q2).
    destruct (Store.find_most_listened_artists item_data users na s1)
      as [[artists|e2] s2]; cbn [fst snd] in *; [|discriminate].
    destruct (Q2 artists eq_refl) as (da & [Hnd2 Hb2] & C2). clear Q2.
    destruct (StoreFacts.store_minutes_spec (List.length s2) item_data users
                s2 (le_n _) I) as (L3 & F3 & _).
    pose proof (StoreFacts.cell_lt _ _ _ C1) as Hs1.
    pose proof (StoreFacts.cell_lt _ _ _ C2) as Hs2.
    destruct (Store.find_minutes_listened item_data users s2) as [[minutes|e3] s3];
      cbn [fst snd] in *; [|discriminate].
    intros songs' artists' minutes' [= <- <- <-].
    exists ds, da. split; [|split; [|split]].
    + rewrite F3, F2 by lia. exact C1.
    + rewrite F3 by lia. exact C2.
    + apply NoDup_app; [assumption..|].
      intros l H1 H2. apply Hb1 in H1. apply Hb2 in H2. lia.
    + intros l H. apply in_app_or in H. destruct H as [H|H].
      * apply Hb1 in H. lia.
      * apply Hb2 in H. lia.
Qed.

(** ** The aggregation of an empty catalogue *)

Lemma slice_to_nil {A} (n : Z) : slice_to (@nil A) n = [].
Proof. unfold slice_to. destruct (n <? 0); apply firstn_nil. Qed.

(** With no items, every user gets two empty lists and the [int] 0. *)
Theorem empty_catalog_aggregation :
  forall (users : list User) (num_top_songs num_top_artists : Z),
    exists r,
      aggregate [] users num_top_songs num_top_artists = OK r /\
      forall u, In u users ->
        dict_get (most_listened_songs r) (user_Name u) = Some [] /\
        dict_get (most_listened_artists r) (user_Name u) = Some [] /\
        dict_get (minutes_listened r) (user_Name u) = Some (PInt 0).
Proof.
  intros users ns na. unfold aggregate.
  pose proof (find_most_listened_songs_spec [] users ns) as Hs.
  pose proof (find_most_listened_artists_spec [] users na) as Ha.
  pose proof (find_minutes_listened_spec [] users) as Hm.
  assert (Ts : forall user, top_songs [] ns user = OK []).
  { intros user. unfold top_songs. simpl. now rewrite slice_to_nil. }
  assert (Ta : forall user, top_artists [] na user = OK []).
  { intros user. unfold top_artists. simpl. now rewrite slice_to_nil. }
  destruct (find_most_listened_songs [] users ns) as [songs|e].
  2:{ destruct Hs as (u & _ & H). rewrite Ts in H. discriminate. }
  destruct (find_most_listened_artists [] users na) as [artists|e].
  2:{ destruct Ha as (u & _ & H). rewrite Ta in H. discriminate. }
  destruct (find_minutes_listened [] users) as [minutes|e].
  2:{ destruct Hm as (u & _ & H). discriminate. }
  eexists. split; [reflexivity|]. cbn [most_listened_songs most_listened_artists minutes_listened].
  intros u Hu.
  destruct (Hs u Hu) as (t1 & H1 & G1). rewrite Ts in H1. injection H1 as <-.
  destruct (Ha u Hu) as (t2 & H2 & G2). rewrite Ta in H2. injection H2 as <-.
  destruct (Hm u Hu) as (t3 & H3 & G3). injection H3 as <-.
  auto.
Qed.

(** ** The two models on the scenario *)

(** On the store of the scenario the aggregation on the store returns the
    dictionaries of the recap that [aggregate] returns. *)
Example store_agrees_on_scenario :
  let out := Store.aggregate 3%nat 6%nat 2 5 StoreLogic.scenario_store in
  match fst out with
  | OK refs => option_map OK (StoreLogic.recap_of (snd out) refs)
  | Raise e => Some (Raise e)
  end
  = Some (aggregate scenario_items scenario_users 2 5).
Proof. vm_compute. reflexivity. Qed.

(** * The requests, the recap and the reports *)

(** ** Dictionaries built by a loop *)

Section DictFold.
Context {A V : Type}.
Variable key : A -> string.

Lemma dict_keys_fold_set (value : pydict V -> A -> V) (xs : list A) :
  forall d : pydict V,
    dict_keys (fold_left (fun d x => dict_set d (key x) (value d x)) xs d) =
    dict_keys d ++ filter (fresh (dict_keys d)) (first_occurrences (map key xs)).
Proof.
  induction xs as [|x xs IH]; intros d.
  - simpl. now rewrite app_nil_r.
  - cbn [fold_left map first_occurrences filter].
    rewrite IH. rewrite filter_filter.
    destruct (in_dec string_dec (key x) (dict_keys d)) as [Hb|Hb].
    + rewrite dict_keys_set_old by assumption.
      rewrite (fresh_false _ _ Hb). f_equal.
      apply filter_ext. intros c.
      destruct (String.eqb (key x) c) eqn:E; simpl; [|now rewrite andb_true_r].
      apply String.eqb_eq in E. subst c. now rewrite (fresh_false _ _ Hb).
    + rewrite dict_keys_set_new by assumption.
      rewrite (fresh_true _ _ Hb). rewrite <- app_assoc. simpl. do 2 f_equal.
      apply filter_ext. intros c. unfold fresh. rewrite existsb_app. simpl.
      rewrite orb_false_r, negb_orb. f_equal. f_equal. apply String.eqb_sym.
Qed.

Lemma filter_fresh_nil (l : list string) : filter (fresh []) l = l.
Proof. induction l; simpl; congruence. Qed.

Lemma dict_comp_keys (value : A -> V) (xs : list A) :
  dict_keys (dict_comp key value xs) = first_occurrences (map key xs).
Proof.
  unfold dict_comp.
  rewrite (dict_keys_fold_set (fun _ x => value x)). simpl.
  apply filter_fresh_nil.
Qed.

Lemma find_app_last (p : A -> bool) (l : list A) (x : A) :
  find p (l ++ [x]) =
  match find p l with Some y => Some y | None => if p x then Some x else None end.
Proof. induction l as [|y l IH]; simpl; [reflexivity|]. destruct (p y); auto. Qed.

Lemma dict_get_fold_set (value : A -> V) (xs : list A) (k : string) :
  forall d : pydict V,
    dict_get (fold_left (fun d x => dict_set d (key x) (value x)) xs d) k =
    match find (fun x => String.eqb (key x) k) (rev xs) with
    | Some x => Some (value x)
    | None => dict_get d k
    end.
Proof.
  induction xs as [|x xs IH]; intros d; [reflexivity|].
  cbn [fold_left rev]. rewrite IH, find_app_last.
  destruct (find _ (rev xs)); [reflexivity|].
  destruct (String.eqb (key x) k) eqn:E.
  - apply String.eqb_eq in E. subst k. apply dict_get_set_same.
  - apply String.eqb_neq in E. now apply dict_get_set_other.
Qed.
End DictFold.

Lemma fold_left_ext_in {A B} (f g : B -> A -> B) (xs : list A) :
  (forall b x, In x xs -> f b x = g b x) ->
  forall b, fold_left f xs b = fold_left g xs b.
Proof.
  induction xs as [|x xs IH]; intros H b; [reflexivity|].
  simpl. rewrite (H b x) by (left; reflexivity).
  apply IH. intros b' y Hy. apply H. right. assumption.
Qed.

(** The first element of a list at which [p] fails. *)
Lemma first_failure {A} (p : A -> bool) (l : list A) :
  (forall x, In x l -> p x = true) \/
  exists l1 x l2, l = l1 ++ x :: l2 /\ (forall y, In y l1 -> p y = true) /\ p x = false.
Proof.
  induction l as [|a l IH]; [left; intros x []|].
  destruct (p a) eqn:E.
  - destruct IH as [IH|(l1 & x & l2 & -> & H1 & H2)].
    + left. intros x [<-|Hx]; auto.
    + right. exists (a :: l1), x, l2.
      split; [reflexivity|]. split; [|assumption].
      intros y [<-|Hy]; auto.
  - right. exists [], a, l.
    split; [reflexivity|]. split; [intros y []|assumption].
Qed.

(** ** The requests of lines 134 to 159 *)

Section Fetch.
Variable w : World.

Lemma user_data_of_with (users : list User) (x : Item) :
  (forall u, In u users -> srv_userdata w (item_Id x) (user_Id u) <> None) ->
  with_userdata w users x (enriched w users x).
Proof.
  intros Hans. unfold with_userdata, enriched.
  cbn [item_Id item_Name item_AlbumArtist item_Artists item_RunTimeTicks item_UserData].
  repeat (split; [reflexivity|]).
  set (value := fun u : User =>
         match srv_userdata w (item_Id x) (user_Id u) with
         | Some userdata => userdata
         | None => {| PlayCount := 0 |}
         end).
  assert (E : user_data_of w users x
              = fold_left (fun d u => dict_set d (user_Name u) (value u)) users []).
  { unfold user_data_of. apply fold_left_ext_in. intros d u Hu. unfold value.
    specialize (Hans u Hu).
    destruct (srv_userdata w (item_Id x) (user_Id u)); [reflexivity|congruence]. }
  rewrite E. split.
  - pose proof (dict_keys_fold_set user_Name (fun _ u => value u) users []) as K.
    cbn beta in K. rewrite K. simpl. apply filter_fresh_nil.
  - intros name. rewrite dict_get_fold_set. unfold last_named.
    destruct (find _ (rev users)) as [u|] eqn:F; [|reflexivity].
    apply find_some in F. destruct F as [Hu _]. apply in_rev in Hu.
    unfold value. specialize (Hans u Hu).
    destruct (srv_userdata w (item_Id x) (user_Id u)); [reflexivity|congruence].
Qed.

(** The loop of line 153, from a dictionary [d], where the server answers
    for every user. *)
Lemma userdata_loop_OK (x : Item) (users : list User) :
  (forall u, In u users -> has_answer w x u = true) ->
  forall d,
    io_fold users
      (fun user d =>
         userdata <~ get_item_userdata w (item_Id x) (user_Id user) ;;
         io_ret (dict_set d (user_Name user) userdata)) d
    = (map (fun u => EvRequest (ReqUserData (item_Id x) (user_Id u))) users,
       OK (fold_left
             (fun d u =>
                match srv_userdata w (item_Id x) (user_Id u) with
                | Some userdata => dict_set d (user_Name u) userdata
                | None => d
                end) users d)).
Proof.
  induction users as [|u users IH]; intros H d; [reflexivity|].
  cbn [io_fold map fold_left]. unfold get_item_userdata at 1.
  pose proof (H u (or_introl eq_refl)) as Hu. unfold has_answer in Hu.
  destruct (srv_userdata w (item_Id x) (user_Id u)) as [ud|]; [|discriminate].
  cbn. rewrite IH by (intros; apply H; right; assumption). reflexivity.
Qed.

(** The same loop where the server refuses the request for [u]. *)
Lemma userdata_loop_Raise (x : Item) (us1 us2 : list User) (u : User) :
  (forall u', In u' us1 -> has_answer w x u' = true) ->
  has_answer w x u = false ->
  forall d,
    io_fold (us1 ++ u :: us2)
      (fun user d =>
         userdata <~ get_item_userdata w (item_Id x) (user_Id user) ;;
         io_ret (dict_set d (user_Name user) userdata)) d
    = (map (fun u => EvRequest (ReqUserData (item_Id x) (user_Id u))) (us1 ++ [u]),
       Raise (HttpError (ReqUserData (item_Id x) (user_Id u)))).
Proof.
  induction us1 as [|u1 us1 IH]; intros H Hu d.
  - cbn [app io_fold map]. unfold get_item_userdata, has_answer in *.
    destruct (srv_userdata w (item_Id x) (user_Id u)); [discriminate|]. reflexivity.
  - cbn [app io_fold map]. unfold get_item_userdata at 1.
    pose proof (H u1 (or_introl eq_refl)) as H1. unfold has_answer in H1.
    destruct (srv_userdata w (item_Id x) (user_Id u1)) as [ud|]; [|discriminate].
    cbn. rewrite IH by (auto; intros; apply H; right; assumption). reflexivity.
Qed.

Lemma add_userdata_OK (users : list User) (x : Item) :
  (forall u, In u users -> has_answer w x u = true) ->
  add_userdata w users x
  = (map (fun u => EvRequest (ReqUserData (item_Id x) (user_Id u))) users,
     OK (enriched w users x)).
Proof.
  intros H. unfold add_userdata. rewrite (userdata_loop_OK x users H).
  cbn. rewrite app_nil_r. reflexivity.
Qed.

Lemma add_userdata_Raise (us1 us2 : list User) (u : User) (x : Item) :
  (forall u', In u' us1 -> has_answer w x u' = true) ->
  has_answer w x u = false ->
  add_userdata w (us1 ++ u :: us2) x
  = (map (fun u => EvRequest (ReqUserData (item_Id x) (user_Id u))) (us1 ++ [u]),
     Raise (HttpError (ReqUserData (item_Id x) (user_Id u)))).
Proof.
  intros H Hu. unfold add_userdata. rewrite (userdata_loop_Raise x us1 us2 u H Hu).
  reflexivity.
Qed.

(** The loop of line 151 where the server answers every request. *)
Lemma items_loop_OK (users : list User) (item_data : list Item) :
  (forall x u, In x item_data -> In u users -> has_answer w x u = true) ->
  io_map (add_userdata w users) item_data
  = (map EvRequest (userdata_requests item_data users),
     OK (map (enriched w users) item_data)).
Proof.
  induction item_data as [|x xs IH]; intros H; [reflexivity|].
  cbn [io_map]. rewrite add_userdata_OK by (intros; apply H; [left; reflexivity|assumption]).
  rewrite IH by (intros; apply H; [right|]; assumption).
  cbn. rewrite app_nil_r, map_app, map_map. reflexivity.
Qed.

(** The same loop where a request is refused: it stops there. *)
Lemma items_loop_Raise (users : list User) (item_data : list Item) :
  ~ (forall x u, In x item_data -> In u users -> has_answer w x u = true) ->
  exists (t : list event) (x : Item) (u : User),
    In x item_data /\ In u users /\ has_answer w x u = false /\
    io_map (add_userdata w users) item_data
    = (t ++ [EvRequest (ReqUserData (item_Id x) (user_Id u))],
       Raise (HttpError (ReqUserData (item_Id x) (user_Id u)))) /\
    Forall (fun ev => exists r, ev = EvRequest r) t.
Proof.
  induction item_data as [|x xs IH]; intros H; [exfalso; apply H; intros ? ? []|].
  destruct (first_failure (has_answer w x) users) as [Hx|(us1 & u & us2 & -> & H1 & H2)].
  - destruct IH as (t & x' & u & Hx' & Hu & Hno & E & Ht).
    { intros Hall. apply H. intros y u [<-|Hy] Hu; auto. }
    exists (map (fun u => EvRequest (ReqUserData (item_Id x) (user_Id u))) users ++ t), x', u.
    repeat split; auto; [right; assumption| |].
    + cbn [io_map]. rewrite (add_userdata_OK users x Hx), E. cbn.
      now rewrite app_assoc.
    + apply Forall_app. split; [|assumption].
      apply Forall_forall. intros ev Hev. apply in_map_iff in Hev.
      destruct Hev as (u' & <- & _). eauto.
  - exists (map (fun u => EvRequest (ReqUserData (item_Id x) (user_Id u))) us1), x, u.
    repeat split; auto; [left; reflexivity | apply in_elt | |].
    + cbn [io_map]. rewrite (add_userdata_Raise us1 us2 u x H1 H2).
      cbn. now rewrite map_app.
    + apply Forall_forall. intros ev Hev. apply in_map_iff in Hev.
      destruct Hev as (u' & <- & _). eauto.
Qed.

Lemma has_answer_dec (users : list User) (item_data : list Item) :
  (forall x u, In x item_data -> In u users -> has_answer w x u = true) \/
  ~ (forall x u, In x item_data -> In u users -> has_answer w x u = true).
Proof.
  destruct (forallb (fun x => forallb (has_answer w x) users) item_data) eqn:E.
  - left. intros x u Hx Hu. rewrite forallb_forall in E.
    specialize (E x Hx). rewrite forallb_forall in E. auto.
  - right. intros H. assert (E' : forallb (fun x => forallb (has_answer w x) users) item_data = true).
    { apply forallb_forall. intros x Hx. apply forallb_forall. auto. }
    congruence.
Qed.

Lemma answered_has_answer (users : list User) (item_data : list Item) :
  answered w item_data users <->
  (forall x u, In x item_data -> In u users -> has_answer w x u = true).
Proof.
  unfold answered, has_answer. split; intros H x u Hx Hu; specialize (H x u Hx Hu);
    destruct (srv_userdata w (item_Id x) (user_Id u)); congruence.
Qed.

(** Lines 134 to 159 on a server that answers every request. *)
Lemma fetch_OK (item_data : list Item) (users : list User) :
  srv_items w = Some item_data -> srv_users w = Some users ->
  answered w item_data users ->
  fetch w
  = (fetch_head w item_data users
     ++ map EvRequest (userdata_requests item_data users)
     ++ [EvPrint MsgUserDataAdded;
         EvJsonDump AllItemsJson (DumpItems (map (enriched w users) item_data))],
     OK (map (enriched w users) item_data, users)).
Proof.
  intros Hi Hu Ha. pose proof (proj1 (answered_has_answer users item_data) Ha) as Ha'.
  unfold fetch, get_all_audio_items, get_all_users, fetch_head, mkdirs.
  rewrite Hi, Hu.
  destruct (isdir w OutputDir), (isdir w AssetsDir); cbn;
    rewrite (items_loop_OK users item_data Ha'); cbn;
    rewrite ?app_nil_r; reflexivity.
Qed.

(** The four ways in which lines 134 to 159 end. *)
Lemma fetch_cases :
  (srv_items w = None /\
   fetch w = (mkdirs w ++ [EvPrint MsgRetrievingItems; EvRequest ReqItems],
              Raise (HttpError ReqItems))) \/
  (exists item_data,
     srv_items w = Some item_data /\ srv_users w = None /\
     fetch w = (mkdirs w ++
                [EvPrint MsgRetrievingItems;
                 EvRequest ReqItems;
                 EvPrint (MsgItemsRetrieved (List.length item_data));
                 EvPrint MsgRetrievingUsers;
                 EvRequest ReqUsers],
                Raise (HttpError ReqUsers))) \/
  (exists item_data users t x u,
     srv_items w = Some item_data /\ srv_users w = Some users /\
     In x item_data /\ In u users /\
     srv_userdata w (item_Id x) (user_Id u) = None /\
     Forall (fun ev => exists r, ev = EvRequest r) t /\
     fetch w = (fetch_head w item_data users ++ t
                ++ [EvRequest (ReqUserData (item_Id x) (user_Id u))],
                Raise (HttpError (ReqUserData (item_Id x) (user_Id u))))) \/
  (exists item_data users,
     srv_items w = Some item_data /\ srv_users w = Some users /\
     answered w item_data users /\
     fetch w
     = (fetch_head w item_data users
        ++ map EvRequest (userdata_requests item_data users)
        ++ [EvPrint MsgUserDataAdded;
            EvJsonDump AllItemsJson (DumpItems (map (enriched w users) item_data))],
        OK (map (enriched w users) item_data, users))).
Proof.
  destruct (srv_items w) as [item_data|] eqn:Hi.
  2:{ left. split; [reflexivity|].
      unfold fetch, get_all_audio_items, mkdirs. rewrite Hi.
      destruct (isdir w OutputDir), (isdir w AssetsDir); reflexivity. }
  right. destruct (srv_users w) as [users|] eqn:Hu.
  2:{ left. exists item_data. repeat split.
      unfold fetch, get_all_audio_items, get_all_users, mkdirs. rewrite Hi, Hu.
      destruct (isdir w OutputDir), (isdir w AssetsDir); reflexivity. }
  right. destruct (has_answer_dec users item_data) as [Ha|Ha].
  - right. exists item_data, users.
    apply answered_has_answer in Ha.
    repeat split; auto. now apply fetch_OK.
  - left. destruct (items_loop_Raise users item_data Ha)
      as (t & x & u & Hx & Hus & Hno & E & Ht).
    exists item_data, users, t, x, u.
    repeat split; auto.
    + unfold has_answer in Hno.
      destruct (srv_userdata w (item_Id x) (user_Id u)); [discriminate|reflexivity].
    + unfold fetch, get_all_audio_items, get_all_users, fetch_head, mkdirs.
      rewrite Hi, Hu.
      destruct (isdir w OutputDir), (isdir w AssetsDir); cbn; rewrite E; reflexivity.
Qed.

(** Where lines 134 to 159 complete, the server answered every request, and
    the items are those of the server with their user data. *)
Lemma fetch_OK_inv (t : list event) (item_data' : list Item) (users : list User) :
  fetch w = (t, OK (item_data', users)) ->
  exists item_data,
    srv_items w = Some item_data /\ srv_users w = Some users /\
    answered w item_data users /\
    item_data' = map (enriched w users) item_data /\
    t = fetch_head w item_data users
        ++ map EvRequest (userdata_requests item_data users)
        ++ [EvPrint MsgUserDataAdded; EvJsonDump AllItemsJson (DumpItems item_data')].
Proof.
  intros E.
  destruct fetch_cases as [(_ & E')|[(? & _ & _ & E')|[(? & ? & ? & ? & ? & H)|H]]];
    try (rewrite E' in E; discriminate).
  - destruct H as (_ & _ & _ & _ & _ & _ & E'). rewrite E' in E. discriminate.
  - destruct H as (item_data & users' & Hi & Hu & Ha & E').
    rewrite E' in E. injection E as <- <- <-.
    exists item_data. repeat split; auto.
Qed.
End Fetch.

(** ** The exceptions of the aggregation *)

Lemma for_each_raise_inv {A S} (body : A -> S -> result S) (xs : list A) (e : exn) :
  forall s, for_each xs body s = Raise e ->
    exists x s', In x xs /\ body x s' = Raise e.
Proof.
  induction xs as [|x xs IH]; intros s; simpl; [discriminate|].
  destruct (body x s) as [s'|e'] eqn:E; simpl.
  - intros H. destruct (IH _ H) as (y & s'' & Hy & Hb). eauto.
  - intros [= <-]. eauto.
Qed.

Lemma credit_raise (user : string) (item : Item) (a : string) (d : pydict Z) (e : exn) :
  credit user item a d = Raise e ->
  e = KeyError user /\ dict_get (item_UserData item) user = None.
Proof.
  unfold credit. destruct (dict_get d a);
    destruct (play_count user item) eqn:E; simpl; try discriminate;
    intros [= <-]; now apply play_count_raise.
Qed.

Lemma bake_raise (item_data : list Item) (user : string) (e : exn) :
  bake item_data user = Raise e ->
  e = KeyError user /\
  exists x, In x item_data /\ dict_get (item_UserData x) user = None.
Proof.
  unfold bake. intros H.
  apply for_each_raise_inv in H. destruct H as (x & d & Hx & H).
  apply for_each_raise_inv in H. destruct H as (a & d' & _ & H).
  apply credit_raise in H. destruct H as [-> H]. eauto.
Qed.

Lemma top_artists_raise (item_data : list Item) (n : Z) (user : string) (e : exn) :
  top_artists item_data n user = Raise e ->
  e = KeyError user /\
  exists x, In x item_data /\ dict_get (item_UserData x) user = None.
Proof.
  unfold top_artists. destruct (bake item_data user) as [d|e'] eqn:E; simpl.
  - destruct (sorted_reverse_total snd (fun x : string * Z => OK (snd x)) (dict_items d))
      as (ys & -> & _); [reflexivity|]. discriminate.
  - intros [= <-]. now apply bake_raise in E.
Qed.

Lemma float_of_int_raise (z : Z) (e : exn) :
  float_of_int z = Raise e -> e = OverflowError.
Proof.
  unfold float_of_int. destruct (binary_normalize prec emax z 0 false);
    congruence.
Qed.

Lemma add_minutes_raise (user : string) (item : Item) (total : pynum) (e : exn) :
  add_minutes user item total = Raise e ->
  e = OverflowError \/
  (e = KeyError "RunTimeTicks" /\ item_RunTimeTicks item = None) \/
  (e = KeyError user /\ dict_get (item_UserData item) user = None).
Proof.
  unfold add_minutes, minutes_of_item, field, truediv_int_float, mul_float_int,
    add_num_float.
  destruct (item_RunTimeTicks item) as [ticks|]; simpl.
  2:{ intros [= <-]. right. left. auto. }
  destruct (float_of_int ticks) as [q|e1] eqn:E1; simpl.
  2:{ intros [= <-]. left. now apply float_of_int_raise in E1. }
  destruct (play_count user item) as [pc|e2] eqn:E2; simpl.
  2:{ intros [= <-]. right. right. now apply play_count_raise in E2. }
  destruct (float_of_int pc) as [fpc|e3] eqn:E3; simpl.
  2:{ intros [= <-]. left. now apply float_of_int_raise in E3. }
  destruct total as [z|f]; simpl; [|discriminate].
  destruct (float_of_int z) as [fz|e4] eqn:E4; simpl; [discriminate|].
  intros [= <-]. left. now apply float_of_int_raise in E4.
Qed.

(** The aggregation raises the [KeyError] of a user without an entry in
    some item, that of an item without ticks, or the [OverflowError] of an
    [int] beyond the floats, and nothing else. *)
Lemma aggregate_raise (item_data : list Item) (users : list User)
  (num_top_songs num_top_artists : Z) (e : exn) :
  aggregate item_data users num_top_songs num_top_artists = Raise e ->
  e = OverflowError \/
  (exists x, In x item_data /\ item_RunTimeTicks x = None /\
             e = KeyError "RunTimeTicks") \/
  exists u x, In u users /\ In x item_data /\
              dict_get (item_UserData x) (user_Name u) = None /\
              e = KeyError (user_Name u).
Proof.
  unfold aggregate.
  pose proof (find_most_listened_songs_spec item_data users num_top_songs) as Hs.
  destruct (find_most_listened_songs item_data users num_top_songs) as [songs|e1]; simpl.
  2:{ intros [= <-]. destruct Hs as (u & Hu & Hs).
      apply top_songs_raise in Hs. destruct Hs as (-> & x & Hx & Hm).
      right. right. exists u, x. auto. }
  pose proof (find_most_listened_artists_spec item_data users num_top_artists) as Ha.
  destruct (find_most_listened_artists item_data users num_top_artists) as [artists|e2]; simpl.
  2:{ intros [= <-]. destruct Ha as (u & Hu & Ha).
      apply top_artists_raise in Ha. destruct Ha as (-> & x & Hx & Hm).
      right. right. exists u, x. auto. }
  pose proof (find_minutes_listened_spec item_data users) as Hm.
  destruct (find_minutes_listened item_data users) as [minutes|e3]; simpl; [discriminate|].
  intros [= <-]. destruct Hm as (u & Hu & Hm).
  apply for_each_raise_inv in Hm. destruct Hm as (x & total & Hx & Hm).
  apply add_minutes_raise in Hm.
  destruct Hm as [->|[[-> Hm]|[-> Hm]]]; [left; reflexivity | |].
  - right. left. exists x. auto.
  - right. right. exists u, x. auto.
Qed.

(** ** The keys of the recap *)

Lemma aggregate_keys (item_data : list Item) (users : list User)
  (num_top_songs num_top_artists : Z) (r : Recap) :
  aggregate item_data users num_top_songs num_top_artists = OK r ->
  dict_keys (most_listened_songs r) = first_occurrences (map user_Name users) /\
  dict_keys (most_listened_artists r) = first_occurrences (map user_Name users) /\
  dict_keys (minutes_listened r) = first_occurrences (map user_Name users).
Proof.
  unfold aggregate.
  destruct (find_most_listened_songs item_data users num_top_songs) as [songs|] eqn:Es;
    simpl; [|discriminate].
  destruct (find_most_listened_artists item_data users num_top_artists) as [artists|] eqn:Ea;
    simpl; [|discriminate].
  destruct (find_minutes_listened item_data users) as [minutes|] eqn:Em;
    simpl; [|discriminate].
  intros [= <-]. cbn [most_listened_songs most_listened_artists minutes_listened].
  split; [|split].
  - unfold find_most_listened_songs in Es.
    destruct (dict_comp_const user_Name (@nil Item) users) as (Hnd & _ & _).
    pose proof (for_each_local _ _ (songs_step_local item_data num_top_songs)
                  _ _ Hnd (fun k H => H)) as L.
    rewrite Es in L. destruct L as (-> & _). apply dict_comp_keys.
  - unfold find_most_listened_artists in Ea.
    destruct (dict_comp_const user_Name (@nil (string * Z)) users) as (Hnd & _ & _).
    pose proof (for_each_local _ _ (artists_step_local item_data num_top_artists)
                  _ _ Hnd (fun k H => H)) as L.
    rewrite Ea in L. destruct L as (-> & _). apply dict_comp_keys.
  - unfold find_minutes_listened in Em.
    destruct (dict_comp_const user_Name (PInt 0) users) as (Hnd & _ & _).
    pose proof (for_each_local _ _ (minutes_loop_local item_data)
                  _ _ Hnd (fun k H => H)) as L.
    rewrite Em in L. destruct L as (-> & _). apply dict_comp_keys.
Qed.

(** ** The items after the requests *)

Lemma last_named_In (users : list User) (u : User) :
  In u users ->
  exists u', last_named users (user_Name u) = Some u' /\
             In u' users /\ user_Name u' = user_Name u.
Proof.
  intros Hu. unfold last_named.
  destruct (find (fun u0 => String.eqb (user_Name u0) (user_Name u)) (rev users))
    as [u'|] eqn:F.
  - apply find_some in F. destruct F as [Hin E]. apply String.eqb_eq in E.
    exists u'. rewrite <- in_rev in Hin. auto.
  - exfalso. apply in_rev in Hu. apply (find_none _ _ F u) in Hu.
    now rewrite String.eqb_refl in Hu.
Qed.

Lemma last_named_Some (users : list User) (name : string) (u : User) :
  last_named users name = Some u -> In u users /\ user_Name u = name.
Proof.
  unfold last_named. intros F. apply find_some in F. destruct F as [Hin E].
  apply String.eqb_eq in E. rewrite <- in_rev in Hin. auto.
Qed.

(** The play count of a user in an item after lines 152 to 155: that of
    the server's answer for the last user of that name. *)
Lemma enriched_play_count (w : World) (users : list User) (x : Item) (u : User) :
  (forall u', In u' users -> srv_userdata w (item_Id x) (user_Id u') <> None) ->
  In u users ->
  exists u' ud,
    last_named users (user_Name u) = Some u' /\
    srv_userdata w (item_Id x) (user_Id u') = Some ud /\
    play_count (user_Name u) (enriched w users x) = OK (PlayCount ud).
Proof.
  intros Ha Hu.
  destruct (user_data_of_with w users x Ha) as (_ & _ & _ & _ & _ & _ & Hget).
  destruct (last_named_In users u Hu) as (u' & Hl & Hu' & Hn).
  specialize (Hget (user_Name u)). rewrite Hl in Hget.
  specialize (Ha u' Hu').
  destruct (srv_userdata w (item_Id x) (user_Id u')) as [ud|] eqn:E; [|congruence].
  exists u', ud. repeat split; auto.
  unfold play_count, dict_getitem. rewrite Hget. reflexivity.
Qed.

Lemma fetched_counts (w : World) (users : list User) (item_data : list Item)
  (u : User) :
  answered w item_data users -> In u users ->
  exists pc, counts (user_Name u) (map (enriched w users) item_data) pc.
Proof.
  intros Ha Hu. apply counts_of_defined. intros x' Hx'.
  apply in_map_iff in Hx'. destruct Hx' as (x & <- & Hx).
  destruct (enriched_play_count w users x u (fun u' Hu' => Ha x u' Hx Hu') Hu)
    as (u' & ud & _ & _ & E).
  eauto.
Qed.

(** ** Loops with effects *)

Lemma io_for_OK {A} (xs : list A) (body : A -> io unit) (tr : A -> list event) :
  (forall x, In x xs -> body x = (tr x, OK tt)) ->
  io_for xs body = (flat_map tr xs, OK tt).
Proof.
  induction xs as [|x xs IH]; intros H; [reflexivity|].
  cbn [io_for flat_map]. rewrite (H x (or_introl eq_refl)).
  rewrite IH by (intros; apply H; right; assumption). reflexivity.
Qed.

Lemma io_for_Raise {A} (xs1 xs2 : list A) (x : A) (body : A -> io unit)
  (tr : A -> list event) (t : list event) (e : exn) :
  (forall y, In y xs1 -> body y = (tr y, OK tt)) ->
  body x = (t, Raise e) ->
  io_for (xs1 ++ x :: xs2) body = (flat_map tr xs1 ++ t, Raise e).
Proof.
  induction xs1 as [|y xs1 IH]; intros H Hx.
  - cbn [app io_for flat_map]. rewrite Hx. reflexivity.
  - cbn [app io_for flat_map]. rewrite (H y (or_introl eq_refl)).
    rewrite IH by (auto; intros; apply H; right; assumption).
    cbn. now rewrite app_assoc.
Qed.

Lemma io_for_OK_inv {A} (xs : list A) (body : A -> io unit) (t : list event) :
  io_for xs body = (t, OK tt) ->
  forall x, In x xs -> snd (body x) = OK tt.
Proof.
  revert t. induction xs as [|y xs IH]; intros t H x Hx; [destruct Hx|].
  cbn [io_for] in H. apply io_bind_result_OK in H.
  destruct H as (t1 & [] & t2 & Hy & Hrest & _).
  destruct Hx as [<-|Hx]; [now rewrite Hy | eauto].
Qed.

(** ** The report stage *)

Section ReportStage.
Variable w : World.
Variables num_top_songs num_top_artists : Z.
Variable r : Recap.

Lemma songs_of_key (user : string) :
  In user (dict_keys (most_listened_songs r)) ->
  dict_get (most_listened_songs r) user = Some (songs_of r user).
Proof.
  intros H. apply dict_get_In in H. unfold songs_of.
  destruct (dict_get (most_listened_songs r) user); congruence.
Qed.

Lemma artists_of_key (user : string) :
  In user (dict_keys (most_listened_artists r)) ->
  dict_get (most_listened_artists r) user = Some (artists_of r user).
Proof.
  intros H. apply dict_get_In in H. unfold artists_of.
  destruct (dict_get (most_listened_artists r) user); congruence.
Qed.

Lemma minutes_of_key (user : string) :
  In user (dict_keys (minutes_listened r)) ->
  dict_get (minutes_listened r) user = Some (minutes_of r user).
Proof.
  intros H. apply dict_get_In in H. unfold minutes_of.
  destruct (dict_get (minutes_listened r) user); congruence.
Qed.

(** The list of line 193. *)
Lemma names_and_albums (songs : list Item) :
  if forallb has_album songs
  then map_result name_and_album songs
       = OK (map (fun thing => (item_Name thing, album_of thing)) songs)
  else map_result name_and_album songs = Raise (KeyError "AlbumArtist").
Proof.
  induction songs as [|x xs IH]; [reflexivity|].
  cbn [forallb map_result map].
  unfold name_and_album at 1 3, has_album at 1, album_of at 1, field.
  destruct (item_AlbumArtist x) as [album|]; cbn [bind andb]; [|reflexivity].
  destruct (forallb has_album xs); rewrite IH; reflexivity.
Qed.

(** Lines 193 to 195. *)
Lemma debug_print_cases :
  (~ In "maf"%string (dict_keys (most_listened_songs r)) /\
   debug_print r = ([], Raise (KeyError "maf"))) \/
  (In "maf"%string (dict_keys (most_listened_songs r)) /\
   albums_known r = false /\
   debug_print r = ([], Raise (KeyError "AlbumArtist"))) \/
  (In "maf"%string (dict_keys (most_listened_songs r)) /\
   albums_known r = true /\
   debug_print r = (debug_events r, OK tt)).
Proof.
  unfold debug_print, debug_events, albums_known, songs_of, dict_getitem.
  destruct (dict_get (most_listened_songs r) "maf") as [songs|] eqn:E.
  2:{ left. split; [|reflexivity]. intros H. apply dict_get_In in H. congruence. }
  right.
  assert (Hk : In "maf"%string (dict_keys (most_listened_songs r)))
    by (apply dict_get_In; congruence).
  pose proof (names_and_albums songs) as N.
  destruct (forallb has_album songs).
  - right. repeat (split; [auto|]). cbn. rewrite N. reflexivity.
  - left. repeat (split; [auto|]). cbn. rewrite N. reflexivity.
Qed.

(** Line 198 for one user. *)
Lemma image_body_cases (user : string) :
  In user (dict_keys (most_listened_songs r)) ->
  let body :=
    item_id <~ lift (top_song_id r user) ;; get_item_image w item_id in
  match songs_of r user with
  | [] => body = ([], Raise IndexError)
  | first :: _ =>
      if srv_image w (item_Id first)
      then if can_open w (AssetFile (item_Id first))
           then body = (image_events r user, OK tt)
           else body = ([EvRequest (ReqImage (item_Id first))],
                        Raise (OSError (AssetFile (item_Id first))))
      else body = ([EvRequest (ReqImage (item_Id first))],
                   Raise (HttpError (ReqImage (item_Id first))))
  end.
Proof.
  intros Hk. cbn zeta. unfold top_song_id, image_events, first_id.
  rewrite (dict_getitem_OK _ _ _ (songs_of_key user Hk)).
  destruct (songs_of r user) as [|first rest]; [reflexivity|].
  cbn. unfold get_item_image, open_file.
  destruct (srv_image w (item_Id first)); [|reflexivity].
  destruct (can_open w (AssetFile (item_Id first))); reflexivity.
Qed.

Lemma image_body_OK (user : string) :
  In user (dict_keys (most_listened_songs r)) ->
  has_image w r user = true ->
  (item_id <~ lift (top_song_id r user) ;; get_item_image w item_id)
  = (image_events r user, OK tt).
Proof.
  intros Hk H. pose proof (image_body_cases user Hk) as B. cbn zeta in B.
  unfold has_image in H.
  destruct (songs_of r user) as [|first rest]; [discriminate|].
  apply andb_true_iff in H. destruct H as [H1 H2]. now rewrite H1, H2 in B.
Qed.

(** Lines 197 and 198 where every user has a top song with an image. *)
Lemma fetch_images_OK :
  (forall user, In user (dict_keys (most_listened_songs r)) ->
     has_image w r user = true) ->
  fetch_images w r
  = (flat_map (image_events r) (dict_keys (most_listened_songs r)), OK tt).
Proof.
  intros H. unfold fetch_images. apply io_for_OK. intros user Hu.
  now apply image_body_OK; auto.
Qed.

(** The same lines where some user has no top song, no image, or an image
    whose file cannot be opened. *)
Lemma fetch_images_Raise :
  ~ (forall user, In user (dict_keys (most_listened_songs r)) ->
       has_image w r user = true) ->
  exists (t : list event) (e : exn),
    fetch_images w r = (t, Raise e) /\
    Forall (fun ev => is_report ev = false) t /\
    ((e = IndexError /\
      exists user, In user (dict_keys (most_listened_songs r)) /\
                   songs_of r user = []) \/
     (exists item_id t',
        e = HttpError (ReqImage item_id) /\ srv_image w item_id = false /\
        t = t' ++ [EvRequest (ReqImage item_id)]) \/
     (exists item_id,
        e = OSError (AssetFile item_id) /\
        can_open w (AssetFile item_id) = false)).
Proof.
  intros Hno.
  destruct (first_failure (has_image w r) (dict_keys (most_listened_songs r)))
    as [Hall|(us1 & u & us2 & E & H1 & H2)]; [tauto|].
  assert (Hu : In u (dict_keys (most_listened_songs r))) by (rewrite E; apply in_elt).
  assert (Hpre : forall y, In y us1 ->
            (item_id <~ lift (top_song_id r y) ;; get_item_image w item_id)
            = (image_events r y, OK tt)).
  { intros y Hy. apply image_body_OK; [|now apply H1].
    rewrite E. apply in_or_app. left. assumption. }
  assert (Himg : Forall (fun ev => is_report ev = false) (flat_map (image_events r) us1)).
  { apply Forall_flat_map. apply Forall_forall. intros y _.
    repeat constructor. }
  pose proof (image_body_cases u Hu) as B. cbn zeta in B.
  unfold has_image in H2. unfold fetch_images. rewrite E.
  destruct (songs_of r u) as [|first rest] eqn:Es.
  - exists (flat_map (image_events r) us1 ++ []), IndexError.
    split; [exact (io_for_Raise us1 us2 u _ _ _ _ Hpre B)|].
    split; [rewrite app_nil_r; assumption|].
    left. split; [reflexivity|]. exists u. split; [apply in_elt | exact Es].
  - destruct (srv_image w (item_Id first)) eqn:Esrv.
    + cbn [andb] in H2. rewrite H2 in B.
      exists (flat_map (image_events r) us1 ++ [EvRequest (ReqImage (item_Id first))]),
             (OSError (AssetFile (item_Id first))).
      split; [exact (io_for_Raise us1 us2 u _ _ _ _ Hpre B)|].
      split; [apply Forall_app; split; [assumption | repeat constructor]|].
      right. right. exists (item_Id first). auto.
    + exists (flat_map (image_events r) us1 ++ [EvRequest (ReqImage (item_Id first))]),
             (HttpError (ReqImage (item_Id first))).
      split; [exact (io_for_Raise us1 us2 u _ _ _ _ Hpre B)|].
      split; [apply Forall_app; split; [assumption | repeat constructor]|].
      right. left. exists (item_Id first), (flat_map (image_events r) us1). auto.
Qed.
End ReportStage.

Section Reports.
Variable w : World.
Variables num_top_songs num_top_artists : Z.
Variable r : Recap.
Hypothesis keys : same_keys r.

Section OneUser.
Variable user : string.
Hypothesis user_key : In user (dict_keys (most_listened_songs r)).

Lemma songs_entry : dict_get (most_listened_songs r) user = Some (songs_of r user).
Proof. now apply songs_of_key. Qed.

Lemma artists_entry :
  dict_get (most_listened_artists r) user = Some (artists_of r user).
Proof. apply artists_of_key. destruct keys as [-> _]. assumption. Qed.

Lemma minutes_entry : dict_get (minutes_listened r) user = Some (minutes_of r user).
Proof. apply minutes_of_key. destruct keys as [_ ->]. assumption. Qed.

(** A row beyond one of the two lists. *)
Lemma write_row_Raise (i : nat) :
  (List.length (artists_of r user) <= i)%nat \/
  (List.length (songs_of r user) <= i)%nat ->
  exists t, write_row r user i = (t, Raise IndexError) /\
            Forall (on_report user) t.
Proof.
  intros H. unfold write_row, list_getitem.
  rewrite (dict_getitem_OK _ _ _ songs_entry), (dict_getitem_OK _ _ _ artists_entry).
  cbn [io_bind lift emit fst snd].
  destruct (nth_error (artists_of r user) i) as [a|] eqn:Ea;
    [|cbn; eexists; split; [reflexivity | repeat constructor; eexists; reflexivity]].
  cbn [io_bind lift emit fst snd].
  destruct (nth_error (songs_of r user) i) as [s|] eqn:Es;
    [|cbn; eexists; split;
      [reflexivity | repeat (constructor; [eexists; reflexivity|]); constructor]].
  exfalso. destruct H as [H|H]; apply nth_error_None in H; congruence.
Qed.

Lemma table_row_on_report (i : nat) :
  Forall (on_report user) (table_row user (artists_of r user) (songs_of r user) i).
Proof.
  unfold table_row.
  destruct (nth_error (artists_of r user) i), (nth_error (songs_of r user) i);
    repeat (constructor; [eexists; reflexivity|]); constructor.
Qed.

Lemma write_rows_Raise (k start : nat) :
  (start <= List.length (artists_of r user))%nat ->
  (start <= List.length (songs_of r user))%nat ->
  (List.length (artists_of r user) < start + k)%nat \/
  (List.length (songs_of r user) < start + k)%nat ->
  exists t, io_for (seq start k) (write_row r user) = (t, Raise IndexError) /\
            Forall (on_report user) t.
Proof.
  revert start. induction k as [|k IH]; intros start Ha Hs H; [lia|].
  cbn [seq io_for].
  destruct (Nat.eq_dec start (List.length (artists_of r user))) as [Ea|Ea].
  { destruct (write_row_Raise start ltac:(lia)) as (t & -> & Ht). cbn. eauto. }
  destruct (Nat.eq_dec start (List.length (songs_of r user))) as [Es|Es].
  { destruct (write_row_Raise start ltac:(lia)) as (t & -> & Ht). cbn. eauto. }
  rewrite (write_row_OK r user _ _ songs_entry artists_entry start) by lia.
  destruct (IH (S start) ltac:(lia) ltac:(lia) ltac:(lia)) as (t & -> & Ht).
  cbn. eexists. split; [reflexivity|].
  apply Forall_app. split; [apply table_row_on_report | assumption].
Qed.

(** Lines 201 to 270 for a user whose file cannot be opened. *)
Lemma write_report_closed :
  can_open w (HtmlFile user) = false ->
  write_report w num_top_songs num_top_artists r user
  = ([], Raise (OSError (HtmlFile user))).
Proof. intros H. unfold write_report, open_file. rewrite H. reflexivity. Qed.

(** The same lines for a user with a top song and enough entries. *)
Lemma write_report_ready :
  can_open w (HtmlFile user) = true ->
  ready (Z.min num_top_songs num_top_artists) r user = true ->
  write_report w num_top_songs num_top_artists r user
  = (report_events (Z.min num_top_songs num_top_artists) r user, OK tt).
Proof.
  unfold ready, report_events, first_id. intros Hopen H.
  destruct (songs_of r user) as [|first rest] eqn:Es; [discriminate|].
  apply andb_true_iff in H. destruct H as [Ha Hs].
  apply Z.leb_le in Ha, Hs.
  unfold write_report, open_file, top_song_id, list_getitem, range.
  rewrite Hopen.
  rewrite (dict_getitem_OK _ _ _ songs_entry), (dict_getitem_OK _ _ _ minutes_entry).
  rewrite Es. cbn [bind nth_error lift emit io_bind app fst snd].
  rewrite <- Es.
  rewrite (write_rows_OK r user _ _ songs_entry artists_entry) by (rewrite ?Es; lia).
  cbn [io_bind app fst snd]. reflexivity.
Qed.

(** The same lines for a user without a top song or with too few
    entries: the file is opened, and the report is not completed. *)
Lemma write_report_short :
  can_open w (HtmlFile user) = true ->
  ready (Z.min num_top_songs num_top_artists) r user = false ->
  exists t,
    write_report w num_top_songs num_top_artists r user
    = (EvOpen (HtmlFile user) :: t, Raise IndexError) /\
    Forall (on_report user) t.
Proof.
  unfold ready. intros Hopen H.
  unfold write_report, open_file, top_song_id, list_getitem, range.
  rewrite Hopen.
  rewrite (dict_getitem_OK _ _ _ songs_entry), (dict_getitem_OK _ _ _ minutes_entry).
  destruct (songs_of r user) as [|first rest] eqn:Es.
  { cbn. eexists. split; [reflexivity|].
    repeat (constructor; [eexists; reflexivity|]); constructor. }
  cbn [bind nth_error lift emit io_bind app fst snd].
  destruct (write_rows_Raise (Z.to_nat (Z.min num_top_songs num_top_artists)) 0)
    as (t & E & Ht); [lia | lia | |].
  { rewrite Es. apply andb_false_iff in H.
    destruct H as [H|H]; apply Z.leb_gt in H; cbn [List.length] in *; lia. }
  rewrite E. cbn. eexists. split; [reflexivity|].
  repeat (constructor; [eexists; reflexivity|]). assumption.
Qed.

(** The two ways in which these lines fail. *)
Lemma write_report_Raise :
  reportable w (Z.min num_top_songs num_top_artists) r user = false ->
  exists t e,
    write_report w num_top_songs num_top_artists r user = (t, Raise e) /\
    ((can_open w (HtmlFile user) = false /\ t = [] /\ e = OSError (HtmlFile user)) \/
     (can_open w (HtmlFile user) = true /\
      ready (Z.min num_top_songs num_top_artists) r user = false /\
      e = IndexError /\
      exists t', t = EvOpen (HtmlFile user) :: t' /\ Forall (on_report user) t')).
Proof.
  unfold reportable. intros H.
  destruct (can_open w (HtmlFile user)) eqn:Hopen.
  - cbn [andb] in H. destruct (write_report_short Hopen H) as (t' & E & Ht).
    exists (EvOpen (HtmlFile user) :: t'), IndexError.
    split; [assumption|]. right. eauto 10.
  - exists [], (OSError (HtmlFile user)).
    split; [now apply write_report_closed|]. left. auto.
Qed.
End OneUser.

(** The ways in which lines 192 to 270 end. *)
Lemma report_cases :
  let n := Z.min num_top_songs num_top_artists in
  let users := dict_keys (most_listened_songs r) in
  (~ In "maf"%string users /\
   report w num_top_songs num_top_artists r = ([], Raise (KeyError "maf"))) \/
  (In "maf"%string users /\ albums_known r = false /\
   report w num_top_songs num_top_artists r
   = ([], Raise (KeyError "AlbumArtist"))) \/
  (In "maf"%string users /\ albums_known r = true /\
   (exists user, In user users /\ has_image w r user = false) /\
   exists t e,
     report w num_top_songs num_top_artists r = (debug_events r ++ t, Raise e) /\
     Forall (fun ev => is_report ev = false) t /\
     ((e = IndexError /\ exists user, In user users /\ songs_of r user = []) \/
      (exists item_id t',
         e = HttpError (ReqImage item_id) /\ srv_image w item_id = false /\
         t = t' ++ [EvRequest (ReqImage item_id)]) \/
      (exists item_id,
         e = OSError (AssetFile item_id) /\
         can_open w (AssetFile item_id) = false))) \/
  (In "maf"%string users /\ albums_known r = true /\
   (forall user, In user users -> has_image w r user = true) /\
   exists us1 u us2 t e,
     users = us1 ++ u :: us2 /\
     (forall user, In user us1 -> reportable w n r user = true) /\
     reportable w n r u = false /\
     report w num_top_songs num_top_artists r
     = (debug_events r ++ flat_map (image_events r) users
        ++ flat_map (report_events n r) us1 ++ t,
        Raise e) /\
     ((can_open w (HtmlFile u) = false /\ t = [] /\ e = OSError (HtmlFile u)) \/
      (can_open w (HtmlFile u) = true /\ ready n r u = false /\
       e = IndexError /\
       exists t', t = EvOpen (HtmlFile u) :: t' /\ Forall (on_report u) t'))) \/
  (In "maf"%string users /\ albums_known r = true /\
   (forall user, In user users -> has_image w r user = true) /\
   (forall user, In user users -> reportable w n r user = true) /\
   report w num_top_songs num_top_artists r
   = (debug_events r ++ flat_map (image_events r) users
      ++ flat_map (report_events n r) users, OK tt)).
Proof.
  cbn zeta. unfold report.
  destruct (debug_print_cases r) as [[Hmaf ->]|[(Hmaf & Halb & ->)|(Hmaf & Halb & ->)]];
    [left; split; [assumption | reflexivity]
    |right; left; repeat (split; [assumption|]); reflexivity
    |].
  do 2 right.
  destruct (first_failure (has_image w r) (dict_keys (most_listened_songs r)))
    as [Himg|Himg].
  2:{ left. do 2 (split; [assumption|]).
      destruct Himg as (us1 & u & us2 & Eu & _ & Hu).
      assert (Hk : In u (dict_keys (most_listened_songs r)))
        by (rewrite Eu; apply in_elt).
      split; [eauto|].
      destruct (fetch_images_Raise w r) as (t & e & E & Ht & He).
      { intros Hall. rewrite (Hall u Hk) in Hu. discriminate. }
      exists t, e. rewrite E. cbn. auto. }
  right. rewrite (fetch_images_OK w r Himg).
  assert (Hready : forall user, In user (dict_keys (most_listened_songs r)) ->
            reportable w (Z.min num_top_songs num_top_artists) r user = true ->
            write_report w num_top_songs num_top_artists r user
            = (report_events (Z.min num_top_songs num_top_artists) r user, OK tt)).
  { intros user Hk H. unfold reportable in H. apply andb_true_iff in H.
    destruct H as [H1 H2]. now apply write_report_ready. }
  destruct (first_failure (reportable w (Z.min num_top_songs num_top_artists) r)
              (dict_keys (most_listened_songs r)))
    as [Hall|(us1 & u & us2 & Eu & H1 & Hu)].
  - right. repeat (split; [assumption|]).
    rewrite (io_for_OK _ _ (report_events (Z.min num_top_songs num_top_artists) r)).
    + cbn. reflexivity.
    + intros user Hk. apply Hready; auto.
  - left. repeat (split; [assumption|]).
    assert (Hk : In u (dict_keys (most_listened_songs r))) by (rewrite Eu; apply in_elt).
    destruct (write_report_Raise u Hk Hu) as (t & e & E & He).
    exists us1, u, us2, t, e. repeat (split; [assumption|]).
    split; [|exact He].
    pose proof (io_for_Raise us1 us2 u
                  (write_report w num_top_songs num_top_artists r)
                  (report_events (Z.min num_top_songs num_top_artists) r) _ _
                  ltac:(intros y Hy; apply Hready; auto;
                        rewrite Eu; apply in_or_app; left; exact Hy) E) as R.
    rewrite <- Eu in R. rewrite R. cbn. reflexivity.
Qed.
End Reports.

(** ** The run *)

Section RunCases.
Variable w : World.
Variables num_top_songs num_top_artists : Z.

Lemma run_fetch_Raise (t : list event) (e : exn) :
  fetch w = (t, Raise e) ->
  generate_jellyfin_recap w num_top_songs num_top_artists = (t, Raise e).
Proof. intros E. unfold generate_jellyfin_recap. now rewrite E. Qed.

Lemma run_aggregate_Raise (t0 : list event) (item_data : list Item)
  (users : list User) (e : exn) :
  fetch w = (t0, OK (item_data, users)) ->
  aggregate item_data users num_top_songs num_top_artists = Raise e ->
  exists t,
    generate_jellyfin_recap w num_top_songs num_top_artists = (t0 ++ t, Raise e) /\
    early_only t.
Proof.
  intros E Ha. unfold generate_jellyfin_recap. rewrite E. cbn [io_bind fst snd].
  pose proof (aggregation_result num_top_songs num_top_artists item_data users) as R.
  pose proof (early_aggregation num_top_songs num_top_artists item_data users) as Ht.
  destruct (aggregation num_top_songs num_top_artists item_data users) as [t res].
  cbn [fst snd] in *. rewrite Ha in R. subst res. cbn. eauto.
Qed.

Lemma run_aggregate_OK (t0 : list event) (item_data : list Item)
  (users : list User) (r : Recap) :
  fetch w = (t0, OK (item_data, users)) ->
  aggregate item_data users num_top_songs num_top_artists = OK r ->
  generate_jellyfin_recap w num_top_songs num_top_artists
  = (t0 ++ aggregation_events num_top_songs num_top_artists
     ++ fst (report w num_top_songs num_top_artists r),
     snd (report w num_top_songs num_top_artists r)).
Proof.
  intros E Ha. unfold generate_jellyfin_recap. rewrite E. cbn [io_bind fst snd].
  rewrite (aggregation_OK num_top_songs num_top_artists _ _ _ Ha).
  cbn [io_bind fst snd].
  destruct (report w num_top_songs num_top_artists r) as [t res]. reflexivity.
Qed.

Lemma aggregate_same_keys (item_data : list Item) (users : list User) (r : Recap) :
  aggregate item_data users num_top_songs num_top_artists = OK r -> same_keys r.
Proof.
  intros H. destruct (aggregate_keys _ _ _ _ _ H) as (Hs & Ha & Hm).
  unfold same_keys. rewrite Hs, Ha, Hm. auto.
Qed.

Lemma early_no_report (t : list event) :
  early_only t -> Forall (fun ev => is_report ev = false) t.
Proof.
  unfold early_only. apply Forall_impl. intros [] H; try reflexivity; discriminate.
Qed.

(** After the requests no entry is missing: the aggregation raises
    nothing but [OverflowError] and the [KeyError] of an item without
    ticks. *)
Lemma fetched_aggregate_raise (t0 : list event) (item_data : list Item)
  (users : list User) (e : exn) :
  fetch w = (t0, OK (item_data, users)) ->
  aggregate item_data users num_top_songs num_top_artists = Raise e ->
  e = OverflowError \/
  (e = KeyError "RunTimeTicks" /\
   exists x, In x item_data /\ item_RunTimeTicks x = None).
Proof.
  intros E Ha. apply aggregate_raise in Ha.
  destruct Ha as [->|[(x & Hx & Hnone & ->)|(u & x & Hu & Hx & Hmiss & _)]];
    [left; reflexivity | right; eauto |].
  exfalso. apply fetch_OK_inv in E.
  destruct E as (items & _ & _ & Hans & -> & _).
  destruct (fetched_counts w users items u Hans Hu) as (pc & Hpc).
  destruct (Hpc x Hx) as (entry & Hget & _). congruence.
Qed.

Lemma maf_key (item_data : list Item) (users : list User) (r : Recap) :
  aggregate item_data users num_top_songs num_top_artists = OK r ->
  In "maf"%string (dict_keys (most_listened_songs r)) <->
  exists u, In u users /\ user_Name u = "maf"%string.
Proof.
  intros H. destruct (aggregate_keys _ _ _ _ _ H) as (-> & _).
  rewrite first_occurrences_In, in_map_iff. split; intros (u & A & B); eauto.
Qed.
End RunCases.

(** ** The entries of a user *)

Lemma slice_to_length {A} (l : list A) (n : Z) :
  Z.of_nat (List.length (slice_to l n)) = slice_length (Z.of_nat (List.length l)) n.
Proof.
  unfold slice_to, slice_length. destruct (n <? 0) eqn:E;
    [apply Z.ltb_lt in E | apply Z.ltb_ge in E]; rewrite length_firstn; lia.
Qed.

Section Entries.
Variable item_data : list Item.
Variable users : list User.
Variables num_top_songs num_top_artists : Z.
Variable r : Recap.
Hypothesis aggregate_OK :
  aggregate item_data users num_top_songs num_top_artists = OK r.

Lemma aggregate_OK_inv :
  find_most_listened_songs item_data users num_top_songs
    = OK (most_listened_songs r) /\
  find_most_listened_artists item_data users num_top_artists
    = OK (most_listened_artists r) /\
  find_minutes_listened item_data users = OK (minutes_listened r).
Proof.
  unfold aggregate in aggregate_OK.
  destruct (find_most_listened_songs item_data users num_top_songs); [|discriminate].
  destruct (find_most_listened_artists item_data users num_top_artists);
    [|discriminate].
  destruct (find_minutes_listened item_data users); [|discriminate].
  simpl in aggregate_OK. injection aggregate_OK as <-. auto.
Qed.

Variable u : User.
Hypothesis u_user : In u users.

Lemma songs_of_top :
  top_songs item_data num_top_songs (user_Name u) = OK (songs_of r (user_Name u)).
Proof.
  destruct aggregate_OK_inv as (Hs & _).
  pose proof (find_most_listened_songs_spec item_data users num_top_songs) as S.
  rewrite Hs in S. destruct (S u u_user) as (top & Ht & Hg).
  unfold songs_of. now rewrite Hg.
Qed.

Lemma artists_of_top :
  top_artists item_data num_top_artists (user_Name u)
  = OK (artists_of r (user_Name u)).
Proof.
  destruct aggregate_OK_inv as (_ & Ha & _).
  pose proof (find_most_listened_artists_spec item_data users num_top_artists) as S.
  rewrite Ha in S. destruct (S u u_user) as (top & Ht & Hg).
  unfold artists_of. now rewrite Hg.
Qed.

Lemma aggregate_counts : exists pc, counts (user_Name u) item_data pc.
Proof.
  apply counts_of_defined. intros x Hx.
  destruct (play_count (user_Name u) x) as [n|e] eqn:E; [eauto|].
  apply play_count_raise in E. destruct E as [_ E].
  destruct (top_songs_missing item_data num_top_songs _ _ Hx E) as (e' & He').
  rewrite songs_of_top in He'. discriminate.
Qed.

(** The user's top songs and top artists are the slices of the two
    rankings. *)
Lemma entries_of_user (pc : Item -> Z) :
  counts (user_Name u) item_data pc ->
  exists ranked_songs ranked_artists,
    stable_sorted_desc pc item_data ranked_songs /\
    songs_of r (user_Name u) = slice_to ranked_songs num_top_songs /\
    stable_sorted_desc snd (artist_totals pc item_data) ranked_artists /\
    artists_of r (user_Name u) = slice_to ranked_artists num_top_artists.
Proof.
  intros Hpc.
  destruct (top_songs_total item_data num_top_songs _ pc
              (counts_play_count _ _ _ Hpc)) as (rs & Hrs & Es).
  destruct (top_artists_total item_data num_top_artists _ pc Hpc) as (ra & Hra & Ea).
  rewrite songs_of_top in Es. rewrite artists_of_top in Ea.
  injection Es as Es. injection Ea as Ea. eauto 10.
Qed.

Lemma entries_lengths :
  Z.of_nat (List.length (songs_of r (user_Name u)))
    = slice_length (Z.of_nat (List.length item_data)) num_top_songs /\
  Z.of_nat (List.length (artists_of r (user_Name u)))
    = slice_length (distinct_artists item_data) num_top_artists.
Proof.
  destruct aggregate_counts as (pc & Hpc).
  destruct (entries_of_user pc Hpc) as (rs & ra & (Ps & _) & -> & (Pa & _) & ->).
  rewrite !slice_to_length.
  rewrite <- (Permutation_length Ps), <- (Permutation_length Pa).
  unfold artist_totals, distinct_artists.
  now rewrite length_map, first_occurrences_length.
Qed.

Lemma songs_of_items (x : Item) : In x (songs_of r (user_Name u)) -> In x item_data.
Proof.
  destruct aggregate_counts as (pc & Hpc).
  destruct (entries_of_user pc Hpc) as (rs & ra & (Ps & _) & -> & _).
  unfold slice_to. intros H. destruct (num_top_songs <? 0);
    apply In_firstn in H; now apply (Permutation_in _ (Permutation_sym Ps)).
Qed.
End Entries.

(** The top songs of maf are items: they have the fields of the items. *)
Lemma albums_of_items (item_data : list Item) (users : list User)
  (num_top_songs num_top_artists : Z) (r : Recap) :
  aggregate item_data users num_top_songs num_top_artists = OK r ->
  (forall x, In x item_data -> item_AlbumArtist x <> None) ->
  albums_known r = true.
Proof.
  intros H Hall. unfold albums_known. apply forallb_forall. intros x Hx.
  assert (Hin : In x item_data).
  { destruct (in_dec string_dec "maf"%string (dict_keys (most_listened_songs r)))
      as [Hk|Hk].
    - apply (maf_key num_top_songs num_top_artists _ _ _ H) in Hk.
      destruct Hk as (u & Hu & Hn). rewrite <- Hn in Hx.
      exact (songs_of_items _ _ _ _ _ H u Hu x Hx).
    - exfalso. unfold songs_of in Hx.
      destruct (dict_get (most_listened_songs r) "maf") eqn:E; [|destruct Hx].
      apply Hk. apply dict_get_In. congruence. }
  specialize (Hall x Hin). unfold has_album.
  destruct (item_AlbumArtist x); [reflexivity | congruence].
Qed.

Lemma enriched_well_formed (w : World) (users : list User) (item_data : list Item) :
  well_formed item_data -> well_formed (map (enriched w users) item_data).
Proof.
  intros H x' Hx'. apply in_map_iff in Hx'. destruct Hx' as (x & <- & Hx).
  exact (H x Hx).
Qed.

Lemma userdata_requests_length (item_data : list Item) (users : list User) :
  List.length (userdata_requests item_data users)
  = (List.length item_data * List.length users)%nat.
Proof.
  unfold userdata_requests. induction item_data as [|x xs IH]; [reflexivity|].
  cbn [flat_map List.length]. rewrite length_app, length_map, IH. lia.
Qed.

Lemma enriched_all (w : World) (users : list User) (item_data : list Item) :
  answered w item_data users ->
  Forall2 (with_userdata w users) item_data (map (enriched w users) item_data).
Proof.
  induction item_data as [|x xs IH]; intros H; [constructor|].
  cbn [map]. constructor.
  - apply user_data_of_with. intros u Hu. apply H; [left; reflexivity | assumption].
  - apply IH. intros y u Hy Hu. apply H; [right|]; assumption.
Qed.

(** On a server that answers every request, lines 134 to 159 ask for
    the items, then for the users, then for the user data of every item for
    every user, item by item and in the order of the users: as many
    requests as items times users.  [users.json] is written before these,
    [all_items.json] after them, and the items come back with their user
    data. *)
Theorem fetch_asks_for_every_pair :
  forall (w : World) (item_data : list Item) (users : list User),
    srv_items w = Some item_data -> srv_users w = Some users ->
    answered w item_data users ->
    exists item_data',
      fetch w
      = (fetch_head w item_data users
         ++ map EvRequest (userdata_requests item_data users)
         ++ [EvPrint MsgUserDataAdded;
             EvJsonDump AllItemsJson (DumpItems item_data')],
         OK (item_data', users)) /\
      Forall2 (with_userdata w users) item_data item_data' /\
      List.length (userdata_requests item_data users)
      = (List.length item_data * List.length users)%nat.
Proof.
  intros w item_data users Hi Hu Ha.
  exists (map (enriched w users) item_data).
  split; [now apply fetch_OK|].
  split; [now apply enriched_all | apply userdata_requests_length].
Qed.

(** Where lines 134 to 159 complete, the server answered every request,
    and every item that comes back is an item of the server, in the same
    order, whose [UserData] has one key for every name of a user, in the
    order of the first users of these names, with the answer for the last
    user of the name; so every item has a play count for every user of the
    list. *)
Theorem fetched_items_have_every_entry :
  forall (w : World) (t : list event) (item_data' : list Item) (users : list User),
    fetch w = (t, OK (item_data', users)) ->
    exists item_data,
      srv_items w = Some item_data /\ srv_users w = Some users /\
      answered w item_data users /\
      Forall2 (with_userdata w users) item_data item_data' /\
      forall x' u, In x' item_data' -> In u users ->
        exists n, play_count (user_Name u) x' = OK n.
Proof.
  intros w t item_data' users E.
  apply fetch_OK_inv in E. destruct E as (item_data & Hi & Hu & Ha & -> & _).
  exists item_data. repeat (split; [assumption|]).
  split; [now apply enriched_all|].
  intros x' u Hx' Huu.
  destruct (fetched_counts w users item_data u Ha Huu) as (pc & Hpc).
  exists (pc x'). now apply (counts_play_count _ _ _ Hpc).
Qed.

(** A run that ends with the error of a request ends at that request:
    the server refused it, it is the last event of the run, and no report
    has been opened or written. *)
Theorem refused_request_ends_the_run :
  forall (w : World) (num_top_songs num_top_artists : Z) (q : request),
    snd (generate_jellyfin_recap w num_top_songs num_top_artists)
      = Raise (HttpError q) ->
    refused w q /\
    exists t,
      fst (generate_jellyfin_recap w num_top_songs num_top_artists)
        = t ++ [EvRequest q] /\
      Forall (fun ev => is_report ev = false) t.
Proof.
  intros w ns na q H.
  pose proof (early_no_report _ (early_fetch w)) as Hearly.
  destruct (fetch_cases w)
    as [(Hi & E)|[(items & Hi & Hu & E)|[(items & users & t & x & u & H')|H']]].
  - rewrite (run_fetch_Raise w ns na _ _ E) in H |- *. rewrite E in Hearly.
    cbn [fst snd] in *. injection H as <-. split; [exact Hi|].
    exists (mkdirs w ++ [EvPrint MsgRetrievingItems]).
    split; [now rewrite <- app_assoc|].
    change [EvPrint MsgRetrievingItems; EvRequest ReqItems]
      with ([EvPrint MsgRetrievingItems] ++ [EvRequest ReqItems]) in Hearly.
    rewrite app_assoc in Hearly. now apply Forall_app in Hearly.
  - rewrite (run_fetch_Raise w ns na _ _ E) in H |- *. rewrite E in Hearly.
    cbn [fst snd] in *. injection H as <-. split; [exact Hu|].
    exists (mkdirs w ++ [EvPrint MsgRetrievingItems; EvRequest ReqItems;
                         EvPrint (MsgItemsRetrieved (List.length items));
                         EvPrint MsgRetrievingUsers]).
    split; [now rewrite <- app_assoc|].
    change [EvPrint MsgRetrievingItems; EvRequest ReqItems;
            EvPrint (MsgItemsRetrieved (List.length items));
            EvPrint MsgRetrievingUsers; EvRequest ReqUsers]
      with ([EvPrint MsgRetrievingItems; EvRequest ReqItems;
             EvPrint (MsgItemsRetrieved (List.length items));
             EvPrint MsgRetrievingUsers] ++ [EvRequest ReqUsers])
      in Hearly.
    rewrite app_assoc in Hearly. now apply Forall_app in Hearly.
  - destruct H' as (Hi & Hu & Hx & Huu & Hno & Ht & E).
    rewrite (run_fetch_Raise w ns na _ _ E) in H |- *. rewrite E in Hearly.
    cbn [fst snd] in *. injection H as <-. split; [exact Hno|].
    exists (fetch_head w items users ++ t).
    split; [now rewrite <- app_assoc|].
    rewrite app_assoc in Hearly. now apply Forall_app in Hearly.
  - destruct H' as (items & users & Hi & Hu & Ha & E).
    rewrite E in Hearly. cbn [fst] in Hearly.
    destruct (aggregate (map (enriched w users) items) users ns na) as [r|e] eqn:Eagg.
    + rewrite (run_aggregate_OK w ns na _ _ _ _ E Eagg) in H |- *.
      cbn [fst snd] in *.
      pose proof (aggregate_same_keys _ _ _ _ _ Eagg) as Hk.
      destruct (report_cases w ns na r Hk)
        as [(_ & R)|[(_ & _ & R)|[(_ & _ & _ & t & e & R & Ht & He)|[(_ & _ & _ & us1 & u & us2 & t & e & _ & _ & _ & R & He)|(_ & _ & _ & _ & R)]]]];
        rewrite R in H |- *; cbn [fst snd] in *; try discriminate.
      * injection H as ->.
        destruct He as [[He _]|[(item_id & t' & He & Hno & ->)|(item_id & He & _)]];
          [discriminate | | discriminate].
        injection He as ->. split; [exact Hno|].
        apply Forall_app in Ht. destruct Ht as [Ht _].
        match type of Hearly with Forall _ ?t0 =>
          exists (t0 ++ aggregation_events ns na ++ debug_events r ++ t')
        end.
        split; [rewrite <- !app_assoc; reflexivity|].
        apply Forall_app; split; [exact Hearly|].
        apply Forall_app; split; [repeat constructor|].
        apply Forall_app; split; [repeat constructor | exact Ht].
      * exfalso. injection H as ->.
        destruct He as [(_ & _ & He)|(_ & _ & He & _)]; discriminate.
    + exfalso.
      destruct (run_aggregate_Raise w ns na _ _ _ _ E Eagg) as (t & R & _).
      rewrite R in H. cbn [snd] in H. injection H as ->.
      destruct (fetched_aggregate_raise w ns na _ _ _ _ E Eagg) as [He|[He _]];
        discriminate.
Qed.

(** Where the items of the server have their album artist and their
    ticks and every file can be opened, a run raises one of four
    exceptions: the error of a request that the server refused; [KeyError]
    of maf, where no user has that name; [IndexError], where some user has
    no top song, or fewer top songs or top artists than the table has rows;
    [OverflowError], from the conversion of an [int] to a float in the
    minutes.  In particular no run raises the [KeyError] of an item without
    an entry for a user. *)
Theorem run_raises_one_of_four :
  forall (w : World) (num_top_songs num_top_artists : Z) (e : exn),
    (forall item_data, srv_items w = Some item_data -> well_formed item_data) ->
    (forall p, can_open w p = true) ->
    snd (generate_jellyfin_recap w num_top_songs num_top_artists) = Raise e ->
    (exists q, e = HttpError q /\ refused w q) \/
    (e = KeyError "maf" /\
     forall users u, srv_users w = Some users -> In u users ->
       user_Name u <> "maf"%string) \/
    (e = IndexError /\
     exists t item_data users r user,
       fetch w = (t, OK (item_data, users)) /\
       aggregate item_data users num_top_songs num_top_artists = OK r /\
       In user (map user_Name users) /\
       ready (Z.min num_top_songs num_top_artists) r user = false) \/
    e = OverflowError.
Proof.
  intros w ns na e Hwf Hopen H.
  destruct (fetch w) as [t0 [[item_data users]|e0]] eqn:E.
  2:{ left. rewrite (run_fetch_Raise w ns na _ _ E) in H. cbn in H.
      injection H as <-.
      destruct (fetch_cases w)
        as [(Hi & E')|[(items & Hi & Hu & E')|[(items & us & t & x & u & H')|H']]].
      - rewrite E in E'. injection E' as _ ->. eauto.
      - rewrite E in E'. injection E' as _ ->. eauto.
      - destruct H' as (_ & _ & _ & _ & Hno & _ & E').
        rewrite E in E'. injection E' as _ ->. eauto.
      - destruct H' as (? & ? & _ & _ & _ & E'). rewrite E in E'. discriminate. }
  assert (Hitems : well_formed item_data).
  { pose proof E as E'. apply fetch_OK_inv in E'.
    destruct E' as (items & Hi & _ & _ & -> & _).
    apply enriched_well_formed. now apply Hwf. }
  destruct (aggregate item_data users ns na) as [r|e1] eqn:Eagg.
  2:{ do 3 right.
      destruct (run_aggregate_Raise w ns na _ _ _ _ E Eagg) as (t & R & _).
      rewrite R in H. cbn in H. injection H as <-.
      destruct (fetched_aggregate_raise w ns na _ _ _ _ E Eagg)
        as [He|(_ & x & Hx & Hnone)]; [assumption|].
      exfalso. now apply (Hitems x Hx). }
  rewrite (run_aggregate_OK w ns na _ _ _ _ E Eagg) in H. cbn [snd] in H.
  pose proof (aggregate_same_keys _ _ _ _ _ Eagg) as Hk.
  destruct (aggregate_keys _ _ _ _ _ Eagg) as (Hkeys & _).
  assert (Hname : forall user, In user (dict_keys (most_listened_songs r)) ->
                    In user (map user_Name users)).
  { intros user. rewrite Hkeys. apply first_occurrences_In. }
  destruct (report_cases w ns na r Hk)
    as [(Hmaf & R)|[(_ & Halb & _)|[(_ & _ & _ & t & e' & R & _ & He)|[(_ & _ & _ & us1 & u & us2 & t & e' & Eu & _ & _ & R & He)|(_ & _ & _ & _ & R)]]]].
  - rewrite R in H; cbn [snd] in H. injection H as <-.
    right. left. split; [reflexivity|].
    intros users' u Hus Hu Hn.
    apply fetch_users in E. rewrite E in Hus. injection Hus as <-.
    apply Hmaf. apply (maf_key ns na _ _ _ Eagg). eauto.
  - exfalso.
    rewrite (albums_of_items _ _ _ _ _ Eagg (fun x Hx => proj1 (Hitems x Hx))) in Halb.
    discriminate.
  - rewrite R in H; cbn [snd] in H. injection H as <-.
    destruct He as [(-> & user & Huser & Hs)|[(item_id & t' & -> & Hno & _)|(item_id & _ & Hno)]].
    + right. right. left. split; [reflexivity|].
      exists t0, item_data, users, r, user.
      repeat (split; [auto|]). unfold ready. now rewrite Hs.
    + left. eauto.
    + rewrite Hopen in Hno. discriminate.
  - rewrite R in H; cbn [snd] in H. injection H as <-.
    destruct He as [(Hno & _)|(_ & Hu & -> & _)].
    + rewrite Hopen in Hno. discriminate.
    + right. right. left. split; [reflexivity|].
      exists t0, item_data, users, r, u.
      repeat (split; [auto|]); [|assumption].
      apply Hname. rewrite Eu. apply in_elt.
  - rewrite R in H. discriminate.
Qed.

(** ** When the aggregation completes *)

Lemma find_most_listened_songs_total (item_data : list Item) (users : list User)
  (n : Z) :
  (forall u, In u users -> exists pc, counts (user_Name u) item_data pc) ->
  exists songs, find_most_listened_songs item_data users n = OK songs.
Proof.
  intros H. pose proof (find_most_listened_songs_spec item_data users n) as S.
  destruct (find_most_listened_songs item_data users n) as [songs|e]; [eauto|].
  exfalso. destruct S as (u & Hu & S). apply top_songs_raise in S.
  destruct S as (_ & x & Hx & Hm). destruct (H u Hu) as (pc & Hpc).
  destruct (Hpc x Hx) as (entry & Hget & _). congruence.
Qed.

Lemma find_minutes_listened_total (item_data : list Item) (users : list User) :
  (forall u x, In u users -> In x item_data ->
     exists t, minutes_of_item (user_Name u) x = OK t) ->
  exists minutes, find_minutes_listened item_data users = OK minutes.
Proof.
  intros H. pose proof (find_minutes_listened_spec item_data users) as S.
  destruct (find_minutes_listened item_data users) as [minutes|e]; [eauto|].
  exfalso. destruct S as (u & Hu & S).
  destruct (map_result_pointwise (minutes_of_item (user_Name u)) item_data
              (fun x Hx => H u x Hu Hx)) as (ts & Hts).
  rewrite (add_minutes_sum _ _ _ Hts) in S. discriminate.
Qed.

Lemma aggregate_total (item_data : list Item) (users : list User)
  (num_top_songs num_top_artists : Z) :
  (forall u x, In u users -> In x item_data ->
     exists entry, dict_get (item_UserData x) (user_Name u) = Some entry /\
                   convertible (PlayCount entry)) ->
  (forall x, In x item_data ->
     exists ticks, item_RunTimeTicks x = Some ticks /\ convertible ticks) ->
  exists r, aggregate item_data users num_top_songs num_top_artists = OK r.
Proof.
  intros Hpc Ht.
  assert (Hc : forall u, In u users -> exists pc, counts (user_Name u) item_data pc).
  { intros u Hu. apply counts_of_defined. intros x Hx.
    destruct (Hpc u x Hu Hx) as (entry & E & _).
    exists (PlayCount entry). unfold play_count, dict_getitem. now rewrite E. }
  destruct (find_most_listened_songs_total item_data users num_top_songs Hc)
    as (songs & Es).
  destruct (find_most_listened_artists_total item_data users num_top_artists Hc)
    as (artists & Ea).
  destruct (find_minutes_listened_total item_data users) as (minutes & Em).
  { intros u x Hu Hx. destruct (Hpc u x Hu Hx) as (entry & E & Hn).
    destruct (Ht x Hx) as (ticks & Eticks & Hticks).
    apply (minutes_of_item_OK _ _ ticks (PlayCount entry)); auto.
    unfold play_count, dict_getitem. now rewrite E. }
  unfold aggregate. rewrite Es, Ea, Em. simpl. eauto.
Qed.

(** ** When the report stage completes *)

Section Ready.
Variable item_data : list Item.
Variable users : list User.
Variables num_top_songs num_top_artists : Z.
Variable r : Recap.
Hypothesis aggregate_OK :
  aggregate item_data users num_top_songs num_top_artists = OK r.

Lemma ready_enough (u : User) :
  In u users ->
  ready (Z.min num_top_songs num_top_artists) r (user_Name u) = true <->
  enough item_data num_top_songs num_top_artists.
Proof.
  intros Hu.
  destruct (entries_lengths _ _ _ _ _ aggregate_OK u Hu) as (Ls & La).
  unfold ready, enough. rewrite <- Ls, <- La.
  destruct (songs_of r (user_Name u)) as [|first rest] eqn:Es.
  - cbn [List.length]. split; [discriminate | lia].
  - rewrite andb_true_iff, !Z.leb_le. cbn [List.length]. lia.
Qed.

Lemma key_is_name (user : string) :
  In user (dict_keys (most_listened_songs r)) ->
  exists u, In u users /\ user_Name u = user.
Proof.
  destruct (aggregate_keys _ _ _ _ _ aggregate_OK) as (-> & _).
  rewrite first_occurrences_In, in_map_iff. intros (u & A & B). eauto.
Qed.

Lemma name_is_key (u : User) :
  In u users -> In (user_Name u) (dict_keys (most_listened_songs r)).
Proof.
  destruct (aggregate_keys _ _ _ _ _ aggregate_OK) as (-> & _).
  rewrite first_occurrences_In. apply in_map.
Qed.
End Ready.

(** ** A run that returns *)

Section RunReturns.
Variable w : World.
Variables num_top_songs num_top_artists : Z.

Lemma run_OK_inv (t : list event) :
  generate_jellyfin_recap w num_top_songs num_top_artists = (t, OK tt) ->
  exists t0 item_data users r,
    fetch w = (t0, OK (item_data, users)) /\
    aggregate item_data users num_top_songs num_top_artists = OK r /\
    (exists u, In u users /\ user_Name u = "maf"%string) /\
    albums_known r = true /\
    (forall u, In u users -> has_image w r (user_Name u) = true) /\
    (forall u, In u users ->
       reportable w (Z.min num_top_songs num_top_artists) r (user_Name u) = true) /\
    t = t0 ++ aggregation_events num_top_songs num_top_artists
        ++ debug_events r
        ++ flat_map (image_events r) (first_occurrences (map user_Name users))
        ++ flat_map (report_events (Z.min num_top_songs num_top_artists) r)
             (first_occurrences (map user_Name users)).
Proof.
  set (ns := num_top_songs). set (na := num_top_artists).
  intros H.
  destruct (fetch w) as [t0 [[item_data users]|e0]] eqn:E.
  2:{ rewrite (run_fetch_Raise w ns na _ _ E) in H. discriminate. }
  destruct (aggregate item_data users ns na) as [r|e1] eqn:Eagg.
  2:{ destruct (run_aggregate_Raise w ns na _ _ _ _ E Eagg) as (t' & R & _).
      rewrite R in H. discriminate. }
  rewrite (run_aggregate_OK w ns na _ _ _ _ E Eagg) in H.
  pose proof (aggregate_same_keys _ _ _ _ _ Eagg) as Hk.
  destruct (aggregate_keys _ _ _ _ _ Eagg) as (Hkeys & _).
  destruct (report_cases w ns na r Hk)
    as [(_ & R)|[(_ & _ & R)|[(_ & _ & _ & t' & e' & R & _)|[(_ & _ & _ & ? & ? & ? & ? & ? & _ & _ & _ & R & _)|(Hmaf & Halb & Himg & Hready & R)]]]];
    rewrite R in H; cbn [fst snd] in H; try discriminate.
  injection H as <-.
  exists t0, item_data, users, r. rewrite <- Hkeys.
  repeat (split; [auto|]); [| | |reflexivity].
  + now apply (maf_key ns na _ _ _ Eagg).
  + intros u Hu. apply Himg. now apply (name_is_key _ _ _ _ _ Eagg).
  + intros u Hu. apply Hready. now apply (name_is_key _ _ _ _ _ Eagg).
Qed.

Lemma run_OK (t0 : list event) (item_data : list Item) (users : list User)
  (r : Recap) :
  fetch w = (t0, OK (item_data, users)) ->
  aggregate item_data users num_top_songs num_top_artists = OK r ->
  (exists u, In u users /\ user_Name u = "maf"%string) ->
  albums_known r = true ->
  (forall u, In u users -> has_image w r (user_Name u) = true) ->
  (forall u, In u users ->
     reportable w (Z.min num_top_songs num_top_artists) r (user_Name u) = true) ->
  generate_jellyfin_recap w num_top_songs num_top_artists
  = (t0 ++ aggregation_events num_top_songs num_top_artists
     ++ debug_events r
     ++ flat_map (image_events r) (first_occurrences (map user_Name users))
     ++ flat_map (report_events (Z.min num_top_songs num_top_artists) r)
          (first_occurrences (map user_Name users)),
     OK tt).
Proof.
  set (ns := num_top_songs). set (na := num_top_artists).
  intros E Eagg Hmaf Halb Himg Hready.
  rewrite (run_aggregate_OK w ns na _ _ _ _ E Eagg).
  pose proof (aggregate_same_keys _ _ _ _ _ Eagg) as Hk.
  destruct (aggregate_keys _ _ _ _ _ Eagg) as (Hkeys & _).
  apply (maf_key ns na _ _ _ Eagg) in Hmaf.
  destruct (report_cases w ns na r Hk)
    as [(Hno & _)|[(_ & Hno & _)|[(_ & _ & (user & Huser & Hno) & _)|[(_ & _ & _ & us1 & u & us2 & ? & ? & Eu & _ & Hu & _)|(_ & _ & _ & _ & R)]]]].
  + tauto.
  + congruence.
  + exfalso.
    destruct (key_is_name _ _ _ _ _ Eagg user Huser) as (u & Hu & <-).
    rewrite (Himg u Hu) in Hno. discriminate.
  + exfalso.
    assert (Hin : In u (dict_keys (most_listened_songs r)))
      by (rewrite Eu; apply in_elt).
    destruct (key_is_name _ _ _ _ _ Eagg u Hin) as (u' & Hu' & <-).
    rewrite (Hready u' Hu') in Hu. discriminate.
  + rewrite R. cbn [fst snd]. now rewrite Hkeys.
Qed.
End RunReturns.

(** A run returns exactly when the requests of lines 134 to 159 and the
    aggregation complete, some user is named maf, every top song of maf has
    an album artist (line 193 reads it), every user has a top song whose
    image the server has and whose image file can be opened, and every user
    has a report file that can be opened and as many top songs and top
    artists as the table has rows.  Its events are then those of the
    requests, the three prints of the aggregation, the three prints of
    lines 193 to 195, then for every name of a user, in the order of the
    first users of these names, the request and the saving of the image,
    and then for every such name the complete report.  (The two directories
    and the two JSON files are taken to be made and written, and a request
    to get a response.) *)
Theorem run_returns_exactly_when :
  forall (w : World) (num_top_songs num_top_artists : Z) (t : list event),
    generate_jellyfin_recap w num_top_songs num_top_artists = (t, OK tt) <->
    exists t0 item_data users r,
      fetch w = (t0, OK (item_data, users)) /\
      aggregate item_data users num_top_songs num_top_artists = OK r /\
      (exists u, In u users /\ user_Name u = "maf"%string) /\
      albums_known r = true /\
      (forall u, In u users -> has_image w r (user_Name u) = true) /\
      (forall u, In u users ->
         reportable w (Z.min num_top_songs num_top_artists) r (user_Name u) = true) /\
      t = t0 ++ aggregation_events num_top_songs num_top_artists
          ++ debug_events r
          ++ flat_map (image_events r) (first_occurrences (map user_Name users))
          ++ flat_map (report_events (Z.min num_top_songs num_top_artists) r)
               (first_occurrences (map user_Name users)).
Proof.
  intros w ns na t. split.
  - apply run_OK_inv.
  - intros (t0 & item_data & users & r & E & Eagg & Hmaf & Halb & Himg & Hready & ->).
    now apply (run_OK w ns na t0 item_data users r).
Qed.

(** ** The items of the server and the items of the run *)

Lemma enriched_artists (w : World) (users : list User) (item_data : list Item) :
  flat_map item_Artists (map (enriched w users) item_data)
  = flat_map item_Artists item_data.
Proof. induction item_data as [|x xs IH]; simpl; congruence. Qed.

Lemma enriched_enough (w : World) (users : list User) (item_data : list Item)
  (num_top_songs num_top_artists : Z) :
  enough (map (enriched w users) item_data) num_top_songs num_top_artists <->
  enough item_data num_top_songs num_top_artists.
Proof.
  unfold enough, distinct_artists. now rewrite length_map, enriched_artists.
Qed.

(** Where a user has no top song (no items, or [num_top_songs] is 0 or
    too negative), a run whose requests succeed and that has a user named maf
    ends with [IndexError] at line 198, for the first user: after the prints
    of lines 193 to 195 nothing happens, no image is requested and no report
    is opened. *)
Theorem no_top_song_raises_at_the_first_image :
  forall (w : World) (num_top_songs num_top_artists : Z) (t0 : list event)
         (item_data : list Item) (users : list User) (r : Recap),
    fetch w = (t0, OK (item_data, users)) ->
    aggregate item_data users num_top_songs num_top_artists = OK r ->
    (exists u, In u users /\ user_Name u = "maf"%string) ->
    slice_length (Z.of_nat (List.length item_data)) num_top_songs < 1 ->
    generate_jellyfin_recap w num_top_songs num_top_artists
    = (t0 ++ aggregation_events num_top_songs num_top_artists ++ debug_events r,
       Raise IndexError).
Proof.
  intros w ns na t0 item_data users r E Eagg Hmaf Hlen.
  rewrite (run_aggregate_OK w ns na _ _ _ _ E Eagg).
  assert (Hempty : forall u, In u users -> songs_of r (user_Name u) = []).
  { intros u Hu. destruct (entries_lengths _ _ _ _ _ Eagg u Hu) as (Ls & _).
    destruct (songs_of r (user_Name u)); [reflexivity | cbn [List.length] in Ls; lia]. }
  assert (Halb : albums_known r = true).
  { destruct Hmaf as (u & Hu & Hn). unfold albums_known.
    rewrite <- Hn, (Hempty u Hu). reflexivity. }
  apply (maf_key ns na _ _ _ Eagg) in Hmaf.
  unfold report.
  destruct (debug_print_cases r) as [[Hno _]|[(_ & Hno & _)|(_ & _ & ->)]];
    [tauto | congruence |].
  unfold fetch_images.
  destruct (dict_keys (most_listened_songs r)) as [|k ks] eqn:Ek; [destruct Hmaf|].
  assert (Hk : In k (dict_keys (most_listened_songs r))) by (rewrite Ek; left; reflexivity).
  pose proof (image_body_cases w r k Hk) as B. cbn zeta in B.
  destruct (key_is_name _ _ _ _ _ Eagg k Hk) as (u & Hu & <-).
  rewrite (Hempty u Hu) in B.
  cbn [io_for]. rewrite B. cbn. rewrite ?app_nil_r. reflexivity.
Qed.

(** Where every user has a top song with an image that can be saved but
    fewer top songs or top artists than the table has rows, a run whose
    requests succeed, that has a user named maf whose top songs all have
    an album artist, and whose report files can be opened, ends with
    [IndexError] in the report of the first user: all images are saved, the
    file of that user is opened and written in part, and no other report is
    opened. *)
Theorem short_lists_stop_the_first_report :
  forall (w : World) (num_top_songs num_top_artists : Z) (t0 : list event)
         (item_data : list Item) (users : list User) (r : Recap),
    fetch w = (t0, OK (item_data, users)) ->
    aggregate item_data users num_top_songs num_top_artists = OK r ->
    (exists u, In u users /\ user_Name u = "maf"%string) ->
    albums_known r = true ->
    (forall u, In u users -> has_image w r (user_Name u) = true) ->
    (forall u, In u users -> can_open w (HtmlFile (user_Name u)) = true) ->
    ~ enough item_data num_top_songs num_top_artists ->
    exists u rest t,
      first_occurrences (map user_Name users) = user_Name u :: rest /\
      generate_jellyfin_recap w num_top_songs num_top_artists
      = (t0 ++ aggregation_events num_top_songs num_top_artists
         ++ debug_events r
         ++ flat_map (image_events r) (user_Name u :: rest)
         ++ EvOpen (HtmlFile (user_Name u)) :: t,
         Raise IndexError) /\
      Forall (on_report (user_Name u)) t.
Proof.
  intros w ns na t0 item_data users r E Eagg Hmaf Halb Himg Hopen Hshort.
  rewrite (run_aggregate_OK w ns na _ _ _ _ E Eagg).
  pose proof (aggregate_same_keys _ _ _ _ _ Eagg) as Hk.
  destruct (aggregate_keys _ _ _ _ _ Eagg) as (Hkeys & _).
  assert (Hnot : forall user, In user (dict_keys (most_listened_songs r)) ->
                   reportable w (Z.min ns na) r user = false).
  { intros user Huser.
    destruct (key_is_name _ _ _ _ _ Eagg user Huser) as (u & Hu & <-).
    unfold reportable. rewrite (Hopen u Hu). cbn [andb].
    destruct (ready (Z.min ns na) r (user_Name u)) eqn:R; [|reflexivity].
    exfalso. apply Hshort. now apply (ready_enough _ _ _ _ _ Eagg u Hu). }
  apply (maf_key ns na _ _ _ Eagg) in Hmaf.
  destruct (report_cases w ns na r Hk)
    as [(Hno & _)|[(_ & Hno & _)|[(_ & _ & (user & Huser & Hno) & _)|[(_ & _ & _ & us1 & k & us2 & t & e & Eu & H1 & _ & R & He)|(_ & _ & _ & Hall & _)]]]].
  - tauto.
  - congruence.
  - exfalso. destruct (key_is_name _ _ _ _ _ Eagg user Huser) as (u & Hu & <-).
    rewrite (Himg u Hu) in Hno. discriminate.
  - destruct us1 as [|k1 us1].
    2:{ exfalso.
        assert (Hin : In k1 (dict_keys (most_listened_songs r)))
          by (rewrite Eu; left; reflexivity).
        pose proof (Hnot k1 Hin) as C.
        rewrite (H1 k1 (or_introl eq_refl)) in C. discriminate. }
    cbn [app flat_map] in Eu, R.
    assert (Hin : In k (dict_keys (most_listened_songs r)))
      by (rewrite Eu; left; reflexivity).
    destruct (key_is_name _ _ _ _ _ Eagg k Hin) as (u & Hu & <-).
    destruct He as [(Hno & _)|(_ & _ & -> & t' & -> & Ht)].
    { rewrite (Hopen u Hu) in Hno. discriminate. }
    exists u, us2, t'. rewrite <- Hkeys, Eu. split; [reflexivity|].
    split; [|assumption]. rewrite R, Eu. reflexivity.
  - exfalso. pose proof (Hnot _ Hmaf) as C. rewrite (Hall _ Hmaf) in C.
    discriminate.
Qed.

Lemma fetched_aggregate_total (w : World) (item_data : list Item)
  (users : list User) (num_top_songs num_top_artists : Z) :
  answered w item_data users -> convertible_data w item_data users ->
  exists r,
    aggregate (map (enriched w users) item_data) users
      num_top_songs num_top_artists = OK r.
Proof.
  intros Ha (Ht & Hpc). apply aggregate_total.
  - intros u x' Hu Hx'. apply in_map_iff in Hx'. destruct Hx' as (x & <- & Hx).
    destruct (enriched_play_count w users x u (fun u' Hu' => Ha x u' Hx Hu') Hu)
      as (u' & ud & Hl & Hud & E).
    unfold play_count, dict_getitem in E.
    destruct (dict_get (item_UserData (enriched w users x)) (user_Name u))
      as [entry|]; [|discriminate].
    exists entry. split; [reflexivity|].
    cbn [bind] in E. injection E as E. rewrite E.
    apply last_named_Some in Hl. destruct Hl as [Hu' _]. eauto.
  - intros x' Hx'. apply in_map_iff in Hx'. destruct Hx' as (x & <- & Hx).
    cbn. auto.
Qed.

(** After the requests of lines 134 to 159 the aggregation completes,
    where every item has its ticks and the ticks and the play counts of the
    items are below [2 ** 1023] in magnitude: no entry is missing, every
    [int] converts to a float, and the run goes on to lines 192 to 270. *)
Theorem fetched_aggregation_completes :
  forall (w : World) (num_top_songs num_top_artists : Z) (t0 : list event)
         (item_data : list Item) (users : list User),
    fetch w = (t0, OK (item_data, users)) ->
    (forall x, In x item_data ->
       exists ticks, item_RunTimeTicks x = Some ticks /\ convertible ticks) ->
    (forall x u entry, In x item_data -> In u users ->
       dict_get (item_UserData x) (user_Name u) = Some entry ->
       convertible (PlayCount entry)) ->
    exists r,
      aggregate item_data users num_top_songs num_top_artists = OK r /\
      generate_jellyfin_recap w num_top_songs num_top_artists
      = (t0 ++ aggregation_events num_top_songs num_top_artists
         ++ fst (report w num_top_songs num_top_artists r),
         snd (report w num_top_songs num_top_artists r)).
Proof.
  intros w ns na t0 item_data users E Ht Hc.
  destruct (aggregate_total item_data users ns na) as (r & Hr); [|assumption|].
  - intros u x Hu Hx. pose proof E as E'. apply fetch_OK_inv in E'.
    destruct E' as (items & _ & _ & Ha & -> & _).
    destruct (fetched_counts w users items u Ha Hu) as (pc & Hpc).
    destruct (Hpc x Hx) as (entry & Hget & _).
    exists entry. split; [assumption|]. apply (Hc x u); auto.
  - exists r. split; [assumption|].
    exact (run_aggregate_OK w ns na _ _ _ _ E Hr).
Qed.

(** A run returns on a server that answers the requests for the items,
    for the users and for the user data of every item for every user, has
    the image of every item and a user named maf, sends every item with its
    album artist and its ticks, and has items, and distinct artists, enough
    for the numbers asked for ([enough]); the ticks and the play counts
    being convertible, and the file of the image of every item and the file
    of the report of every user being files that can be opened.  (The two
    directories and the two JSON files are taken to be made and written,
    and a request to get a response.) *)
Theorem run_succeeds :
  forall (w : World) (num_top_songs num_top_artists : Z)
         (item_data : list Item) (users : list User),
    srv_items w = Some item_data -> srv_users w = Some users ->
    answered w item_data users ->
    (forall x, In x item_data -> srv_image w (item_Id x) = true) ->
    (exists u, In u users /\ user_Name u = "maf"%string) ->
    enough item_data num_top_songs num_top_artists ->
    convertible_data w item_data users ->
    (forall x, In x item_data -> item_AlbumArtist x <> None) ->
    (forall x, In x item_data -> can_open w (AssetFile (item_Id x)) = true) ->
    (forall u, In u users -> can_open w (HtmlFile (user_Name u)) = true) ->
    snd (generate_jellyfin_recap w num_top_songs num_top_artists) = OK tt.
Proof.
  intros w ns na item_data users Hi Hu Ha Himg Hmaf Hen Hc Halb Hasset Hhtml.
  pose proof (fetch_OK w item_data users Hi Hu Ha) as E.
  destruct (fetched_aggregate_total w item_data users ns na Ha Hc) as (r & Eagg).
  assert (Hready : forall u, In u users -> ready (Z.min ns na) r (user_Name u) = true).
  { intros u Huu. apply (ready_enough _ _ _ _ _ Eagg u Huu).
    now apply enriched_enough. }
  rewrite (run_OK w ns na _ _ _ _ E Eagg Hmaf); [reflexivity | | |].
  - apply (albums_of_items _ _ _ _ _ Eagg).
    intros x' Hx'. apply in_map_iff in Hx'. destruct Hx' as (x & <- & Hx).
    cbn. now apply Halb.
  - intros u Huu. specialize (Hready u Huu). unfold ready in Hready.
    unfold has_image.
    destruct (songs_of r (user_Name u)) as [|first rest] eqn:Es; [discriminate|].
    assert (Hin : In first (map (enriched w users) item_data)).
    { apply (songs_of_items _ _ _ _ _ Eagg u Huu). rewrite Es. left. reflexivity. }
    apply in_map_iff in Hin. destruct Hin as (x & <- & Hx). cbn.
    now rewrite (Himg x Hx), (Hasset x Hx).
  - intros u Huu. unfold reportable. now rewrite (Hhtml u Huu), (Hready u Huu).
Qed.

(** A run returns only if the server answered the requests for the
    items, for the users and for every user data, some user is named maf,
    and the items and the distinct artists are enough for the numbers asked
    for: for numbers that are not negative, there is an item,
    [num_top_songs] is 1 at least, and the smaller of the two numbers
    exceeds neither the number of items nor that of distinct artists. *)
Theorem run_returns_only_with_enough :
  forall (w : World) (num_top_songs num_top_artists : Z),
    snd (generate_jellyfin_recap w num_top_songs num_top_artists) = OK tt ->
    exists item_data users,
      srv_items w = Some item_data /\ srv_users w = Some users /\
      answered w item_data users /\
      (exists u, In u users /\ user_Name u = "maf"%string) /\
      enough item_data num_top_songs num_top_artists /\
      (0 <= num_top_songs -> 0 <= num_top_artists ->
       item_data <> [] /\ 1 <= num_top_songs /\
       Z.min num_top_songs num_top_artists <= Z.of_nat (List.length item_data) /\
       Z.min num_top_songs num_top_artists <= distinct_artists item_data).
Proof.
  intros w ns na H.
  destruct (generate_jellyfin_recap w ns na) as [t res] eqn:R. cbn in H. subst res.
  apply run_OK_inv in R.
  destruct R as (t0 & item_data' & users & r & E & Eagg & Hmaf & _ & _ & Hready & _).
  apply fetch_OK_inv in E. destruct E as (item_data & Hi & Hu & Ha & -> & _).
  exists item_data, users. repeat (split; [assumption|]).
  assert (Hen : enough item_data ns na).
  { destruct Hmaf as (u & Huu & _). apply (enriched_enough w users).
    apply (ready_enough _ _ _ _ _ Eagg u Huu).
    specialize (Hready u Huu). unfold reportable in Hready.
    apply andb_true_iff in Hready. tauto. }
  split; [assumption|].
  intros Hns Hna. destruct Hen as (H1 & H2 & H3).
  unfold slice_length in *.
  destruct (ns <? 0) eqn:En; [apply Z.ltb_lt in En; lia|].
  destruct (na <? 0) eqn:Ea; [apply Z.ltb_lt in Ea; lia|].
  repeat split; try lia.
  intros ->. cbn in H1. lia.
Qed.

(** The three dictionaries of the recap have one key for every name
    of a user, in the order of the first users of these names; and every
    user has as many top songs as [item_data[:num_top_songs]] has elements,
    and as many top artists as a list of the distinct artists cut by
    [[:num_top_artists]]: the same numbers for all users. *)
Theorem recap_shape :
  forall (item_data : list Item) (users : list User)
         (num_top_songs num_top_artists : Z) (r : Recap),
    aggregate item_data users num_top_songs num_top_artists = OK r ->
    dict_keys (most_listened_songs r) = first_occurrences (map user_Name users) /\
    dict_keys (most_listened_artists r) = first_occurrences (map user_Name users) /\
    dict_keys (minutes_listened r) = first_occurrences (map user_Name users) /\
    forall u, In u users ->
      Z.of_nat (List.length (songs_of r (user_Name u)))
        = slice_length (Z.of_nat (List.length item_data)) num_top_songs /\
      Z.of_nat (List.length (artists_of r (user_Name u)))
        = slice_length (distinct_artists item_data) num_top_artists.
Proof.
  intros item_data users ns na r H.
  destruct (aggregate_keys _ _ _ _ _ H) as (Hs & Ha & Hm).
  repeat (split; [assumption|]).
  intros u Hu. exact (entries_lengths _ _ _ _ _ H u Hu).
Qed.

(** A negative [num_top_songs] does not raise: the user's top songs
    are then the ranking of the items without its last [- num_top_songs]
    elements, the least played; and so for the artists with a negative
    [num_top_artists]. *)
Theorem negative_numbers_cut_the_end :
  forall (item_data : list Item) (users : list User)
         (num_top_songs num_top_artists : Z) (r : Recap) (u : User)
         (pc : Item -> Z),
    aggregate item_data users num_top_songs num_top_artists = OK r ->
    In u users -> counts (user_Name u) item_data pc ->
    exists ranked_songs ranked_artists,
      stable_sorted_desc pc item_data ranked_songs /\
      stable_sorted_desc snd (artist_totals pc item_data) ranked_artists /\
      (num_top_songs < 0 ->
       songs_of r (user_Name u)
       = firstn (List.length ranked_songs - Z.to_nat (- num_top_songs)) ranked_songs) /\
      (num_top_artists < 0 ->
       artists_of r (user_Name u)
       = firstn (List.length ranked_artists - Z.to_nat (- num_top_artists))
                ranked_artists).
Proof.
  intros item_data users ns na r u pc H Hu Hpc.
  destruct (entries_of_user _ _ _ _ _ H u Hu pc Hpc) as (rs & ra & Hrs & Es & Hra & Ea).
  exists rs, ra. repeat (split; [assumption|]).
  unfold slice_to in Es, Ea. split; intros Hn.
  - apply Z.ltb_lt in Hn. rewrite Hn in Es. rewrite Es. f_equal. lia.
  - apply Z.ltb_lt in Hn. rewrite Hn in Ea. rewrite Ea. f_equal. lia.
Qed.

(** ** The sign of the minutes *)

Lemma binary_round_aux_sign (pr em : Z) (sx : bool) (mx ex : Z) (lx : location) :
  0 <= mx ->
  match binary_round_aux pr em sx mx ex lx with
  | S754_nan => False
  | S754_zero s | S754_infinity s | S754_finite s _ _ => s = sx
  end.
Proof.
  intros Hm. unfold binary_round_aux.
  destruct (shr_fexp pr em mx ex lx) as [mrs1 e1] eqn:E1.
  destruct (shr_fexp_digits _ _ _ _ _ _ _ Hm E1) as (Hm1 & _ & _).
  pose proof (round_nearest_even_bounds (shr_m mrs1) (loc_of_shr_record mrs1)) as Hr.
  destruct (shr_fexp pr em (round_nearest_even (shr_m mrs1) (loc_of_shr_record mrs1))
              e1 loc_Exact) as [mrs2 e2] eqn:E2.
  assert (Hr0 : 0 <= round_nearest_even (shr_m mrs1) (loc_of_shr_record mrs1)) by lia.
  destruct (shr_fexp_digits _ _ _ _ _ _ _ Hr0 E2) as (Hm2 & _ & _).
  destruct (shr_m mrs2) as [|m2|m2]; [reflexivity | | lia].
  destruct (e2 <=? em - pr); reflexivity.
Qed.

Lemma binary_round_sign (s : bool) (m : positive) (e : Z) :
  match binary_round prec emax s m e with
  | S754_nan => False
  | S754_zero s' | S754_infinity s' | S754_finite s' _ _ => s' = s
  end.
Proof.
  unfold binary_round.
  destruct (shl_align m e (fexp prec emax (Z.pos (digits2_pos m) + e))) as [mz ez].
  apply binary_round_aux_sign. lia.
Qed.

Lemma float_of_int_not_negative (z : Z) (f : float) :
  0 <= z -> float_of_int z = OK f -> not_negative f.
Proof.
  unfold float_of_int, binary_normalize. intros Hz.
  destruct z as [|m|m]; [intros [= <-]; reflexivity | | lia].
  pose proof (binary_round_sign false m 0) as S.
  destruct (binary_round prec emax false m 0); intros [= <-]; exact S.
Qed.

Lemma float_of_int_finite (z : Z) (f : float) :
  float_of_int z = OK f ->
  match f with S754_zero _ | S754_finite _ _ _ => True | _ => False end.
Proof.
  unfold float_of_int. intros H.
  pose proof (binary_normalize_format prec emax ltac:(reflexivity)
                ltac:(unfold emax; lia) z) as F.
  destruct (binary_normalize prec emax z 0 false); try discriminate;
    injection H as <-; auto.
Qed.

Lemma fdiv_6e7_not_negative (x : float) :
  not_negative x -> not_negative (fdiv x float_6e7).
Proof.
  unfold fdiv, float_6e7. destruct x as [s|s| |s m e]; simpl; intros H; subst;
    try reflexivity; try contradiction.
  destruct (SFdiv_core_binary prec emax (Z.pos m) e 8053063680000000 (-27))
    as [[q e'] l] eqn:E.
  apply SFdiv_core_binary_digits in E; [|unfold emax; lia].
  destruct E as (Hq & _).
  exact (binary_round_aux_sign prec emax false q e' l Hq).
Qed.

Lemma fmul_not_negative (x y : float) :
  not_negative x -> not_negative y ->
  match x with S754_zero _ | S754_finite _ _ _ => True | _ => False end ->
  match y with S754_zero _ | S754_finite _ _ _ => True | _ => False end ->
  not_negative (fmul x y).
Proof.
  unfold fmul. destruct x as [sx|sx| |sx mx ex], y as [sy|sy| |sy my ey];
    simpl; intros Hx Hy Fx Fy; subst; try reflexivity; try contradiction.
  exact (binary_round_aux_sign prec emax false (Z.pos (mx * my)) (ex + ey)
           loc_Exact ltac:(lia)).
Qed.

Lemma fadd_not_negative (x y : float) :
  not_negative x -> not_negative y -> not_negative (fadd x y).
Proof.
  unfold fadd. destruct x as [sx|sx| |sx mx ex], y as [sy|sy| |sy my ey];
    simpl; intros Hx Hy; subst; try reflexivity; try contradiction.
  exact (binary_round_sign false _ _).
Qed.

Lemma fold_fadd_not_negative (ts : list float) :
  Forall not_negative ts ->
  forall a, not_negative a -> not_negative (fold_left fadd ts a).
Proof.
  induction 1 as [|t ts Ht _ IH]; intros a Ha; [assumption|].
  simpl. apply IH. now apply fadd_not_negative.
Qed.

Lemma float_sum_not_negative (ts : list float) :
  Forall not_negative ts -> not_negative_num (float_sum ts).
Proof.
  intros H. destruct H as [|t ts Ht Hts]; simpl; [lia|].
  apply fold_fadd_not_negative; [assumption|].
  now apply (fadd_not_negative (S754_zero false) t).
Qed.

Lemma minutes_of_item_not_negative (user : string) (x : Item) (ticks pc : Z)
  (t : float) :
  item_RunTimeTicks x = Some ticks -> 0 <= ticks ->
  play_count user x = OK pc -> 0 <= pc ->
  minutes_of_item user x = OK t -> not_negative t.
Proof.
  intros Hticks Ht Hpc Hn. unfold minutes_of_item, field. rewrite Hticks, Hpc.
  cbn [bind].
  destruct (truediv_int_float ticks float_6e7) as [q|] eqn:Eq;
    simpl; [|discriminate].
  pose proof (truediv_6e7_in_format _ _ Eq) as Fq.
  unfold truediv_int_float in Eq.
  destruct (float_of_int ticks) as [ft|] eqn:Eft; simpl in Eq;
    [|discriminate].
  injection Eq as <-.
  unfold mul_float_int. destruct (float_of_int pc) as [fp|] eqn:Efp; simpl;
    [|discriminate].
  intros [= <-]. apply fmul_not_negative.
  - apply fdiv_6e7_not_negative. now apply (float_of_int_not_negative _ _ Ht).
  - now apply (float_of_int_not_negative _ _ Hn).
  - destruct (fdiv ft float_6e7); simpl in Fq; tauto.
  - now apply float_of_int_finite in Efp.
Qed.

Lemma map_result_Forall {A B} (f : A -> result B) (P : B -> Prop) (xs : list A) :
  (forall x y, In x xs -> f x = OK y -> P y) ->
  forall ys, map_result f xs = OK ys -> Forall P ys.
Proof.
  induction xs as [|x xs IH]; intros H ys; simpl.
  - intros [= <-]. constructor.
  - destruct (f x) as [y|] eqn:E; simpl; [|discriminate].
    destruct (map_result f xs) as [ys'|]; simpl; [|discriminate].
    intros [= <-]. constructor.
    + apply (H x y); [left; reflexivity | assumption].
    + apply IH; [|reflexivity]. intros x' y' Hx'. apply H. right. assumption.
Qed.

(** The minutes of a user are never negative and never NaN, where no
    item has negative ticks or a negative play count: they are the [int] 0
    (no items), [0.0], a positive float or [inf]. *)
Theorem minutes_are_not_negative :
  forall (item_data : list Item) (users : list User) (minutes : pydict pynum)
         (u : User),
    find_minutes_listened item_data users = OK minutes ->
    In u users ->
    (forall x ticks, In x item_data -> item_RunTimeTicks x = Some ticks ->
       0 <= ticks) ->
    (forall x entry, In x item_data ->
       dict_get (item_UserData x) (user_Name u) = Some entry ->
       0 <= PlayCount entry) ->
    exists total,
      dict_get minutes (user_Name u) = Some total /\ not_negative_num total.
Proof.
  intros item_data users minutes u H Hu Ht Hpc.
  pose proof (find_minutes_listened_spec item_data users) as S.
  rewrite H in S. destruct (S u Hu) as (total & Hsum & Hget).
  exists total. split; [assumption|].
  destruct (add_minutes_OK_inv _ _ _ _ Hsum) as (ts & Hts).
  rewrite (add_minutes_sum _ _ _ Hts) in Hsum. injection Hsum as <-.
  apply float_sum_not_negative.
  refine (map_result_Forall _ _ _ _ _ Hts). intros x t Hx E.
  pose proof E as E'. unfold minutes_of_item, field in E.
  destruct (item_RunTimeTicks x) as [ticks|] eqn:Eticks; [|discriminate].
  cbn [bind] in E.
  destruct (truediv_int_float ticks float_6e7) as [q|] eqn:Eq; [|discriminate].
  cbn [bind] in E.
  unfold play_count, dict_getitem in E.
  destruct (dict_get (item_UserData x) (user_Name u)) as [entry|] eqn:En;
    [|discriminate].
  apply (minutes_of_item_not_negative (user_Name u) x ticks (PlayCount entry));
    eauto.
  unfold play_count, dict_getitem. now rewrite En.
Qed.

(** ** The top of a ranking *)

Lemma sorted_app_le {A} (R : A -> A -> Prop) (l1 l2 : list A) :
  StronglySorted R (l1 ++ l2) ->
  forall x y, In x l1 -> In y l2 -> R x y.
Proof.
  induction l1 as [|a l1 IH]; intros H x y Hx Hy; [destruct Hx|].
  cbn [app] in H. apply StronglySorted_inv in H. destruct H as [Hs Hall].
  destruct Hx as [<-|Hx]; [|now apply IH].
  rewrite Forall_forall in Hall. apply Hall. apply in_or_app. right. assumption.
Qed.

Lemma slice_to_firstn {A} (l : list A) (n : Z) :
  exists k, slice_to l n = firstn k l.
Proof. unfold slice_to. destruct (n <? 0); eauto. Qed.

Lemma slice_to_most {A} (key : A -> Z) (xs ranked : list A) (n : Z) :
  stable_sorted_desc key xs ranked ->
  exists rest,
    Permutation xs (slice_to ranked n ++ rest) /\
    forall x y, In x (slice_to ranked n) -> In y rest -> key y <= key x.
Proof.
  intros (Hp & Hs & _). destruct (slice_to_firstn ranked n) as (k & ->).
  exists (skipn k ranked). rewrite firstn_skipn. split; [assumption|].
  apply (sorted_app_le (fun a b => key b <= key a)). now rewrite firstn_skipn.
Qed.

(** No item outside a user's top songs was played more often by that
    user than an item inside, and no artist outside the top artists has a
    greater total than an artist inside: the items are the top songs and a
    rest of items that have at most the play count of every top song, and so
    for the artists. *)
Theorem top_entries_are_the_most_played :
  forall (item_data : list Item) (users : list User)
         (num_top_songs num_top_artists : Z) (r : Recap) (u : User)
         (pc : Item -> Z),
    aggregate item_data users num_top_songs num_top_artists = OK r ->
    In u users -> counts (user_Name u) item_data pc ->
    (exists rest,
       Permutation item_data (songs_of r (user_Name u) ++ rest) /\
       forall x y, In x (songs_of r (user_Name u)) -> In y rest -> pc y <= pc x) /\
    (exists rest,
       Permutation (artist_totals pc item_data)
                   (artists_of r (user_Name u) ++ rest) /\
       forall a b, In a (artists_of r (user_Name u)) -> In b rest ->
                   snd b <= snd a).
Proof.
  intros item_data users ns na r u pc H Hu Hpc.
  destruct (entries_of_user _ _ _ _ _ H u Hu pc Hpc)
    as (rs & ra & Hrs & -> & Hra & ->).
  split; [exact (slice_to_most pc _ _ ns Hrs) | exact (slice_to_most snd _ _ na Hra)].
Qed.

(** Items that the user never played are eligible: where fewer than
    [num_top_songs] items have a positive play count, and some item has
    none, an item of play count 0 is among the user's top songs. *)
Theorem unplayed_songs_fill_the_top :
  forall (item_data : list Item) (users : list User)
         (num_top_songs num_top_artists : Z) (r : Recap) (u : User)
         (pc : Item -> Z),
    aggregate item_data users num_top_songs num_top_artists = OK r ->
    In u users -> counts (user_Name u) item_data pc ->
    (forall x, In x item_data -> 0 <= pc x) ->
    Z.of_nat (List.length (filter (played pc) item_data)) < num_top_songs ->
    (List.length (filter (played pc) item_data) < List.length item_data)%nat ->
    exists x, In x (songs_of r (user_Name u)) /\ pc x = 0.
Proof.
  intros item_data users ns na r u pc H Hu Hpc Hpos Hlt1 Hlt2.
  destruct (entries_of_user _ _ _ _ _ H u Hu pc Hpc)
    as (rs & ra & (Hp & _) & Es & _).
  rewrite Es. rewrite slice_to_nonneg by lia.
  destruct (filter_length_lt (played pc) (firstn (Z.to_nat ns) rs)) as (x & Hx & Hno).
  { pose proof (filter_length_firstn (played pc) (Z.to_nat ns) rs) as L.
    rewrite <- (filter_length_perm _ _ _ Hp) in L.
    rewrite length_firstn, <- (Permutation_length Hp). lia. }
  exists x. split; [assumption|].
  unfold played in Hno. apply Z.ltb_ge in Hno.
  apply In_firstn in Hx. apply (Permutation_in _ (Permutation_sym Hp)) in Hx.
  specialize (Hpos x Hx). lia.
Qed.

(** ** Rankings without ties *)

Lemma filter_Permutation {A} (p : A -> bool) (l l' : list A) :
  Permutation l l' -> Permutation (filter p l) (filter p l').
Proof.
  induction 1 as [|x l l' _ IH|x y l|l l' l'' _ IH1 _ IH2]; simpl.
  - constructor.
  - destruct (p x); [now constructor | assumption].
  - destruct (p x), (p y); try apply Permutation_refl. constructor.
  - now transitivity (filter p l').
Qed.

Lemma filter_key_short {A} (key : A -> Z) (xs : list A) (k : Z) :
  NoDup (map key xs) ->
  (List.length (filter (fun a => (key a =? k)%Z) xs) <= 1)%nat.
Proof.
  induction xs as [|x xs IH]; simpl; intros H; [lia|].
  apply NoDup_cons_iff in H. destruct H as [Hx Hnd].
  destruct (key x =? k) eqn:E; [|auto].
  apply Z.eqb_eq in E. subst k.
  assert (Hnone : filter (fun a => key a =? key x) xs = []).
  { destruct (filter (fun a => key a =? key x) xs) as [|y ys] eqn:F; [reflexivity|].
    exfalso. assert (Hy : In y (filter (fun a => key a =? key x) xs))
      by (rewrite F; left; reflexivity).
    apply filter_In in Hy. destruct Hy as [Hy Hk]. apply Z.eqb_eq in Hk.
    apply Hx. rewrite <- Hk. now apply in_map. }
  rewrite Hnone. simpl. lia.
Qed.

Lemma Permutation_short {A} (l l' : list A) :
  Permutation l l' -> (List.length l <= 1)%nat -> l = l'.
Proof.
  intros H Hl. destruct l as [|x [|y l]]; simpl in Hl; try lia.
  - now apply Permutation_nil in H.
  - now apply Permutation_length_1_inv in H.
Qed.

(** A ranking of [xs] ranks every list with the elements of [xs], where
    no two elements have the same key. *)
Lemma stable_sorted_desc_Permutation {A} (key : A -> Z) (xs xs' ys : list A) :
  Permutation xs xs' -> NoDup (map key xs) ->
  stable_sorted_desc key xs ys -> stable_sorted_desc key xs' ys.
Proof.
  intros Hp Hnd (Hperm & Hs & Hf). split; [|split; [assumption|]].
  - now transitivity xs; [symmetry|].
  - intros k. rewrite Hf. apply Permutation_short.
    + now apply filter_Permutation.
    + now apply filter_key_short.
Qed.

Lemma sum_Permutation (l l' : list Z) : Permutation l l' -> sum l = sum l'.
Proof.
  unfold sum. induction 1; simpl; lia.
Qed.

Lemma total_plays_Permutation (pc : Item -> Z) (xs xs' : list Item) (a : string) :
  Permutation xs xs' -> total_plays pc xs a = total_plays pc xs' a.
Proof.
  intros H. unfold total_plays. apply sum_Permutation. now apply Permutation_map.
Qed.

Lemma first_occurrences_Permutation (l l' : list string) :
  Permutation l l' -> Permutation (first_occurrences l) (first_occurrences l').
Proof.
  intros H. apply NoDup_Permutation; try apply first_occurrences_NoDup.
  intros a. rewrite !first_occurrences_In.
  split; apply Permutation_in; [assumption | now symmetry].
Qed.

Lemma artist_totals_Permutation (pc : Item -> Z) (xs xs' : list Item) :
  Permutation xs xs' ->
  Permutation (artist_totals pc xs) (artist_totals pc xs').
Proof.
  intros H. unfold artist_totals.
  rewrite (map_ext (fun a => (a, total_plays pc xs a))
                   (fun a => (a, total_plays pc xs' a)))
    by (intros a; now rewrite (total_plays_Permutation pc xs xs' a H)).
  apply Permutation_map, first_occurrences_Permutation.
  now apply Permutation_flat_map.
Qed.

Lemma counts_Permutation (user : string) (xs xs' : list Item) (pc : Item -> Z) :
  Permutation xs xs' -> counts user xs pc -> counts user xs' pc.
Proof.
  intros H Hc x Hx. apply Hc. apply (Permutation_in _ (Permutation_sym H) Hx).
Qed.

(** Without ties the rankings do not depend on the order in which the
    server lists the items: where no two items have the same play count for
    the user, the user's top songs are the same for every order of the
    items, and where no two artists have the same total, so are the top
    artists. *)
Theorem rankings_without_ties :
  forall (item_data item_data' : list Item) (n : Z) (user : string)
         (pc : Item -> Z),
    counts user item_data pc -> Permutation item_data item_data' ->
    (NoDup (map pc item_data) ->
     top_songs item_data' n user = top_songs item_data n user) /\
    (NoDup (map snd (artist_totals pc item_data)) ->
     top_artists item_data' n user = top_artists item_data n user).
Proof.
  intros xs xs' n user pc Hc Hp.
  pose proof (counts_Permutation user xs xs' pc Hp Hc) as Hc'.
  split; intros Hnd.
  - destruct (top_songs_total xs n user pc (counts_play_count _ _ _ Hc))
      as (rs & Hrs & ->).
    destruct (top_songs_total xs' n user pc (counts_play_count _ _ _ Hc'))
      as (rs' & Hrs' & ->).
    apply (stable_sorted_desc_Permutation pc xs xs' rs Hp Hnd) in Hrs.
    now rewrite (stable_sorted_desc_unique pc _ _ _ Hrs' Hrs).
  - destruct (top_artists_total xs n user pc Hc) as (rs & Hrs & ->).
    destruct (top_artists_total xs' n user pc Hc') as (rs' & Hrs' & ->).
    apply (stable_sorted_desc_Permutation snd _ _ rs
             (artist_totals_Permutation pc xs xs' Hp) Hnd) in Hrs.
    now rewrite (stable_sorted_desc_unique snd _ _ _ Hrs' Hrs).
Qed.

(** ** The image of a report *)

Lemma trace_bind {A B} (P : event -> Prop) (c : io A) (k : A -> io B) :
  Forall P (fst c) ->
  (forall a, snd c = OK a -> Forall P (fst (k a))) ->
  Forall P (fst (io_bind c k)).
Proof.
  intros Hc Hk. rewrite io_bind_trace. apply Forall_app. split; [assumption|].
  destruct (snd c) as [a|e]; [apply Hk; reflexivity | constructor].
Qed.

Lemma trace_io_for {A} (P : event -> Prop) (xs : list A) (body : A -> io unit) :
  (forall x, In x xs -> Forall P (fst (body x))) ->
  Forall P (fst (io_for xs body)).
Proof.
  induction xs as [|x xs IH]; intros H; [constructor|].
  cbn [io_for]. apply trace_bind; [apply H; left; reflexivity|].
  intros _ _. apply IH. intros y Hy. apply H. right. assumption.
Qed.

Lemma split_after {A} (P : A -> bool) (l1 l2 t1 t2 : list A) (x : A) :
  l1 ++ l2 = t1 ++ x :: t2 ->
  Forall (fun y => P y = false) l1 -> P x = true ->
  exists t1', t1 = l1 ++ t1' /\ l2 = t1' ++ x :: t2.
Proof.
  revert t1. induction l1 as [|a l1 IH]; intros t1 E Hl Hx.
  - exists t1. auto.
  - apply Forall_cons_iff in Hl. destruct Hl as [Ha Hl].
    destruct t1 as [|b t1]; cbn [app] in E; injection E as -> E.
    + congruence.
    + destruct (IH t1 E Hl Hx) as (t1' & -> & ->). exists t1'. auto.
Qed.

Section Tags.
Variable w : World.
Variables num_top_songs num_top_artists : Z.
Variable r : Recap.

Lemma write_row_tags (user : string) (i : nat) :
  Forall (tag_of r user) (fst (write_row r user i)).
Proof.
  unfold write_row.
  repeat first
    [ apply trace_bind; [|intros ? _]
    | constructor; [intros ? ? [=]|]
    | constructor ].
Qed.

Lemma write_report_tags (user : string) :
  In user (dict_keys (most_listened_songs r)) ->
  Forall (tag_of r user)
         (fst (write_report w num_top_songs num_top_artists r user)).
Proof.
  intros Hk. unfold write_report.
  apply trace_bind; [constructor|]. intros _ _.
  apply trace_bind; [repeat constructor; intros ? ? [=]|]. intros _ _.
  apply trace_bind; [repeat constructor; intros ? ? [=]|]. intros _ _.
  apply trace_bind; [constructor|]. intros item_id Hid.
  assert (E : item_id = first_id r user).
  { cbn [lift snd] in Hid. unfold top_song_id, first_id, list_getitem in *.
    rewrite (dict_getitem_OK _ _ _ (songs_of_key r user Hk)) in Hid.
    cbn [bind] in Hid.
    destruct (songs_of r user) as [|first rest]; [discriminate|].
    cbn in Hid. congruence. }
  apply trace_bind; [constructor; [|constructor]; intros ? ? [= _ ->]; exact E|].
  intros _ _.
  apply trace_bind; [repeat constructor; intros ? ? [=]|]. intros _ _.
  apply trace_bind; [apply trace_io_for; intros i _; apply write_row_tags|].
  intros _ _.
  apply trace_bind; [repeat constructor; intros ? ? [=]|]. intros _ _.
  apply trace_bind; [constructor|]. intros minutes _.
  apply trace_bind; [repeat constructor; intros ? ? [=]|]. intros _ _.
  repeat constructor. intros ? ? [=].
Qed.

(** The events of lines 192 to 270: those before the reports, and the
    reports, which begin after the image of every user is saved. *)
Lemma report_trace :
  exists pre rep,
    fst (report w num_top_songs num_top_artists r) = pre ++ rep /\
    Forall (fun ev => is_report ev = false) pre /\
    Forall (fun ev => exists user,
              In user (dict_keys (most_listened_songs r)) /\ tag_of r user ev) rep /\
    (rep <> [] ->
     forall user, In user (dict_keys (most_listened_songs r)) ->
       In (EvSaveImage (AssetFile (first_id r user))) pre).
Proof.
  unfold report.
  destruct (debug_print_cases r) as [[Hmaf ->]|[(Hmaf & _ & ->)|(Hmaf & _ & ->)]].
  1,2: exists [], []; cbn; repeat split; auto; congruence.
  destruct (first_failure (has_image w r) (dict_keys (most_listened_songs r)))
    as [Himg|(us1 & u & us2 & Eu & _ & Hu)].
  - rewrite (fetch_images_OK w r Himg).
    exists (debug_events r ++ flat_map (image_events r)
                                (dict_keys (most_listened_songs r))),
           (fst (io_for (dict_keys (most_listened_songs r))
                   (write_report w num_top_songs num_top_artists r))).
    split; [|split; [|split]].
    + cbn [io_bind fst snd].
      destruct (io_for _ _) as [t res]. cbn. reflexivity.
    + apply Forall_app. split; [repeat constructor|].
      apply Forall_flat_map, Forall_forall. intros user _. repeat constructor.
    + apply trace_io_for. intros user Hk.
      apply (Forall_impl _ (fun ev H => ex_intro _ user (conj Hk H))).
      now apply write_report_tags.
    + intros _ user Hk. apply in_or_app. right. apply in_flat_map.
      exists user. split; [assumption|]. right. left. reflexivity.
  - assert (Hk : In u (dict_keys (most_listened_songs r)))
      by (rewrite Eu; apply in_elt).
    destruct (fetch_images_Raise w r) as (t & e & E & Ht & _).
    { intros Hall. rewrite (Hall u Hk) in Hu. discriminate. }
    rewrite E. exists (debug_events r ++ t), [].
    split; [cbn; now rewrite app_nil_r|].
    split; [apply Forall_app; split; [repeat constructor | assumption]|].
    split; [constructor | congruence].
Qed.
End Tags.

(** No report refers to an image that has not been saved: in every
    run, also one that fails, where a report is written the tag of an
    image, the image of that identifier has been saved before. *)
Theorem report_image_is_saved_first :
  forall (w : World) (num_top_songs num_top_artists : Z)
         (t1 t2 : list event) (p : path) (item_id : string),
    fst (generate_jellyfin_recap w num_top_songs num_top_artists)
      = t1 ++ EvWrite p (ImgTag item_id) :: t2 ->
    In (EvSaveImage (AssetFile item_id)) t1.
Proof.
  intros w ns na t1 t2 p item_id H.
  assert (Hearly : forall t, early_only t -> t = t1 ++ EvWrite p (ImgTag item_id) :: t2 ->
                     False).
  { intros t Ht ->. apply Forall_app in Ht. destruct Ht as [_ Ht].
    apply Forall_cons_iff in Ht. destruct Ht as [Ht _]. discriminate. }
  pose proof (early_fetch w) as Hf.
  destruct (fetch w) as [t0 [[item_data users]|e0]] eqn:E.
  2:{ rewrite (run_fetch_Raise w ns na _ _ E) in H. exfalso. eauto. }
  cbn [fst] in Hf.
  destruct (aggregate item_data users ns na) as [r|e1] eqn:Eagg.
  2:{ destruct (run_aggregate_Raise w ns na _ _ _ _ E Eagg) as (t & R & Ht).
      rewrite R in H. exfalso. apply (Hearly (t0 ++ t)); [|exact H].
      apply Forall_app. auto. }
  rewrite (run_aggregate_OK w ns na _ _ _ _ E Eagg) in H.
  change (t0 ++ aggregation_events ns na ++ fst (report w ns na r)
          = t1 ++ EvWrite p (ImgTag item_id) :: t2) in H.
  destruct (report_trace w ns na r) as (pre & rep & R & Hpre & Hrep & Hsaved).
  rewrite R in H.
  rewrite !app_assoc in H.
  destruct (split_after is_report _ _ _ _ _ H) as (t1' & -> & Erep); [|reflexivity|].
  { repeat (apply Forall_app; split); auto using early_no_report.
    repeat constructor. }
  assert (Hin : In (EvWrite p (ImgTag item_id)) rep) by (rewrite Erep; apply in_elt).
  rewrite Forall_forall in Hrep. destruct (Hrep _ Hin) as (user & Hk & Htag).
  rewrite (Htag p item_id eq_refl).
  apply in_or_app. left. apply in_or_app. right.
  apply Hsaved; [|assumption]. rewrite Erep. now destruct t1'.
Qed.

(** ** Witnesses *)

Lemma counts_scenario (user : string) :
  user = "alice"%string \/ user = "bob"%string ->
  counts user scenario_items (plays_of user).
Proof.
  intros [->| ->] x [<-|[<-|[<-|[]]]]; eexists; split; reflexivity.
Qed.

(** Four items with the play counts 2, 5, 2 and 5: the first three of the
    ranking are the second, the fourth and the first. *)
Lemma top_songs_stable_sort_witness :
  In alice scenario_users /\ 0 <= 3 /\
  counts "alice" tied_items (plays_of "alice") /\
  map (plays_of "alice") tied_items = [2; 5; 2; 5] /\
  exists sorted,
    stable_sorted_desc (plays_of "alice") tied_items sorted /\
    firstn 3 sorted = [tied_item "T2" 5; tied_item "T4" 5; tied_item "T1" 2] /\
    top_songs tied_items 3 "alice" = OK (firstn 3 sorted).
Proof.
  assert (Hu : In alice scenario_users) by (simpl; auto).
  assert (Hn : 0 <= 3) by lia.
  assert (Hc : counts (user_Name alice) tied_items (plays_of "alice")).
  { intros x [<-|[<-|[<-|[<-|[]]]]]; eexists; split; reflexivity. }
  split; [exact Hu|]. split; [exact Hn|]. split; [exact Hc|].
  split; [reflexivity|].
  destruct (top_songs_stable_sort tied_items scenario_users 3 alice
              (plays_of "alice") Hu Hn Hc) as (sorted & H1 & _ & H2 & _).
  exists sorted. split; [exact H1|]. split; [|exact H2].
  assert (E : top_songs tied_items 3 (user_Name alice)
              = OK [tied_item "T2" 5; tied_item "T4" 5; tied_item "T1" 2])
    by reflexivity.
  rewrite E in H2. injection H2 as H2. symmetry. exact H2.
Defined.

Lemma top_artists_totals_witness :
  In alice scenario_users /\ 0 <= 5 /\
  counts "alice" scenario_items (plays_of "alice") /\
  bake scenario_items "alice" = OK (artist_totals (plays_of "alice") scenario_items).
Proof.
  assert (Hu : In alice scenario_users) by (simpl; auto).
  assert (Hn : 0 <= 5) by lia.
  assert (Hc : counts (user_Name alice) scenario_items (plays_of "alice"))
    by (apply counts_scenario; auto).
  split; [exact Hu|]. split; [exact Hn|]. split; [exact Hc|].
  destruct (top_artists_totals scenario_items scenario_users 5 alice
              (plays_of "alice") Hu Hn Hc) as (sorted & H1 & _).
  exact H1.
Defined.

Lemma artists_with_zero_total_witness :
  In bob scenario_users /\ 0 <= 5 /\
  counts "bob" scenario_items (plays_of "bob") /\
  exists artists top,
    bake scenario_items "bob" = OK artists /\
    top_artists scenario_items 5 "bob" = OK top /\
    Z.of_nat (List.length top)
    = Z.min 5 (Z.of_nat (List.length
                 (nodup string_dec (flat_map item_Artists scenario_items)))).
Proof.
  assert (Hu : In bob scenario_users) by (simpl; auto).
  assert (Hn : 0 <= 5) by lia.
  assert (Hc : counts (user_Name bob) scenario_items (plays_of "bob"))
    by (apply counts_scenario; auto).
  split; [exact Hu|]. split; [exact Hn|]. split; [exact Hc|].
  destruct (artists_with_zero_total scenario_items scenario_users 5 bob
              (plays_of "bob") Hu Hn Hc)
    as (artists & top & H1 & H2 & _ & _ & _ & H3 & _).
  exists artists, top. split; [exact H1|]. split; [exact H2 | exact H3].
Defined.

(** The minutes of alice in the scenario: the total of the formula on
    (120000000, 3), (60000000, 1) and (180000000, 0), which is the float
    of 2 * 3 + 1 * 1 + 3 * 0 = 7. *)
Lemma minutes_listened_is_float_sum_witness :
  In alice scenario_users /\
  exists minutes,
    find_minutes_listened scenario_items scenario_users = OK minutes /\
    dict_get minutes "alice"
    = Some (float_total
              (formula_minutes [(120000000, 3); (60000000, 1); (180000000, 0)])) /\
    dict_get minutes "alice" = Some (PFloat (nearest_float 7)).
Proof.
  assert (Hu : In alice scenario_users) by (simpl; auto).
  split; [assumption|].
  destruct (minutes_listened_is_float_sum scenario_items scenario_users alice Hu)
    as (H1 & H2 & H3).
  destruct H2 as [minutes E].
  { intros u' x [<-|[<-|[]]] [<-|[<-|[<-|[]]]];
      do 2 eexists; (split; [reflexivity|]); split; reflexivity. }
  exists minutes. split; [exact E|]. split.
  - destruct (H1 minutes E) as (rows & Hrows & Hget & _).
    cbn in Hrows.
    destruct rows as [|r1 [|r2 [|r3 [|r4 rows]]]]; try discriminate.
    injection Hrows as E1 E2 E3. subst r1 r2 r3. exact Hget.
  - apply (H3 minutes
             (fun x => match item_RunTimeTicks x with
                       | Some ticks => ticks / 60000000
                       | None => 0
                       end)
             (plays_of "alice") E).
    + discriminate.
    + intros x [<-|[<-|[<-|[]]]];
        (split; [reflexivity|]); (split; [discriminate|]);
        (split; [reflexivity | split; [discriminate | reflexivity]]).
    + reflexivity.
Defined.

Lemma missing_entry_is_key_error_witness :
  In bob scenario_users /\ In unknown_to_bob [song_one; unknown_to_bob] /\
  dict_get (item_UserData unknown_to_bob) "bob" = None /\
  exists u' x',
    In u' scenario_users /\ In x' [song_one; unknown_to_bob] /\
    dict_get (item_UserData x') (user_Name u') = None /\
    aggregate [song_one; unknown_to_bob] scenario_users 5 5
    = Raise (KeyError (user_Name u')).
Proof.
  assert (Hu : In bob scenario_users) by (simpl; auto).
  assert (Hx : In unknown_to_bob [song_one; unknown_to_bob]) by (simpl; auto).
  assert (Hm : dict_get (item_UserData unknown_to_bob) (user_Name bob) = None)
    by reflexivity.
  split; [exact Hu|]. split; [exact Hx|]. split; [exact Hm|].
  exact (missing_entry_is_key_error [song_one; unknown_to_bob] scenario_users 5 5
           bob unknown_to_bob Hu Hx Hm).
Defined.

Lemma no_maf_raises_key_error_witness :
  (forall users u, srv_users server_of_alice = Some users -> In u users ->
     user_Name u <> "maf"%string) /\
  early_only (fst (generate_jellyfin_recap server_of_alice 5 5)) /\
  snd (generate_jellyfin_recap server_of_alice 5 5) <> OK tt.
Proof.
  assert (H : forall users u, srv_users server_of_alice = Some users -> In u users ->
                user_Name u <> "maf"%string).
  { intros users u [= <-] [<-|[]]. discriminate. }
  split; [exact H|].
  exact (proj2 (no_maf_raises_key_error server_of_alice 5 5 H)).
Defined.

(** The report of maf for a recap with one top song and one top artist,
    one row asked for. *)
Lemma write_report_OK_witness :
  write_report one_song_server 1 1 one_song_recap "maf"
  = ([EvOpen (HtmlFile "maf");
      EvWrite (HtmlFile "maf") HtmlHead;
      EvWrite (HtmlFile "maf") (ImgTag "i1");
      EvWrite (HtmlFile "maf") TableHead;
      EvWrite (HtmlFile "maf") RowOpen;
      EvWrite (HtmlFile "maf") (ArtistCell 1 "A");
      EvWrite (HtmlFile "maf") (SongCell 1 "Song");
      EvWrite (HtmlFile "maf") RowClose;
      EvWrite (HtmlFile "maf") TableClose;
      EvWrite (HtmlFile "maf") (MinutesLine (PInt 0));
      EvWrite (HtmlFile "maf") HtmlFoot], OK tt).
Proof.
  apply (write_report_OK one_song_server 1 1 one_song_recap "maf" [one_song]
           [("A"%string, 1)] eq_refl eq_refl one_song (PInt 0)
           eq_refl eq_refl eq_refl);
    simpl; lia.
Defined.

Lemma one_song_answered : answered one_song_server [one_song] [maf].
Proof. intros x u _ _. discriminate. Qed.

Lemma one_song_fetch :
  fetch one_song_server
  = (fst (fetch one_song_server), OK ([one_song_fetched], [maf])).
Proof. reflexivity. Qed.

Lemma maf_is_a_user : exists u, In u [maf] /\ user_Name u = "maf"%string.
Proof. exists maf. split; [left|]; reflexivity. Qed.

Lemma fetch_asks_for_every_pair_witness :
  exists item_data',
    snd (fetch one_song_server) = OK (item_data', [maf]) /\
    Forall2 (with_userdata one_song_server [maf]) [one_song] item_data'.
Proof.
  destruct (fetch_asks_for_every_pair one_song_server [one_song] [maf]
              eq_refl eq_refl one_song_answered) as (item_data' & E & F & _).
  exists item_data'. rewrite E. split; [reflexivity | exact F].
Defined.

Lemma fetched_items_have_every_entry_witness :
  exists item_data,
    srv_items one_song_server = Some item_data /\
    Forall2 (with_userdata one_song_server [maf]) item_data [one_song_fetched] /\
    forall x' u, In x' [one_song_fetched] -> In u [maf] ->
      exists n, play_count (user_Name u) x' = OK n.
Proof.
  destruct (fetched_items_have_every_entry one_song_server _ _ _ one_song_fetch)
    as (item_data & Hi & _ & _ & F & H).
  exists item_data. split; [exact Hi|]. split; [exact F | exact H].
Defined.

Lemma refused_request_ends_the_run_witness :
  refused server_without_users ReqUsers /\
  exists t,
    fst (generate_jellyfin_recap server_without_users 5 5)
      = t ++ [EvRequest ReqUsers] /\
    Forall (fun ev => is_report ev = false) t.
Proof.
  exact (refused_request_ends_the_run server_without_users 5 5 ReqUsers eq_refl).
Defined.

Lemma run_raises_one_of_four_witness :
  (forall item_data, srv_items one_song_server = Some item_data ->
     well_formed item_data) /\
  (forall p, can_open one_song_server p = true) /\
  snd (generate_jellyfin_recap one_song_server 5 5) = Raise IndexError /\
  ((exists q, IndexError = HttpError q /\ refused one_song_server q) \/
   (IndexError = KeyError "maf" /\
    forall users u, srv_users one_song_server = Some users -> In u users ->
      user_Name u <> "maf"%string) \/
   (IndexError = IndexError /\
    exists t item_data users r user,
      fetch one_song_server = (t, OK (item_data, users)) /\
      aggregate item_data users 5 5 = OK r /\
      In user (map user_Name users) /\
      ready (Z.min 5 5) r user = false) \/
   IndexError = OverflowError).
Proof.
  assert (Hwf : forall item_data, srv_items one_song_server = Some item_data ->
                  well_formed item_data).
  { intros item_data [= <-] x [<-|[]]. split; discriminate. }
  assert (Hopen : forall p, can_open one_song_server p = true)
    by reflexivity.
  split; [exact Hwf|]. split; [exact Hopen|]. split; [reflexivity|].
  exact (run_raises_one_of_four one_song_server 5 5 IndexError Hwf Hopen eq_refl).
Defined.

Lemma no_top_song_raises_at_the_first_image_witness :
  snd (generate_jellyfin_recap empty_server 5 5) = Raise IndexError.
Proof.
  rewrite (no_top_song_raises_at_the_first_image empty_server 5 5
             (fst (fetch empty_server)) [] [maf]
             (recap_or_empty (aggregate [] [maf] 5 5))
             eq_refl eq_refl maf_is_a_user);
    [reflexivity | cbn; lia].
Defined.

Lemma one_song_recap_5 :
  aggregate [one_song_fetched] [maf] 5 5
  = OK (recap_or_empty (aggregate [one_song_fetched] [maf] 5 5)).
Proof. reflexivity. Qed.

Lemma one_song_recap_1 :
  aggregate [one_song_fetched] [maf] 1 1
  = OK (recap_or_empty (aggregate [one_song_fetched] [maf] 1 1)).
Proof. reflexivity. Qed.

Lemma short_lists_stop_the_first_report_witness :
  snd (generate_jellyfin_recap one_song_server 5 5) = Raise IndexError.
Proof.
  destruct (short_lists_stop_the_first_report one_song_server 5 5
              (fst (fetch one_song_server)) [one_song_fetched] [maf]
              (recap_or_empty (aggregate [one_song_fetched] [maf] 5 5))
              one_song_fetch one_song_recap_5 maf_is_a_user eq_refl)
    as (u & rest & t & _ & E & _).
  - intros u [<-|[]]. reflexivity.
  - intros u _. reflexivity.
  - unfold enough. cbn. lia.
  - rewrite E. reflexivity.
Defined.

Lemma fetched_aggregation_completes_witness :
  exists r, aggregate [one_song_fetched] [maf] 5 5 = OK r.
Proof.
  destruct (fetched_aggregation_completes one_song_server 5 5
              (fst (fetch one_song_server)) [one_song_fetched] [maf]
              one_song_fetch) as (r & H & _).
  - intros x [<-|[]]. eexists. split; reflexivity.
  - intros x u entry [<-|[]] [<-|[]] [= <-]. reflexivity.
  - exists r. exact H.
Defined.

Lemma run_succeeds_witness :
  snd (generate_jellyfin_recap one_song_server 1 1) = OK tt.
Proof.
  apply (run_succeeds one_song_server 1 1 [one_song] [maf] eq_refl eq_refl
           one_song_answered).
  - intros x _. reflexivity.
  - exact maf_is_a_user.
  - unfold enough. cbn. lia.
  - split.
    + intros x [<-|[]]. eexists. split; reflexivity.
    + intros x u ud _ _ [= <-]. reflexivity.
  - intros x [<-|[]]. discriminate.
  - intros x _. reflexivity.
  - intros u _. reflexivity.
Defined.

Lemma run_returns_only_with_enough_witness :
  exists item_data users,
    srv_items one_song_server = Some item_data /\
    srv_users one_song_server = Some users /\
    enough item_data 1 1.
Proof.
  destruct (run_returns_only_with_enough one_song_server 1 1 eq_refl)
    as (item_data & users & Hi & Hu & _ & _ & He & _).
  exists item_data, users. auto.
Defined.

Lemma scenario_recap (num_top_songs num_top_artists : Z) :
  (num_top_songs = 2 \/ num_top_songs = 5 \/ num_top_songs = -1) ->
  (num_top_artists = 5 \/ num_top_artists = -1) ->
  aggregate scenario_items scenario_users num_top_songs num_top_artists
  = OK (recap_or_empty
          (aggregate scenario_items scenario_users num_top_songs num_top_artists)).
Proof. intros [->|[->| ->]] [->| ->]; reflexivity. Qed.

Lemma alice_is_a_user : In alice scenario_users.
Proof. left. reflexivity. Qed.

Lemma alice_counts : counts (user_Name alice) scenario_items (plays_of "alice").
Proof. apply counts_scenario. left. reflexivity. Qed.

Lemma recap_shape_witness :
  Z.of_nat (List.length
    (songs_of (recap_or_empty (aggregate scenario_items scenario_users 2 5)) "alice"))
  = 2.
Proof.
  destruct (recap_shape scenario_items scenario_users 2 5 _
              (scenario_recap 2 5 ltac:(auto) ltac:(auto))) as (_ & _ & _ & H).
  destruct (H alice alice_is_a_user) as (E & _). exact E.
Defined.

Lemma negative_numbers_cut_the_end_witness :
  exists ranked_songs,
    stable_sorted_desc (plays_of "alice") scenario_items ranked_songs /\
    songs_of (recap_or_empty (aggregate scenario_items scenario_users (-1) (-1)))
             "alice"
    = firstn (List.length ranked_songs - 1) ranked_songs.
Proof.
  destruct (negative_numbers_cut_the_end scenario_items scenario_users (-1) (-1) _
              alice (plays_of "alice")
              (scenario_recap (-1) (-1) ltac:(auto) ltac:(auto))
              alice_is_a_user alice_counts)
    as (rs & ra & Hrs & _ & Hs & _).
  exists rs. split; [exact Hrs|]. apply Hs. lia.
Defined.

Lemma minutes_are_not_negative_witness :
  exists total,
    dict_get (minutes_listened
                (recap_or_empty (aggregate scenario_items scenario_users 2 5)))
             "alice" = Some total /\
    not_negative_num total.
Proof.
  apply (minutes_are_not_negative scenario_items scenario_users _ alice eq_refl
           alice_is_a_user).
  - intros x ticks [<-|[<-|[<-|[]]]] [= <-]; lia.
  - intros x entry [<-|[<-|[<-|[]]]] [= <-]; cbn; lia.
Defined.

Lemma top_entries_are_the_most_played_witness :
  exists rest,
    Permutation scenario_items
      (songs_of (recap_or_empty (aggregate scenario_items scenario_users 2 5))
                "alice" ++ rest) /\
    forall x y,
      In x (songs_of (recap_or_empty (aggregate scenario_items scenario_users 2 5))
                     "alice") ->
      In y rest -> plays_of "alice" y <= plays_of "alice" x.
Proof.
  exact (proj1 (top_entries_are_the_most_played scenario_items scenario_users 2 5 _
                  alice (plays_of "alice")
                  (scenario_recap 2 5 ltac:(auto) ltac:(auto))
                  alice_is_a_user alice_counts)).
Defined.

Lemma unplayed_songs_fill_the_top_witness :
  exists x,
    In x (songs_of (recap_or_empty (aggregate scenario_items scenario_users 5 5))
                   "alice") /\
    plays_of "alice" x = 0.
Proof.
  apply (unplayed_songs_fill_the_top scenario_items scenario_users 5 5 _ alice
           (plays_of "alice") (scenario_recap 5 5 ltac:(auto) ltac:(auto))
           alice_is_a_user alice_counts).
  - intros x [<-|[<-|[<-|[]]]]; cbn; lia.
  - cbn. lia.
  - cbn. lia.
Defined.

Lemma rankings_without_ties_witness :
  top_songs [song_three; song_two; song_one] 2 "alice"
  = top_songs scenario_items 2 "alice".
Proof.
  apply (proj1 (rankings_without_ties scenario_items [song_three; song_two; song_one]
                  2 "alice" (plays_of "alice") alice_counts
                  (Permutation_rev scenario_items))).
  repeat (apply NoDup_cons; [cbn; intuition discriminate|]). apply NoDup_nil.
Defined.

Lemma report_image_is_saved_first_witness :
  In (EvSaveImage (AssetFile "i1"))
     (firstn 21 (fst (generate_jellyfin_recap one_song_server 1 1))).
Proof.
  exact (report_image_is_saved_first one_song_server 1 1
           (firstn 21 (fst (generate_jellyfin_recap one_song_server 1 1)))
           (skipn 22 (fst (generate_jellyfin_recap one_song_server 1 1)))
           (HtmlFile "maf") "i1" eq_refl).
Defined.
